(** * cdk-zod-agent: the endpoint contract, the generated client, the request
      signer / transport invoker and the server handler wrapper.

    Shallow embedding of
      - lib/package/helpers/endpoints.ts   (zodPathParametersSchema,
        defineZodEndpoint, buildClientFunction, createApiClient),
      - lib/package/helpers/iamRequest.ts  (getSSOCredentials, signRequest,
        makeIAMRequest),
      - lib/package/helpers/initApiHandler.ts (initApiHandler).

    Conventions of the model
      - a JavaScript string is a Rocq [string]: the bytes of its UTF-8
        encoding;
      - a JavaScript number is an integer ([Z]); fractions, NaN and the
        infinities are outside the model;
      - a plain JavaScript object is the list of its own properties in
        enumeration order (see [JSObject]);
      - everything the code asks of its surroundings (console, clock, URL
        parsing, SigV4 signing, fetch, and the [iamRequest] helper that the
        client delegates to) is an operation of [Op]; a program is a tree of
        such operations ([Prog]) and [run] executes it against a [World],
        returning the trace of operations and how the program completed;
        [process.env] is a parameter of the code that reads it. *)

From Stdlib Require Import String Ascii List ZArith NArith Bool Lia.
From Stdlib Require Import DecimalString DecimalZ DecimalN.
From Stdlib Require DecimalPos.
Import ListNotations.

Open Scope list_scope.
Open Scope string_scope.

(* ================================================================== *)
(** * Strings *)
(* ================================================================== *)

Module Str.

(** [s.startsWith(p)] *)
Definition startsWith (p s : string) : bool := String.prefix p s.

(** [s.slice(n)] for [0 <= n] *)
Fixpoint drop (n : nat) (s : string) : string :=
  match n, s with
  | O, _ => s
  | S n', String _ s' => drop n' s'
  | S _, EmptyString => EmptyString
  end.

(** [s.replace(pat, rep)] with a string pattern: only the first occurrence of
    [pat] is replaced.  ([rep] is taken literally; the callers below pass
    either the empty string or the result of [encodeURIComponent], neither of
    which contains the dollar sign that introduces a replacement pattern.) *)
Fixpoint replace (pat rep s : string) : string :=
  match s with
  | EmptyString => if String.prefix pat EmptyString then rep else EmptyString
  | String c s' =>
      if String.prefix pat s then rep ++ drop (String.length pat) s
      else String c (replace pat rep s')
  end.

(** [s.endsWith("/")] *)
Fixpoint endsWithSlash (s : string) : bool :=
  match s with
  | EmptyString => false
  | String c EmptyString => Ascii.eqb c "/"
  | String _ s' => endsWithSlash s'
  end.

(** [s.slice(0, -1)] *)
Fixpoint dropLast (s : string) : string :=
  match s with
  | EmptyString => EmptyString
  | String _ EmptyString => EmptyString
  | String c s' => String c (dropLast s')
  end.

(** [parts.join(sep)] *)
Fixpoint join (sep : string) (parts : list string) : string :=
  match parts with
  | [] => ""
  | [p] => p
  | p :: rest => p ++ sep ++ join sep rest
  end.

Definition isDigit (c : ascii) : bool :=
  (48 <=? nat_of_ascii c)%nat && (nat_of_ascii c <=? 57)%nat.

Definition digitValue (c : ascii) : N := N.of_nat (nat_of_ascii c - 48).

(** Decimal rendering of an integer, as template literals and
    [JSON.stringify] render one. *)
Definition ofZ (n : Z) : string := NilZero.string_of_int (Z.to_int n).

End Str.

(* ================================================================== *)
(** * Plain objects: own properties in enumeration order *)
(* ================================================================== *)

(** ECMAScript enumerates the own string keys of an ordinary object with the
    array indices first, in ascending numeric order, and then the other keys
    in the order in which they were created.  An object is represented by the
    list of its properties in that order. *)
Module JSObject.

Abbreviation t V := (list (string * V)) (only parsing).

Fixpoint digitsValue (acc : N) (s : string) : option N :=
  match s with
  | EmptyString => Some acc
  | String c s' =>
      if Str.isDigit c then digitsValue (acc * 10 + Str.digitValue c)%N s'
      else None
  end.

(** An array index is a canonical numeric string ("0", or digits without a
    leading zero) whose value is at most 2^32 - 2. *)
Definition arrayIndex (k : string) : option N :=
  match k with
  | EmptyString => None
  | String c rest =>
      if Ascii.eqb c "0" then
        match rest with EmptyString => Some 0%N | _ => None end
      else
        match digitsValue 0 k with
        | Some n => if (n <=? 4294967294)%N then Some n else None
        | None => None
        end
  end.

(** [k] is enumerated before [k'] because of the array-index rule. *)
Definition indexBefore (k k' : string) : bool :=
  match arrayIndex k, arrayIndex k' with
  | Some i, Some j => (i <? j)%N
  | Some _, None => true
  | None, _ => false
  end.

(** CreateDataProperty: an existing property keeps its place and takes the
    new value; a new array index goes to its numeric position; any other new
    key goes last. *)
Fixpoint define {V} (k : string) (v : V) (o : t V) : t V :=
  match o with
  | [] => [(k, v)]
  | (k', v') :: o' =>
      if String.eqb k k' then (k, v) :: o'
      else if indexBefore k k' then (k, v) :: (k', v') :: o'
      else (k', v') :: define k v o'
  end.

(** The assignment [o[k] = v] on an object created by a literal: the key
    ["__proto__"] reaches the accessor inherited from Object.prototype and
    creates no own property. *)
Definition set {V} (k : string) (v : V) (o : t V) : t V :=
  if String.eqb k "__proto__" then o else define k v o.

(** [o[k]] for own properties *)
Fixpoint get {V} (k : string) (o : t V) : option V :=
  match o with
  | [] => None
  | (k', v) :: o' => if String.eqb k k' then Some v else get k o'
  end.

(** [Object.keys(o)], [Object.values(o)] *)
Definition keys {V} (o : t V) : list string := map fst o.
Definition values {V} (o : t V) : list V := map snd o.

(** [{ ...a, ...b }] *)
Definition spread {V} (a b : t V) : t V :=
  fold_left (fun acc kv => define (fst kv) (snd kv) acc) b a.

(** [k] may follow [k0] in an enumeration: they differ, and an array index
    never follows a larger index or a key that is not an index. *)
Definition mayFollow (k0 k : string) : bool :=
  negb (String.eqb k0 k) &&
  match arrayIndex k with
  | None => true
  | Some j => match arrayIndex k0 with
              | Some i => (i <? j)%N
              | None => false
              end
  end.

(** The key lists that are the enumeration of some object. *)
Fixpoint wellOrdered (ks : list string) : bool :=
  match ks with
  | [] => true
  | k :: ks' => forallb (mayFollow k) ks' && wellOrdered ks'
  end.

End JSObject.

(* ================================================================== *)
(** * Values *)
(* ================================================================== *)

#[warnings="-register-all"]
Inductive JSValue : Type :=
| VUndefined
| VNull
| VBool (b : bool)
| VNum (n : Z)
| VStr (s : string)
| VArr (items : list JSValue)
| VObj (props : JSObject.t JSValue).

(** ToBoolean *)
Definition truthy (v : JSValue) : bool :=
  match v with
  | VUndefined | VNull => false
  | VBool b => b
  | VNum n => negb (n =? 0)%Z
  | VStr s => negb (String.eqb s "")
  | VArr _ | VObj _ => true
  end.

(** [typeof v === "string"] *)
Definition isString (v : JSValue) : bool :=
  match v with VStr _ => true | _ => false end.

(** Truthiness of an optional string ([undefined] or the empty string are
    falsy). *)
Definition truthyStr (s : option string) : bool :=
  match s with
  | Some s' => negb (String.eqb s' "")
  | None => false
  end.

(** Induction on values that reaches the elements of arrays and the values
    of properties. *)
Section NestedInduction.

Variable P : JSValue -> Prop.
Hypothesis Hundefined : P VUndefined.
Hypothesis Hnull : P VNull.
Hypothesis Hbool : forall b, P (VBool b).
Hypothesis Hnum : forall n, P (VNum n).
Hypothesis Hstr : forall s, P (VStr s).
Hypothesis Harr : forall items, Forall P items -> P (VArr items).
Hypothesis Hobj :
  forall props, Forall (fun kv => P (snd kv)) props -> P (VObj props).

Fixpoint JSValue_nested_ind (v : JSValue) : P v :=
  match v with
  | VUndefined => Hundefined
  | VNull => Hnull
  | VBool b => Hbool b
  | VNum n => Hnum n
  | VStr s => Hstr s
  | VArr items =>
      Harr items
        ((fix all (l : list JSValue) : Forall P l :=
            match l with
            | [] => Forall_nil P
            | x :: l' => Forall_cons x (JSValue_nested_ind x) (all l')
            end) items)
  | VObj props =>
      Hobj props
        ((fix all (l : list (string * JSValue))
            : Forall (fun kv => P (snd kv)) l :=
            match l with
            | [] => Forall_nil _
            | kv :: l' =>
                Forall_cons kv
                  (match kv return P (snd kv) with
                   | (_, x) => JSValue_nested_ind x
                   end)
                  (all l')
            end) props)
  end.

End NestedInduction.

(* ================================================================== *)
(** * Errors and completions *)
(* ================================================================== *)

(** One issue of a zod validation failure. *)
Record ZodIssue : Type := mkIssue {
  issue_path : list string;
  issue_message : string
}.

(** A [ZodError]: [error.message] and [error.errors]. *)
Record ZodError : Type := mkZodError {
  zod_message : string;
  zod_errors : list ZodIssue
}.

(** The values that the modelled code throws or sees thrown. *)
Inductive JSError : Type :=
| ErrorObj (message : string)          (* new Error(message) *)
| ZodErrorObj (e : ZodError)           (* thrown by schema.parse *)
| SyntaxErrorObj (message : string)    (* thrown by JSON.parse *)
| PlatformError (name message : string) (* thrown by the platform *).

Inductive Completion (A : Type) : Type :=
| Normal (a : A)
| Thrown (e : JSError).
Arguments Normal {A} a.
Arguments Thrown {A} e.

(* ================================================================== *)
(** * Platform functions on strings and values *)
(* ================================================================== *)

Module Hex.

Definition digit (upper : bool) (n : nat) : ascii :=
  if (n <? 10)%nat then ascii_of_nat (48 + n)
  else ascii_of_nat ((if upper then 55 else 87) + n).

(** Two hexadecimal digits of a byte. *)
Definition ofByte (upper : bool) (c : ascii) : string :=
  let n := nat_of_ascii c in
  String (digit upper (n / 16)) (String (digit upper (n mod 16)) EmptyString).

Definition value (c : ascii) : option N :=
  let n := nat_of_ascii c in
  if Str.isDigit c then Some (N.of_nat (n - 48))
  else if ((65 <=? n) && (n <=? 70))%nat then Some (N.of_nat (n - 55))
  else if ((97 <=? n) && (n <=? 102))%nat then Some (N.of_nat (n - 87))
  else None.

End Hex.

(** [encodeURIComponent]: every byte of the UTF-8 encoding is percent-encoded
    except the unreserved marks  A-Z a-z 0-9 - _ . ! ~ * ' ( ) *)
Definition uriUnreserved (c : ascii) : bool :=
  let n := nat_of_ascii c in
  ((65 <=? n) && (n <=? 90) || (97 <=? n) && (n <=? 122) ||
   (48 <=? n) && (n <=? 57))%nat ||
  existsb (Ascii.eqb c)
    ["-"; "_"; "."; "!"; "~"; "*"; "'"; "("; ")"]%char.

Fixpoint encodeURIComponent (s : string) : string :=
  match s with
  | EmptyString => EmptyString
  | String c s' =>
      if uriUnreserved c then String c (encodeURIComponent s')
      else String "%" (Hex.ofByte true c ++ encodeURIComponent s')
  end.

Module JSON.

(** The double quote character. *)
Definition dquote : ascii := "034"%char.

(** QuoteJSONString *)
Definition quoteChar (c : ascii) : string :=
  let n := nat_of_ascii c in
  if (n =? 34)%nat then String "\" (String dquote EmptyString)
  else if (n =? 92)%nat then "\\"
  else if (n =? 8)%nat then "\b"
  else if (n =? 9)%nat then "\t"
  else if (n =? 10)%nat then "\n"
  else if (n =? 12)%nat then "\f"
  else if (n =? 13)%nat then "\r"
  else if (n <? 32)%nat then "\u00" ++ Hex.ofByte false c
  else String c EmptyString.

Fixpoint quoteBody (s : string) : string :=
  match s with
  | EmptyString => EmptyString
  | String c s' => quoteChar c ++ quoteBody s'
  end.

Definition quote (s : string) : string :=
  String dquote (quoteBody s ++ String dquote EmptyString).

(** [JSON.stringify(v)] without indentation.  [None] is the result
    [undefined]; inside an array [undefined] is written [null], and a property
    whose value is [undefined] is left out. *)
Fixpoint stringify (v : JSValue) : option string :=
  match v with
  | VUndefined => None
  | VNull => Some "null"
  | VBool true => Some "true"
  | VBool false => Some "false"
  | VNum n => Some (Str.ofZ n)
  | VStr s => Some (quote s)
  | VArr items =>
      Some ("[" ++
            Str.join ","
              (map (fun i => match stringify i with
                             | Some s => s
                             | None => "null"
                             end) items)
            ++ "]")
  | VObj props =>
      Some ("{" ++
            Str.join ","
              (flat_map (fun kv => match stringify (snd kv) with
                                   | Some s => [quote (fst kv) ++ ":" ++ s]
                                   | None => []
                                   end) props)
            ++ "}")
  end.

(** ** JSON.parse *)

Definition isWs (c : ascii) : bool :=
  let n := nat_of_ascii c in
  ((n =? 32) || (n =? 9) || (n =? 10) || (n =? 13))%nat.

Fixpoint skipWs (s : string) : string :=
  match s with
  | String c s' => if isWs c then skipWs s' else s
  | EmptyString => s
  end.

(** A string literal is read as a sequence of units: bytes taken as they
    are, and UTF-16 code units written as [\uXXXX]. *)
Inductive StrUnit : Type :=
| RawByte (c : ascii)
| CodeUnit (n : N).

Definition simpleEscape (e : ascii) : option ascii :=
  let n := nat_of_ascii e in
  if (n =? 34)%nat then Some dquote
  else if (n =? 92)%nat then Some "\"%char
  else if (n =? 47)%nat then Some "/"%char
  else if (n =? 98)%nat then Some "008"%char
  else if (n =? 116)%nat then Some "009"%char
  else if (n =? 110)%nat then Some "010"%char
  else if (n =? 102)%nat then Some "012"%char
  else if (n =? 114)%nat then Some "013"%char
  else None.

Definition hex4 (h1 h2 h3 h4 : ascii) : option N :=
  match Hex.value h1, Hex.value h2, Hex.value h3, Hex.value h4 with
  | Some a, Some b, Some c, Some d => Some (((a * 16 + b) * 16 + c) * 16 + d)%N
  | _, _, _, _ => None
  end.

Definition consUnit (u : StrUnit) (r : option (list StrUnit * string))
  : option (list StrUnit * string) :=
  match r with
  | Some (us, rest) => Some (u :: us, rest)
  | None => None
  end.

(** Reads the units of a string literal after its opening quote, up to and
    including the closing quote. *)
Fixpoint parseUnits (s : string) : option (list StrUnit * string) :=
  match s with
  | EmptyString => None
  | String c s' =>
      if Ascii.eqb c dquote then Some ([], s')
      else if Ascii.eqb c "\" then
        match s' with
        | String e s'' =>
            if Ascii.eqb e "u" then
              match s'' with
              | String h1 (String h2 (String h3 (String h4 rest))) =>
                  match hex4 h1 h2 h3 h4 with
                  | Some n => consUnit (CodeUnit n) (parseUnits rest)
                  | None => None
                  end
              | _ => None
              end
            else
              match simpleEscape e with
              | Some ch => consUnit (RawByte ch) (parseUnits s'')
              | None => None
              end
        | EmptyString => None
        end
      else if (nat_of_ascii c <? 32)%nat then None
      else consUnit (RawByte c) (parseUnits s')
  end.

Definition byte (n : N) : ascii := ascii_of_N n.

(** UTF-8 encoding of a code point (a lone surrogate is encoded like any
    other code point below 0x10000). *)
Definition utf8 (cp : N) : string :=
  (if cp <? 128 then String (byte cp) EmptyString
   else if cp <? 2048 then
     String (byte (192 + cp / 64)) (String (byte (128 + cp mod 64)) EmptyString)
   else if cp <? 65536 then
     String (byte (224 + cp / 4096))
       (String (byte (128 + (cp / 64) mod 64))
          (String (byte (128 + cp mod 64)) EmptyString))
   else
     String (byte (240 + cp / 262144))
       (String (byte (128 + (cp / 4096) mod 64))
          (String (byte (128 + (cp / 64) mod 64))
             (String (byte (128 + cp mod 64)) EmptyString))))%N.

Definition isHighSurrogate (n : N) : bool := ((55296 <=? n) && (n <=? 56319))%N.
Definition isLowSurrogate (n : N) : bool := ((56320 <=? n) && (n <=? 57343))%N.

Fixpoint decodeUnits (us : list StrUnit) : string :=
  match us with
  | [] => EmptyString
  | RawByte c :: us' => String c (decodeUnits us')
  | CodeUnit hi :: us' =>
      match us' with
      | CodeUnit lo :: us'' =>
          if isHighSurrogate hi && isLowSurrogate lo then
            utf8 (65536 + (hi - 55296) * 1024 + (lo - 56320))%N
            ++ decodeUnits us''
          else utf8 hi ++ decodeUnits us'
      | _ => utf8 hi ++ decodeUnits us'
      end
  end.

(** A string literal after its opening quote. *)
Definition parseString (s : string) : option (string * string) :=
  match parseUnits s with
  | Some (us, rest) => Some (decodeUnits us, rest)
  | None => None
  end.

Fixpoint spanDigits (s : string) : string * string :=
  match s with
  | String c s' =>
      if Str.isDigit c then
        let r := spanDigits s' in (String c (fst r), snd r)
      else (EmptyString, s)
  | EmptyString => (EmptyString, EmptyString)
  end.

(** The character after an integer that would continue a JSON number. *)
Definition continuesNumber (rest : string) : bool :=
  match rest with
  | String c _ =>
      Str.isDigit c || Ascii.eqb c "." || Ascii.eqb c "e" || Ascii.eqb c "E"
  | EmptyString => false
  end.

Definition leadingZero (ds : string) : bool :=
  match ds with
  | String c (String _ _) => Ascii.eqb c "0"
  | _ => false
  end.

(** A number token.  Only integers are in the model: a fraction or an
    exponent is refused. *)
Definition parseNumber (s : string) : option (Z * string) :=
  let signed :=
    match s with
    | String c s' => if Ascii.eqb c "-" then ("-", s') else (EmptyString, s)
    | EmptyString => (EmptyString, s)
    end in
  let r := spanDigits (snd signed) in
  if String.eqb (fst r) EmptyString then None
  else if leadingZero (fst r) then None
  else if continuesNumber (snd r) then None
  else match NilZero.int_of_string (fst signed ++ fst r) with
       | Some d => Some (Z.of_int d, snd r)
       | None => None
       end.

Definition expectChar (c : ascii) (s : string) : option string :=
  match s with
  | String c' s' => if Ascii.eqb c c' then Some s' else None
  | EmptyString => None
  end.

(** Recursive descent.  [fuel] bounds the number of values read; [JSON.parse]
    gives more than any text can use.  [parseElements] reads the elements of
    an array after the first has been found to exist, and [parseMembers] the
    members of an object, adding each to [acc] with CreateDataProperty. *)
Fixpoint parseValue (fuel : nat) (s : string) : option (JSValue * string) :=
  match fuel with
  | O => None
  | S f =>
      match s with
      | EmptyString => None
      | String c s' =>
          if Ascii.eqb c "[" then
            match skipWs s' with
            | String c1 r1 =>
                if Ascii.eqb c1 "]" then Some (VArr [], r1)
                else
                  match parseElements f (String c1 r1) with
                  | Some (items, r) => Some (VArr items, r)
                  | None => None
                  end
            | EmptyString => None
            end
          else if Ascii.eqb c "{" then
            match skipWs s' with
            | String c1 r1 =>
                if Ascii.eqb c1 "}" then Some (VObj [], r1)
                else
                  match parseMembers f [] (String c1 r1) with
                  | Some (props, r) => Some (VObj props, r)
                  | None => None
                  end
            | EmptyString => None
            end
          else if Ascii.eqb c dquote then
            match parseString s' with
            | Some (str, r) => Some (VStr str, r)
            | None => None
            end
          else if String.prefix "true" s then Some (VBool true, Str.drop 4 s)
          else if String.prefix "false" s then Some (VBool false, Str.drop 5 s)
          else if String.prefix "null" s then Some (VNull, Str.drop 4 s)
          else
            match parseNumber s with
            | Some (n, r) => Some (VNum n, r)
            | None => None
            end
      end
  end
with parseElements (fuel : nat) (s : string)
  : option (list JSValue * string) :=
  match fuel with
  | O => None
  | S f =>
      match parseValue f s with
      | Some (v, r) =>
          match skipWs r with
          | String c r' =>
              if Ascii.eqb c "," then
                match parseElements f (skipWs r') with
                | Some (vs, r'') => Some (v :: vs, r'')
                | None => None
                end
              else if Ascii.eqb c "]" then Some ([v], r')
              else None
          | EmptyString => None
          end
      | None => None
      end
  end
with parseMembers (fuel : nat) (acc : JSObject.t JSValue) (s : string)
  : option (JSObject.t JSValue * string) :=
  match fuel with
  | O => None
  | S f =>
      match expectChar dquote s with
      | Some s1 =>
          match parseString s1 with
          | Some (k, s2) =>
              match expectChar ":" (skipWs s2) with
              | Some s3 =>
                  match parseValue f (skipWs s3) with
                  | Some (v, r) =>
                      let acc' := JSObject.define k v acc in
                      match skipWs r with
                      | String c r' =>
                          if Ascii.eqb c "," then
                            parseMembers f acc' (skipWs r')
                          else if Ascii.eqb c "}" then Some (acc', r')
                          else None
                      | EmptyString => None
                      end
                  | None => None
                  end
              | None => None
              end
          | None => None
          end
      | None => None
      end
  end.

(** [JSON.parse(text)] *)
Definition parse (text : string) : Completion JSValue :=
  match parseValue (S (String.length text)) (skipWs text) with
  | Some (v, rest) =>
      match skipWs rest with
      | EmptyString => Normal v
      | String _ _ => Thrown (SyntaxErrorObj "Unexpected non-whitespace character after JSON")
      end
  | None => Thrown (SyntaxErrorObj "Unexpected token in JSON")
  end.

(** ** The values JSON carries *)

(** The values [JSON.stringify] writes in full and [JSON.parse] gives back:
    no [undefined] anywhere, and every object enumerated as ECMAScript
    enumerates it. *)
Fixpoint wellFormed (v : JSValue) : bool :=
  match v with
  | VUndefined => false
  | VNull | VBool _ | VNum _ | VStr _ => true
  | VArr items => forallb wellFormed items
  | VObj props =>
      JSObject.wellOrdered (map fst props)
      && forallb (fun kv => wellFormed (snd kv)) props
  end.

(** The text of a value inside an array. *)
Definition text (v : JSValue) : string :=
  match stringify v with
  | Some s => s
  | None => "null"
  end.

(** The text of a property. *)
Definition member (kv : string * JSValue) : string :=
  quote (fst kv) ++ ":" ++ text (snd kv).

Definition sizeAll {A : Type} (size : A -> nat) : list A -> nat :=
  fix go (l : list A) : nat :=
    match l with
    | [] => O
    | x :: l' => S (size x + go l')
    end.

(** The number of values in a value, counting each element and property
    once more for the list that holds it: the fuel its text needs. *)
Fixpoint size (v : JSValue) : nat :=
  match v with
  | VArr items => S (sizeAll size items)
  | VObj props => S (sizeAll (fun kv => size (snd kv)) props)
  | _ => 1
  end.

(** The unit that the parser reads for the way [quoteChar] writes [c]. *)
Definition unitOf (c : ascii) : StrUnit :=
  let n := nat_of_ascii c in
  if ((n <? 32)
      && negb ((n =? 8) || (n =? 9) || (n =? 10) || (n =? 12) || (n =? 13)))%nat
  then CodeUnit (N_of_ascii c) else RawByte c.

Definition allDigits (s : string) : bool :=
  forallb Str.isDigit (list_ascii_of_string s).

(** A character that can begin the text of a value. *)
Definition beginsValue (c : ascii) : bool :=
  Str.isDigit c
  || existsb (Ascii.eqb c) ["-"; "n"; "t"; "f"; dquote; "["; "{"]%char.

(** The properties [props] created one after the other on [acc]. *)
Definition defineAll (props acc : JSObject.t JSValue) : JSObject.t JSValue :=
  fold_left (fun o kv => JSObject.define (fst kv) (snd kv) o) props acc.

(** What the three parsers give back with [fuel], on the text of a value,
    of the elements of an array, and of the members of an object. *)
Definition ValueOK (fuel : nat) : Prop :=
  forall v rest,
    wellFormed v = true -> size v <= fuel -> continuesNumber rest = false ->
    parseValue fuel (text v ++ rest) = Some (v, rest).

Definition ElementsOK (fuel : nat) : Prop :=
  forall v items rest,
    forallb wellFormed (v :: items) = true ->
    sizeAll size (v :: items) <= fuel ->
    parseElements fuel (Str.join "," (map text (v :: items)) ++ String "]" rest)
    = Some (v :: items, rest).

Definition MembersOK (fuel : nat) : Prop :=
  forall kv props acc rest,
    forallb (fun kv => wellFormed (snd kv)) (kv :: props) = true ->
    sizeAll (fun kv => size (snd kv)) (kv :: props) <= fuel ->
    parseMembers fuel acc
      (Str.join "," (map member (kv :: props)) ++ String "}" rest)
    = Some (defineAll (kv :: props) acc, rest).

End JSON.

(* ================================================================== *)
(** * Schemas *)
(* ================================================================== *)

(** The result of [schema.safeParse(v)]. *)
Inductive SafeParseResult : Type :=
| ParseSuccess (data : JSValue)
| ParseFailure (error : ZodError).

(** A [z.ZodType]: the code only calls [safeParse] and [parse] on it. *)
Record ZodType : Type := mkZodType {
  safeParse : JSValue -> SafeParseResult
}.

(** [schema.parse(v)] returns the parsed data or throws the [ZodError]. *)
Definition parse (schema : ZodType) (v : JSValue) : Completion JSValue :=
  match safeParse schema v with
  | ParseSuccess data => Normal data
  | ParseFailure e => Thrown (ZodErrorObj e)
  end.

(* ================================================================== *)
(** * Requests, responses and the platform *)
(* ================================================================== *)

(** Allowed HTTP methods. *)
Inductive HttpMethod : Type := GET | POST | PUT | DELETE.

Definition methodName (m : HttpMethod) : string :=
  match m with
  | GET => "GET"
  | POST => "POST"
  | PUT => "PUT"
  | DELETE => "DELETE"
  end.

Definition Headers : Type := JSObject.t string.

(** [Record<string, string | Array<string> | null>] *)
Definition Query : Type := JSObject.t JSValue.

(** The argument object of [makeIAMRequest] (and of [iamRequest]). *)
Record IAMRequestArgs : Type := mkArgs {
  args_body : option string;
  args_domain : string;
  args_headers : option Headers;
  args_method : option string;
  args_path : string;
  args_query : option Query;
  args_allowedStatusCodes : option (list Z)
}.

(** [HttpRequest] of @smithy/protocol-http, as far as the code fills it. *)
Record HttpRequest : Type := mkRequest {
  req_hostname : string;
  req_method : string;
  req_headers : Headers;
  req_path : string;
  req_body : option string;
  req_query : option Query
}.

(** What the code reads of a parsed [URL]. *)
Record URL : Type := mkURL {
  url_host : string;
  url_pathname : string;
  url_href : string
}.

(** What the code reads of a fetch [Response]; [res_text] is how reading the
    body with [res.text()] completes. *)
Record Response : Type := mkResponse {
  res_status : Z;
  res_statusText : string;
  res_text : Completion string
}.

(** [res.ok]: the status is in the range 200-299. *)
Definition res_ok (res : Response) : bool :=
  ((200 <=? res_status res) && (res_status res <=? 299))%Z.

Record Credentials : Type := mkCredentials {
  accessKeyId : option string;
  secretAccessKey : option string;
  sessionToken : option string
}.

(** The configuration given to [new SignatureV4(...)] (the hash constructor,
    always [Sha256], is left out). *)
Record SignatureV4Init : Type := mkSignatureV4 {
  sig_service : string;
  sig_region : string;
  sig_credentials : Credentials
}.

(** [process.env] *)
Definition ProcessEnv : Type := string -> option string.

(** What is passed to [console.info] / [console.error]. *)
Inductive LogData : Type :=
| LogNothing
| LogRequestValidation (errors : list ZodIssue) (body : JSValue)
| LogResponseValidation (errors : list ZodIssue) (response : JSValue)
| LogInvocation (duration : Z) (method : HttpMethod) (url : string)
| LogArgs (args : IAMRequestArgs)
| LogHttpRequest (request : HttpRequest)
| LogRequestFailure (error : JSError) (args : IAMRequestArgs)
| LogHandlerFailure (err : JSError).

Record LogEntry : Type := mkLog {
  log_message : string;
  log_data : LogData
}.

(** The operations the code performs on its platform, indexed by the type of
    their answer.  An operation that can fail answers with a [Completion]. *)
Inductive Op : Type -> Type :=
| ConsoleInfo (entry : LogEntry) : Op unit
| ConsoleError (entry : LogEntry) : Op unit
| DateGetTime : Op Z
| IamRequest (args : IAMRequestArgs) : Op (Completion JSValue)
| FromSSO (profile : string) : Op (Completion Credentials)
| SignatureV4Sign (init : SignatureV4Init) (request : HttpRequest)
    : Op (Completion HttpRequest)
| NewURL (href : string) : Op (Completion URL)
| URLSearchParamsToString (query : option Query) : Op string
| Fetch (url : string) (init : HttpRequest) : Op (Completion Response).

(** An operation together with the answer it got. *)
Inductive Event : Type :=
| EvConsoleInfo (entry : LogEntry)
| EvConsoleError (entry : LogEntry)
| EvDateGetTime (now : Z)
| EvIamRequest (args : IAMRequestArgs) (answer : Completion JSValue)
| EvFromSSO (profile : string) (answer : Completion Credentials)
| EvSignatureV4Sign (init : SignatureV4Init) (request : HttpRequest)
    (answer : Completion HttpRequest)
| EvNewURL (href : string) (answer : Completion URL)
| EvURLSearchParamsToString (query : option Query) (answer : string)
| EvFetch (url : string) (init : HttpRequest) (answer : Completion Response).

Definition eventOf {X : Type} (op : Op X) : X -> Event :=
  match op in Op X return X -> Event with
  | ConsoleInfo entry => fun _ => EvConsoleInfo entry
  | ConsoleError entry => fun _ => EvConsoleError entry
  | DateGetTime => EvDateGetTime
  | IamRequest args => EvIamRequest args
  | FromSSO profile => EvFromSSO profile
  | SignatureV4Sign init request => EvSignatureV4Sign init request
  | NewURL href => EvNewURL href
  | URLSearchParamsToString query => EvURLSearchParamsToString query
  | Fetch url init => EvFetch url init
  end.

(** A program: it returns, throws, or performs an operation and continues
    with the answer. *)
Inductive Prog (A : Type) : Type :=
| Ret (a : A)
| Throw (e : JSError)
| Vis {X : Type} (op : Op X) (k : X -> Prog A).
Arguments Ret {A} a.
Arguments Throw {A} e.
Arguments Vis {A X} op k.

Fixpoint bind {A B : Type} (p : Prog A) (f : A -> Prog B) : Prog B :=
  match p with
  | Ret a => f a
  | Throw e => Throw e
  | Vis op k => Vis op (fun x => bind (k x) f)
  end.

(** [try { p } catch (e) { h e }] *)
Fixpoint tryCatch {A : Type} (p : Prog A) (h : JSError -> Prog A) : Prog A :=
  match p with
  | Ret a => Ret a
  | Throw e => h e
  | Vis op k => Vis op (fun x => tryCatch (k x) h)
  end.

(** An operation without failure. *)
Definition perform {X : Type} (op : Op X) : Prog X := Vis op Ret.

(** [await] of an operation that may reject. *)
Definition await {X : Type} (op : Op (Completion X)) : Prog X :=
  Vis op (fun c => match c with
                   | Normal x => Ret x
                   | Thrown e => Throw e
                   end).

(** A completion that is already known. *)
Definition complete {X : Type} (c : Completion X) : Prog X :=
  match c with
  | Normal x => Ret x
  | Thrown e => Throw e
  end.

Declare Scope prog_scope.
Delimit Scope prog_scope with prog.
Notation "x <- p ;; q" := (bind p (fun x => q))
  (at level 61, p at next level, right associativity) : prog_scope.
Notation "p ;; q" := (bind p (fun _ => q))
  (at level 61, right associativity) : prog_scope.
Open Scope prog_scope.

(** The platform: how each operation is answered, given the events so far
    (most recent first). *)
Record World : Type := mkWorld {
  answer : forall X : Type, Op X -> list Event -> X
}.

(** Runs a program: the trace of its operations in order, and its
    completion. *)
Fixpoint run {A : Type} (w : World) (past : list Event) (p : Prog A)
  : list Event * Completion A :=
  match p with
  | Ret a => ([], Normal a)
  | Throw e => ([], Thrown e)
  | Vis op k =>
      let x := answer w _ op past in
      let r := run w (eventOf op x :: past) (k x) in
      (eventOf op x :: fst r, snd r)
  end.

Definition traceOf {A : Type} (w : World) (p : Prog A) : list Event :=
  fst (run w [] p).

Definition completionOf {A : Type} (w : World) (p : Prog A) : Completion A :=
  snd (run w [] p).

(** ** The schema constructors the repository uses

    A model of the zod library, after its documented behaviour, for the
    constructors that occur in lib/package: [z.string()],
    [z.number()], [z.number().int().nonnegative()], [z.boolean()],
    [z.null()], [.optional()], [z.array(..)] and
    [z.object(..)], the last in zod's default mode, which drops the keys the
    shape does not name.  The text of [error.message] (zod prints the issue
    list as indented JSON) is abstracted to one line per issue. *)
Module Zod.

#[warnings="-register-all"]
Inductive Def : Type :=
| ZString
| ZNumber
| ZNonnegativeInt
| ZBoolean
| ZNull
| ZOptional (inner : Def)
| ZArray (element : Def)
| ZObject (shape : JSObject.t Def).

Definition typeName (v : JSValue) : string :=
  match v with
  | VUndefined => "undefined"
  | VNull => "null"
  | VBool _ => "boolean"
  | VNum _ => "number"
  | VStr _ => "string"
  | VArr _ => "array"
  | VObj _ => "object"
  end.

Definition mismatch (expected : string) (v : JSValue) : list ZodIssue :=
  match v with
  | VUndefined => [mkIssue [] "Required"]
  | _ => [mkIssue [] ("Expected " ++ expected ++ ", received " ++ typeName v)]
  end.

Definition under (k : string) (i : ZodIssue) : ZodIssue :=
  mkIssue (k :: issue_path i) (issue_message i).

(** The outcome of parsing one value: the issues found, and the output (which
    counts only when there is no issue). *)
Definition Outcome : Type := (list ZodIssue * JSValue)%type.

Fixpoint parseItems (f : JSValue -> Outcome) (i : nat) (items : list JSValue)
  : list ZodIssue * list JSValue :=
  match items with
  | [] => ([], [])
  | v :: rest =>
      let r := f v in
      let rs := parseItems f (S i) rest in
      ((map (under (Str.ofZ (Z.of_nat i))) (fst r) ++ fst rs)%list,
       snd r :: snd rs)
  end.

Fixpoint run (d : Def) (v : JSValue) : Outcome :=
  match d with
  | ZString =>
      match v with VStr _ => ([], v) | _ => (mismatch "string" v, v) end
  | ZNumber =>
      match v with VNum _ => ([], v) | _ => (mismatch "number" v, v) end
  | ZNonnegativeInt =>
      match v with
      | VNum n =>
          if (0 <=? n)%Z then ([], v)
          else ([mkIssue [] "Number must be greater than or equal to 0"], v)
      | _ => (mismatch "number" v, v)
      end
  | ZBoolean =>
      match v with VBool _ => ([], v) | _ => (mismatch "boolean" v, v) end
  | ZNull =>
      match v with VNull => ([], v) | _ => (mismatch "null" v, v) end
  | ZOptional inner =>
      match v with VUndefined => ([], VUndefined) | _ => run inner v end
  | ZArray element =>
      match v with
      | VArr items =>
          let r := parseItems (run element) 0 items in (fst r, VArr (snd r))
      | _ => (mismatch "array" v, v)
      end
  | ZObject shape =>
      match v with
      | VObj props =>
          let field (kd : string * Def) : string * Outcome :=
            (fst kd,
             run (snd kd)
               (match JSObject.get (fst kd) props with
                | Some x => x
                | None => VUndefined
                end)) in
          let fields := map field shape in
          let issues :=
            flat_map (fun kr => map (under (fst kr)) (fst (snd kr))) fields in
          let keep (o : JSObject.t JSValue) (kr : string * Outcome) :=
            let present :=
              match JSObject.get (fst kr) props with
              | Some _ => true
              | None => false
              end in
            let defined :=
              match snd (snd kr) with VUndefined => false | _ => true end in
            if negb (String.eqb (fst kr) "__proto__") && (defined || present)
            then JSObject.define (fst kr) (snd (snd kr)) o
            else o in
          (issues, VObj (fold_left keep fields []))
      | _ => (mismatch "object" v, v)
      end
  end.

Definition render (i : ZodIssue) : string :=
  Str.join "." (issue_path i) ++ ": " ++ issue_message i.

Definition safeParse (d : Def) (v : JSValue) : SafeParseResult :=
  match run d v with
  | ([], data) => ParseSuccess data
  | (issues, _) =>
      ParseFailure (mkZodError (Str.join "; " (map render issues)) issues)
  end.

(** The schema as the code sees it. *)
Definition type (d : Def) : ZodType := mkZodType (safeParse d).

End Zod.

(* ================================================================== *)
(** * lib/package/helpers/iamRequest.ts *)
(* ================================================================== *)

(** [x || ""] *)
Definition orEmpty (x : option string) : string :=
  if truthyStr x then match x with Some s => s | None => EmptyString end
  else EmptyString.

Section IamRequest.

Variable env : ProcessEnv.

Definition getSSOCredentials : Prog Credentials :=
  if negb (truthyStr (env "AWS_PROFILE")) then
    let message :=
      "AWS_PROFILE is not set, possibly not using SSO or not logged in" in
    perform (ConsoleError (mkLog message LogNothing)) ;;
    Throw (ErrorObj message)
  else
    await (FromSSO (orEmpty (env "AWS_PROFILE"))).

Definition signRequest (request : HttpRequest) : Prog HttpRequest :=
  let credentials :=
    {| accessKeyId := env "AWS_ACCESS_KEY_ID";
       secretAccessKey := env "AWS_SECRET_ACCESS_KEY";
       sessionToken := env "AWS_SESSION_TOKEN" |} in
  credentials <-
    (if negb (truthyStr (accessKeyId credentials)) ||
        negb (truthyStr (secretAccessKey credentials))
     then getSSOCredentials
     else Ret credentials) ;;
  let v4 :=
    {| sig_service := "execute-api";
       sig_region := orEmpty (env "AWS_DEFAULT_REGION");
       sig_credentials := credentials |} in
  await (SignatureV4Sign v4 request).

(** [reqUrl.search = qs; reqUrl.search]: the URL keeps the serialized
    parameters as its query and gives them back after a question mark, or
    gives the empty string when there are none. *)
Definition urlSearch (qs : string) : string :=
  if String.eqb qs EmptyString then EmptyString else "?" ++ qs.

Definition makeIAMRequest (args : IAMRequestArgs) : Prog Response :=
  let fnName := "makeIAMRequest" in
  tryCatch
    (perform (ConsoleInfo (mkLog (fnName ++ " args") (LogArgs args))) ;;
     if String.eqb (args_domain args) EmptyString
     then Throw (ErrorObj "No domain provided")
     else
     if String.eqb (args_path args) EmptyString
     then Throw (ErrorObj "No path provided")
     else
     let cleanDomain := Str.replace "https://" EmptyString (args_domain args) in
     let domain :=
       if Str.endsWithSlash cleanDomain then Str.dropLast cleanDomain
       else cleanDomain in
     url <- await (NewURL ("https://" ++ domain ++ "/" ++ args_path args)) ;;
     let request :=
       {| req_hostname := url_host url;
          req_method := (if truthyStr (args_method args)
                         then orEmpty (args_method args) else "GET");
          req_headers :=
            JSObject.spread
              (JSObject.define "sourceFn"
                 (orEmpty (env "AWS_LAMBDA_FUNCTION_NAME"))
                 (JSObject.spread
                    [("host", url_host url)]
                    (if truthyStr (args_body args)
                     then [("Content-Type", "application/json")]
                     else [])))
              (match args_headers args with Some h => h | None => [] end);
          req_path := url_pathname url;
          req_body := args_body args;
          req_query := args_query args |} in
     perform (ConsoleInfo (mkLog (fnName ++ " request")
                             (LogHttpRequest request))) ;;
     signedRequest <- signRequest request ;;
     reqUrl <- await (NewURL (url_href url)) ;;
     qs <- perform (URLSearchParamsToString (args_query args)) ;;
     res <- await (Fetch (url_href url ++ urlSearch qs) signedRequest) ;;
     if negb (res_ok res) then
       let allowedStatusCodes :=
         match args_allowedStatusCodes args with
         | Some codes => codes
         | None => [404%Z]
         end in
       if negb (existsb (Z.eqb (res_status res)) allowedStatusCodes) then
         text <- complete (res_text res) ;;
         Throw (ErrorObj
                  ("Error making IAM request - status: "
                   ++ Str.ofZ (res_status res)
                   ++ " (" ++ res_statusText res ++ "), reason: " ++ text))
       else Ret res
     else Ret res)
    (fun e =>
       perform (ConsoleError (mkLog "Error making IAM request"
                                (LogRequestFailure e args))) ;;
       Throw e).

End IamRequest.

(* ================================================================== *)
(** * lib/package/helpers/endpoints.ts *)
(* ================================================================== *)

(** ** The regular expression [/\{([^}]+)\}/g] *)
Module ParamRegex.

(** [[^}]+\}] is greedy but cannot cross a closing brace: the characters up
    to the first closing brace, and the text after that brace. *)
Fixpoint untilClose (s : string) : option (string * string) :=
  match s with
  | EmptyString => None
  | String c s' =>
      if Ascii.eqb c "}" then Some (EmptyString, s')
      else match untilClose s' with
           | Some (name, rest) => Some (String c name, rest)
           | None => None
           end
  end.

(** A match that starts at the first character: the captured group and the
    text after the match. *)
Definition matchHere (s : string) : option (string * string) :=
  match s with
  | String c s' =>
      if Ascii.eqb c "{" then
        match untilClose s' with
        | Some (String c1 name, rest) => Some (String c1 name, rest)
        | _ => None
        end
      else None
  | EmptyString => None
  end.

(** The loop [while ((match = paramRegex.exec(path)) !== null)]: group 1 of
    the successive matches, each search starting where the last match
    ended.  Every round consumes a character, so [fuel] as large as the
    text is enough. *)
Fixpoint execAll (fuel : nat) (s : string) : list string :=
  match fuel with
  | O => []
  | S f =>
      match matchHere s with
      | Some (name, rest) => name :: execAll f rest
      | None =>
          match s with
          | EmptyString => []
          | String _ s' => execAll f s'
          end
      end
  end.

Definition captures (path : string) : list string :=
  execAll (S (String.length path)) path.

End ParamRegex.

(** Given a path string like "/users/{userId}/posts/{postId}", returns the
    shape of the Zod object schema for the path parameters
    ([z.object(params)]). *)
Definition zodPathParametersSchema (path : string) : Zod.Def :=
  Zod.ZObject
    (fold_left (fun params name => JSObject.set name Zod.ZString params)
       (ParamRegex.captures path) []).

(** An endpoint's pure configuration (shared by client and server). *)
Record ApiEndpointDefinition : Type := mkEndpoint {
  ep_path : string;
  ep_method : HttpMethod;
  ep_description : option string;
  ep_requestSchema : option ZodType;
  ep_responseSchema : option ZodType
}.

(** The [endpoint] of the builder that [defineZodEndpoint] returns. *)
Definition defineZodEndpoint (path : string) (method : HttpMethod)
  (request response : ZodType) (description : option string)
  : ApiEndpointDefinition :=
  {| ep_path := path;
     ep_method := method;
     ep_description := description;
     ep_requestSchema := Some request;
     ep_responseSchema := Some response |}.

(** The parameter object of a generated client function; an absent [body] is
    [VUndefined]. *)
Record ClientParams : Type := mkParams {
  p_body : JSValue;
  p_headers : option Headers;
  p_pathParameters : option (JSObject.t string);
  p_query : option Query
}.

Definition buildClientFunction (domain : string)
  (endpoint : ApiEndpointDefinition) (key : string) (params : ClientParams)
  : Prog JSValue :=
  (* Validate body with Zod if schema is provided and body exists *)
  match ep_requestSchema endpoint with
  | Some requestSchema =>
      if truthy (p_body params) then
        match safeParse requestSchema (p_body params) with
        | ParseFailure error =>
            let errorMessage :=
              "Validation error in apiClient." ++ key ++ ": "
              ++ zod_message error in
            perform (ConsoleError
                       (mkLog errorMessage
                          (LogRequestValidation (zod_errors error)
                             (p_body params)))) ;;
            Throw (ErrorObj errorMessage)
        | ParseSuccess _ => Ret tt
        end
      else Ret tt
  | None => Ret tt
  end ;;
  (* Build the URL by replacing the parameters. *)
  let url := ep_path endpoint in
  let url := if Str.startsWith "/" url then url else "/" ++ url in
  let url :=
    fold_left
      (fun url entry =>
         Str.replace ("{" ++ fst entry ++ "}")
           (encodeURIComponent (snd entry)) url)
      (match p_pathParameters params with Some o => o | None => [] end)
      url in
  start <- perform DateGetTime ;;
  response <- await (IamRequest
    {| args_domain := domain;
       args_method := Some (methodName (ep_method endpoint));
       args_headers := p_headers params;
       args_path := url;
       args_query := p_query params;
       args_body := (if truthy (p_body params)
                     then JSON.stringify (p_body params) else None);
       args_allowedStatusCodes := None |}) ;;
  (* Validate response with Zod if schema is provided *)
  match ep_responseSchema endpoint with
  | Some responseSchema =>
      match safeParse responseSchema response with
      | ParseFailure error =>
          let errorMessage :=
            "Response validation error in apiClient." ++ key ++ ": "
            ++ zod_message error in
          (* We don't throw here, just log the error *)
          perform (ConsoleError
                     (mkLog errorMessage
                        (LogResponseValidation (zod_errors error) response)))
      | ParseSuccess _ => Ret tt
      end
  | None => Ret tt
  end ;;
  end_ <- perform DateGetTime ;;
  perform (ConsoleInfo
             (mkLog ("apiClient." ++ key)
                (LogInvocation (end_ - start)%Z (ep_method endpoint)
                   (domain ++ url)))) ;;
  Ret response.

(** A generated client function with the metadata attached to it. *)
Record ClientFunction : Type := mkClientFunction {
  fn_call : ClientParams -> Prog JSValue;
  fn_description : option string;
  fn_endpointName : string;
  fn_requestSchema : option ZodType;
  fn_responseSchema : option ZodType;
  fn_pathParametersSchema : Zod.Def
}.

Definition createApiClient (endpoints : JSObject.t ApiEndpointDefinition)
  (baseUrl : string) : JSObject.t ClientFunction :=
  fold_left
    (fun client entry =>
       let key := fst entry in
       let endpoint := snd entry in
       JSObject.set key
         {| fn_call := buildClientFunction baseUrl endpoint key;
            fn_description := ep_description endpoint;
            fn_endpointName := key;
            fn_requestSchema := ep_requestSchema endpoint;
            fn_responseSchema := ep_responseSchema endpoint;
            fn_pathParametersSchema :=
              zodPathParametersSchema (ep_path endpoint) |}
         client)
    endpoints [].

(* ================================================================== *)
(** * lib/package/helpers/initApiHandler.ts *)
(* ================================================================== *)

Record APIGatewayEvent : Type := mkEvent {
  event_body : option string;
  event_headers : option Headers;
  event_httpMethod : string;
  event_path : string;
  event_pathParameters : option (JSObject.t string);
  event_queryStringParameters : option (JSObject.t string)
}.

(** The argument bundle of an [ApiHandler]. *)
Record HandlerArgs : Type := mkHandlerArgs {
  h_event : APIGatewayEvent;
  h_body : JSValue;
  h_headers : Headers;
  h_method : string;
  h_path : string;
  h_pathParameters : JSObject.t string;
  h_queryStringParameters : JSObject.t string
}.

(** What an [ApiHandler] resolves to. *)
Record HandlerOutput : Type := mkOutput {
  out_data : JSValue;
  out_headers : option Headers;
  out_statusCode : option Z
}.

(** What the wrapped Lambda handler returns.  [resp_body] is [None] when the
    body is [undefined]. *)
Record LambdaResponse : Type := mkLambdaResponse {
  resp_body : option string;
  resp_headers : option Headers;
  resp_statusCode : Z
}.

Definition ApiHandler : Type := HandlerArgs -> Prog HandlerOutput.

(** How a block ends: with a [return], or by reaching its end. *)
Inductive Flow (R S : Type) : Type :=
| Returns (r : R)
| FallsThrough (s : S).
Arguments Returns {R S} r.
Arguments FallsThrough {R S} s.

(** [obj || {}] *)
Definition orEmptyObject {V : Type} (o : option (JSObject.t V))
  : JSObject.t V :=
  match o with Some x => x | None => [] end.

(** [statusCode || 200] *)
Definition orDefaultStatus (statusCode : option Z) : Z :=
  match statusCode with
  | Some n => if (n =? 0)%Z then 200%Z else n
  | None => 200%Z
  end.

(** The first statements of the [try] block: the body is JSON-decoded when
    there is one (an empty object otherwise), and validated against the input
    schema if one is provided and a body is present. *)
Definition validatedInput (inputSchema : option ZodType)
  (event : APIGatewayEvent) : Completion JSValue :=
  match (if truthyStr (event_body event)
         then JSON.parse (orEmpty (event_body event))
         else Normal (VObj [])) with
  | Normal body =>
      (* Validate input against schema if enabled and provided *)
      match inputSchema with
      | Some schema =>
          if truthyStr (event_body event) then parse schema body
          else Normal body
      | None => Normal body
      end
  | Thrown e => Thrown e
  end.

(** The argument object of the call [apiHandler({ ... })]. *)
Definition handlerArgs (event : APIGatewayEvent) (input : JSValue)
  : HandlerArgs :=
  let headers := orEmptyObject (event_headers event) in
  {| h_event := event;
     h_body := input;
     h_headers := headers;
     h_method := event_httpMethod event;
     h_path := event_path event;
     h_pathParameters := orEmptyObject (event_pathParameters event);
     h_queryStringParameters :=
       orEmptyObject (event_queryStringParameters event) |}.

(** The [try] block yields the [return] of its inner [catch], or falls
    through with the value of the variable [handlerOutput].  The outer
    [catch] can only be entered before [handlerOutput] is assigned (after the
    assignment the only statement is the inner [try]), so it falls through
    with [handlerOutput] undefined. *)
Definition initApiHandler (apiHandler : ApiHandler)
  (inputSchema outputSchema : option ZodType)
  (event : APIGatewayEvent) : Prog LambdaResponse :=
  flow <-
    tryCatch
      (input <- complete (validatedInput inputSchema event) ;;
       handlerOutput <- apiHandler (handlerArgs event input) ;;
       (* Validate output against schema if enabled, provided, and data is
          not a string *)
       match outputSchema with
       | Some schema =>
           if negb (isString (out_data handlerOutput)) then
             match parse schema (out_data handlerOutput) with
             | Normal data =>
                 Ret (FallsThrough
                        (Some {| out_data := data;
                                 out_headers := out_headers handlerOutput;
                                 out_statusCode :=
                                   out_statusCode handlerOutput |}))
             | Thrown err =>
                 Ret (Returns {| resp_statusCode := 500;
                                 resp_body := Some "Internal server error";
                                 resp_headers := None |})
             end
           else Ret (FallsThrough (Some handlerOutput))
       | None => Ret (FallsThrough (Some handlerOutput))
       end)
      (fun err =>
         perform (ConsoleError (mkLog "Error in API handler:"
                                  (LogHandlerFailure err))) ;;
         Ret (FallsThrough None)) ;;
  match flow with
  | Returns response => Ret response
  | FallsThrough None =>
      Ret {| resp_statusCode := 500;
             resp_body := Some "Unknown error";
             resp_headers := None |}
  | FallsThrough (Some handlerOutput) =>
      Ret {| resp_body :=
               (match out_data handlerOutput with
                | VStr s => Some s
                | data => JSON.stringify data
                end);
             resp_headers := out_headers handlerOutput;
             resp_statusCode := orDefaultStatus (out_statusCode handlerOutput) |}
  end.

(* ================================================================== *)
(** * lib/package/interfaces and lib/package/client/endpoints.ts *)
(* ================================================================== *)

Module Registry.

Import Zod.

(** interfaces/Rescue.ts *)
Definition rescueSchema : Def :=
  ZObject [("hero", ZString); ("location", ZString);
           ("date", ZOptional ZString); ("description", ZOptional ZString);
           ("details", ZOptional ZString)].

(** interfaces/Hero.ts *)
Definition heroSchema : Def :=
  ZObject [("name", ZString); ("alias", ZOptional ZString);
           ("powers", ZArray ZString);
           ("weaknesses", ZOptional (ZArray ZString));
           ("active", ZBoolean); ("rescues", ZOptional ZNonnegativeInt)].

(** interfaces/AddRescueRequest.ts *)
Definition AddRescueRequestSchema : Def := rescueSchema.

(** interfaces/AddRescueResponse.ts *)
Definition AddRescueResponseSchema : Def :=
  ZObject [("rescue", rescueSchema); ("hero", ZOptional heroSchema);
           ("success", ZOptional ZBoolean); ("message", ZOptional ZString);
           ("error", ZOptional ZString)].

(** interfaces/ListHeroRescues.ts *)
Definition ListHeroRescuesResponseSchema : Def :=
  ZObject [("rescues", ZArray rescueSchema)].

(** interfaces/AddHeroRequest.ts: [heroSchema.omit({ rescues: true })] *)
Definition AddHeroRequestSchema : Def :=
  ZObject [("name", ZString); ("alias", ZOptional ZString);
           ("powers", ZArray ZString);
           ("weaknesses", ZOptional (ZArray ZString));
           ("active", ZBoolean)].

(** interfaces/AddHeroResponse.ts *)
Definition AddHeroResponseSchema : Def :=
  ZObject [("hero", heroSchema); ("success", ZOptional ZBoolean);
           ("message", ZOptional ZString); ("error", ZOptional ZString)].

(** client/endpoints.ts *)
Definition listHeroRescues : ApiEndpointDefinition :=
  defineZodEndpoint "/heroes/{hero}/rescues" GET
    (type ZNull) (type ListHeroRescuesResponseSchema)
    (Some "Get a list of rescues performed by a specific hero. The hero is specified in the path parameter.").

Definition addHero : ApiEndpointDefinition :=
  defineZodEndpoint "/heroes" POST
    (type AddHeroRequestSchema) (type AddHeroResponseSchema)
    (Some "Add a new hero to the system. The hero details are provided in the request body.").

Definition addRescue : ApiEndpointDefinition :=
  defineZodEndpoint "/heroes/{hero}/rescues" POST
    (type AddRescueRequestSchema) (type AddRescueResponseSchema)
    (Some "Add a rescue performed by a specific hero. The hero is specified in the path parameter, and the rescue details are provided in the request body.").

(** client/client.ts *)
Definition region : string := "us-east-1".

Definition baseUrl (apiId : string) : string :=
  "https://" ++ apiId ++ ".execute-api." ++ region ++ ".amazonaws.com/prod".

End Registry.

(* ================================================================== *)
(** * Observing a run *)
(* ================================================================== *)

(** The arguments of the calls to [iamRequest], in order. *)
Definition iamRequestCalls (trace : list Event) : list IAMRequestArgs :=
  flat_map (fun e => match e with
                     | EvIamRequest args _ => [args]
                     | _ => []
                     end) trace.

(** The requests handed to the signer, with the signer's configuration. *)
Definition signCalls (trace : list Event)
  : list (SignatureV4Init * HttpRequest) :=
  flat_map (fun e => match e with
                     | EvSignatureV4Sign init request _ => [(init, request)]
                     | _ => []
                     end) trace.

(** The calls to [fetch]. *)
Definition fetchCalls (trace : list Event) : list (string * HttpRequest) :=
  flat_map (fun e => match e with
                     | EvFetch url init _ => [(url, init)]
                     | _ => []
                     end) trace.

(** The operations that build, sign or send a request. *)
Definition touchesNetwork (e : Event) : bool :=
  match e with
  | EvIamRequest _ _ | EvFromSSO _ _ | EvSignatureV4Sign _ _ _
  | EvNewURL _ _ | EvURLSearchParamsToString _ _ | EvFetch _ _ _ => true
  | EvConsoleInfo _ | EvConsoleError _ | EvDateGetTime _ => false
  end.

(** A platform given by one function per operation. *)
Record Platform : Type := mkPlatform {
  pf_now : Z;
  pf_iamRequest : IAMRequestArgs -> Completion JSValue;
  pf_fromSSO : string -> Completion Credentials;
  pf_sign : SignatureV4Init -> HttpRequest -> Completion HttpRequest;
  pf_newURL : string -> Completion URL;
  pf_searchParams : option Query -> string;
  pf_fetch : string -> HttpRequest -> Completion Response
}.

Definition worldOf (pf : Platform) : World :=
  mkWorld (fun X op _ =>
    match op in Op X return X with
    | ConsoleInfo _ => tt
    | ConsoleError _ => tt
    | DateGetTime => pf_now pf
    | IamRequest args => pf_iamRequest pf args
    | FromSSO profile => pf_fromSSO pf profile
    | SignatureV4Sign init request => pf_sign pf init request
    | NewURL href => pf_newURL pf href
    | URLSearchParamsToString query => pf_searchParams pf query
    | Fetch url init => pf_fetch pf url init
    end).

(* ================================================================== *)
(** * Sample inputs *)
(* ================================================================== *)

Module Sample.

(** A search endpoint served with GET. *)
Definition searchByCity : ApiEndpointDefinition :=
  defineZodEndpoint "/heroes/search" GET
    (Zod.type (Zod.ZObject [("city", Zod.ZOptional Zod.ZString)]))
    (Zod.type (Zod.ZObject [("heroes", Zod.ZArray Registry.heroSchema)]))
    None.

Definition metropolis : JSValue := VObj [("city", VStr "Metropolis")].

Definition superman : JSValue :=
  VObj [("name", VStr "Superman"); ("powers", VArr [VStr "flight"]);
        ("active", VBool true)].

Definition noHeroes : JSValue := VObj [("heroes", VArr [])].

Definition host : string := "abc123.execute-api.us-east-1.amazonaws.com".

Definition domain : string := Registry.baseUrl "abc123".

Definition response (status : Z) (statusText text : string) : Response :=
  {| res_status := status; res_statusText := statusText;
     res_text := Normal text |}.

(** A platform whose service answers every request with [answer] and whose
    transport answers every fetch with [res]; as fetch does, it refuses a GET
    or HEAD request that has a body. *)
Definition platform (answer : JSValue) (res : Response) : Platform :=
  {| pf_now := 1700000000000;
     pf_iamRequest := fun _ => Normal answer;
     pf_fromSSO := fun _ =>
       Normal {| accessKeyId := Some "ASIASSO"; secretAccessKey := Some "sso";
                 sessionToken := Some "token" |};
     pf_sign := fun _ request =>
       Normal {| req_hostname := req_hostname request;
                 req_method := req_method request;
                 req_headers :=
                   JSObject.define "authorization" "AWS4-HMAC-SHA256"
                     (req_headers request);
                 req_path := req_path request;
                 req_body := req_body request;
                 req_query := req_query request |};
     pf_newURL := fun href =>
       Normal {| url_host := host; url_pathname := "/prod//heroes";
                 url_href := href |};
     pf_searchParams := fun _ => EmptyString;
     pf_fetch := fun _ init =>
       if (String.eqb (req_method init) "GET"
           || String.eqb (req_method init) "HEAD")
          && match req_body init with Some _ => true | None => false end
       then Thrown (PlatformError "TypeError"
                      "Request with GET/HEAD method cannot have body.")
       else Normal res |}.

Definition world (answer : JSValue) (res : Response) : World :=
  worldOf (platform answer res).

(** Static credentials, no region. *)
Definition staticEnv : ProcessEnv :=
  fun name =>
    if String.eqb name "AWS_ACCESS_KEY_ID" then Some "AKIAEXAMPLE"
    else if String.eqb name "AWS_SECRET_ACCESS_KEY" then Some "secret"
    else None.

(** Static credentials and a region. *)
Definition regionEnv : ProcessEnv :=
  fun name =>
    if String.eqb name "AWS_DEFAULT_REGION" then Some "eu-west-1"
    else staticEnv name.

Definition params (body : JSValue) (pathParameters : JSObject.t string)
  : ClientParams :=
  {| p_body := body; p_headers := None;
     p_pathParameters := Some pathParameters; p_query := None |}.

Definition iamArgs (allowed : option (list Z)) : IAMRequestArgs :=
  {| args_body := None; args_domain := domain; args_headers := None;
     args_method := Some "GET"; args_path := "/heroes";
     args_query := None; args_allowedStatusCodes := allowed |}.

(** An inbound GET without a body. *)
Definition event : APIGatewayEvent :=
  {| event_body := None; event_headers := None; event_httpMethod := "GET";
     event_path := "/heroes/Superman/rescues";
     event_pathParameters := Some [("hero", "Superman")];
     event_queryStringParameters := None |}.

(** A handler that resolves to [out] whatever it is given. *)
Definition handler (out : HandlerOutput) : ApiHandler := fun _ => Ret out.

(** A rescue as the table holds it, with its keys. *)
Definition storedRescue : JSValue :=
  VObj [("hero", VStr "Superman"); ("location", VStr "Metropolis");
        ("pk", VStr "RESCUE")].

Definition rescue : JSValue :=
  VObj [("hero", VStr "Superman"); ("location", VStr "Metropolis")].

(** An endpoint whose template names a parameter twice. *)
Definition compareHero : ApiEndpointDefinition :=
  defineZodEndpoint "/heroes/{hero}/allies/{hero}" GET
    (Zod.type Zod.ZNull) (Zod.type Registry.ListHeroRescuesResponseSchema)
    None.

End Sample.

(* ================================================================== *)
(** * The words of the specification *)
(* ================================================================== *)

(** "The unique token names, order-preserving on first occurrence": each
    name is kept where it first occurs and its later occurrences are
    dropped. *)
Fixpoint uniqueFirst (names : list string) : list string :=
  match names with
  | [] => []
  | name :: rest =>
      name :: filter (fun other => negb (String.eqb other name))
                (uniqueFirst rest)
  end.

(** "Each mapped to a required string parameter". *)
Definition requiredStrings (names : list string) : JSObject.t Zod.Def :=
  map (fun name => (name, Zod.ZString)) names.

(** The keys [ks] after a key [k] is met: it is added at the end unless it
    is there already. *)
Definition addKey (ks : list string) (k : string) : list string :=
  if existsb (String.eqb k) ks then ks else (ks ++ [k])%list.

(* ================================================================== *)
(** * What the wrapper and the transport log and answer *)
(* ================================================================== *)

(** The response of [initApiHandler] when its [try] block threw before the
    handler had an output. *)
Definition unknownError : LambdaResponse :=
  {| resp_body := Some "Unknown error"; resp_headers := None;
     resp_statusCode := 500 |}.

(** The entry [initApiHandler] logs for an error it caught. *)
Definition handlerFailureLog (err : JSError) : Event :=
  EvConsoleError (mkLog "Error in API handler:" (LogHandlerFailure err)).

(** The entry [makeIAMRequest] logs before it throws [e] again. *)
Definition requestFailureLog (e : JSError) (args : IAMRequestArgs) : Event :=
  EvConsoleError (mkLog "Error making IAM request" (LogRequestFailure e args)).

Definition isConsoleError (e : Event) : bool :=
  match e with EvConsoleError _ => true | _ => false end.

(** The credentials that [signRequest] reads from the environment. *)
Definition staticCredentials (env : ProcessEnv) : Credentials :=
  {| accessKeyId := env "AWS_ACCESS_KEY_ID";
     secretAccessKey := env "AWS_SECRET_ACCESS_KEY";
     sessionToken := env "AWS_SESSION_TOKEN" |}.

(** Both the access key id and the secret access key are set and not
    empty. *)
Definition hasStaticCredentials (env : ProcessEnv) : bool :=
  truthyStr (env "AWS_ACCESS_KEY_ID") && truthyStr (env "AWS_SECRET_ACCESS_KEY").

(** The configuration [signRequest] gives the signer for [credentials]. *)
Definition signerInit (env : ProcessEnv) (credentials : Credentials)
  : SignatureV4Init :=
  {| sig_service := "execute-api";
     sig_region := orEmpty (env "AWS_DEFAULT_REGION");
     sig_credentials := credentials |}.

(** The hrefs given to [new URL(...)], in order. *)
Definition urlCalls (trace : list Event) : list string :=
  flat_map (fun e => match e with
                     | EvNewURL href _ => [href]
                     | _ => []
                     end) trace.

(** [s.includes(c)] for a character [c] *)
Fixpoint hasChar (c : ascii) (s : string) : bool :=
  match s with
  | EmptyString => false
  | String c' s' => Ascii.eqb c c' || hasChar c s'
  end.

(** The arguments [args] with another [domain]. *)
Definition withDomain (domain : string) (args : IAMRequestArgs)
  : IAMRequestArgs :=
  {| args_body := args_body args; args_domain := domain;
     args_headers := args_headers args; args_method := args_method args;
     args_path := args_path args; args_query := args_query args;
     args_allowedStatusCodes := args_allowedStatusCodes args |}.

(** The headers of the request that [makeIAMRequest] builds for the host
    [host]: the object literal with its two spreads. *)
Definition requestHeaders (env : ProcessEnv) (args : IAMRequestArgs)
  (host : string) : Headers :=
  JSObject.spread
    (JSObject.define "sourceFn" (orEmpty (env "AWS_LAMBDA_FUNCTION_NAME"))
       (JSObject.spread [("host", host)]
          (if truthyStr (args_body args)
           then [("Content-Type", "application/json")]
           else [])))
    (match args_headers args with Some h => h | None => [] end).

(* ================================================================== *)
(** * Path templates *)
(* ================================================================== *)

Module Template.

(** A path template cut into literal text and placeholders. *)
Inductive Piece : Type :=
| Lit (text : string)
| Hole (name : string).

Definition pieceText (p : Piece) : string :=
  match p with
  | Lit text => text
  | Hole name => "{" ++ name ++ "}"
  end.

(** The path that the pieces spell. *)
Fixpoint pathOf (ps : list Piece) : string :=
  match ps with
  | [] => EmptyString
  | p :: ps' => pieceText p ++ pathOf ps'
  end.

(** The placeholder names, in order. *)
Fixpoint holes (ps : list Piece) : list string :=
  match ps with
  | [] => []
  | Lit _ :: ps' => holes ps'
  | Hole name :: ps' => name :: holes ps'
  end.

(** Literal text has no opening brace; a placeholder name is not empty and
    has no brace. *)
Definition wellFormedPiece (p : Piece) : bool :=
  match p with
  | Lit text => negb (hasChar "{" text)
  | Hole name =>
      negb (String.eqb name EmptyString)
      && negb (hasChar "{" name) && negb (hasChar "}" name)
  end.

(** The first placeholder named [k] becomes the text [v]. *)
Fixpoint fillFirst (k v : string) (ps : list Piece) : list Piece :=
  match ps with
  | [] => []
  | Lit text :: ps' => Lit text :: fillFirst k v ps'
  | Hole name :: ps' =>
      if String.eqb name k then Lit v :: ps'
      else Hole name :: fillFirst k v ps'
  end.

(** A placeholder named [k] becomes the text [v]. *)
Definition fillOne (k v : string) (p : Piece) : Piece :=
  match p with
  | Lit text => Lit text
  | Hole name => if String.eqb name k then Lit v else Hole name
  end.

(** Each placeholder that has a value among [params] becomes that value,
    URL-escaped; the others stay. *)
Definition fill (params : JSObject.t string) (p : Piece) : Piece :=
  match p with
  | Lit text => Lit text
  | Hole name =>
      match JSObject.get name params with
      | Some v => Lit (encodeURIComponent v)
      | None => Hole name
      end
  end.

End Template.

(* ================================================================== *)
(** * The DynamoDB document client of the handlers *)
(* ================================================================== *)

Module Dynamo.

Record TranslateConfig : Type := mkTranslateConfig {
  convertEmptyValues : bool;
  removeUndefinedValues : bool;
  convertClassInstanceToMap : bool;
  wrapNumbers : bool
}.

Definition translateConfig : TranslateConfig :=
  {| convertEmptyValues := false;
     removeUndefinedValues := true;
     convertClassInstanceToMap := true;
     wrapNumbers := false |}.

(** A document client is the object that a constructor call made:
    [client_id] counts the [DynamoDBClient]s constructed before its own. *)
Record DynamoDBDocumentClient : Type := mkDocumentClient {
  client_id : nat;
  client_config : TranslateConfig
}.

(** The state of the module: its variable [cachedDynamoClient], and the
    number of clients constructed so far. *)
Record ModuleState : Type := mkModuleState {
  cachedDynamoClient : option DynamoDBDocumentClient;
  constructed : nat
}.

Definition getDynamoClient (st : ModuleState)
  : ModuleState * DynamoDBDocumentClient :=
  match cachedDynamoClient st with
  | Some cached => (st, cached)
  | None =>
      let client := constructed st in
      let document :=
        {| client_id := client; client_config := translateConfig |} in
      ({| cachedDynamoClient := Some document;
          constructed := S (constructed st) |}, document)
  end.

(** [n] calls in a row: the state they leave and the clients they
    returned. *)
Fixpoint calls (n : nat) (st : ModuleState)
  : ModuleState * list DynamoDBDocumentClient :=
  match n with
  | O => (st, [])
  | S n' =>
      let (st1, client) := getDynamoClient st in
      let (st2, clients) := calls n' st1 in
      (st2, client :: clients)
  end.

End Dynamo.

(* ================================================================== *)
(** * The requests that the handlers make to the table *)
(* ================================================================== *)

(** The own enumerable properties of a value, as [Object.entries] and an
    object spread see them. *)
Module OwnProperties.

(** The elements of [l] under the indices [i], [i + 1], ... *)
Fixpoint indexed {A : Type} (i : nat) (l : list A) : list (string * A) :=
  match l with
  | [] => []
  | a :: l' => (Str.ofZ (Z.of_nat i), a) :: indexed (S i) l'
  end.

Section Strings.

(** The UTF-16 code units of a string, each as a string of its own. *)
Variable codeUnits : string -> list string.

(** The properties of an object, the elements of an array and the code
    units of a string under their indices; a boolean and a number have
    none.  ([Object.entries] throws for [null] and [undefined], which its
    caller below excludes; a spread takes nothing from them.) *)
Definition entries (v : JSValue) : JSObject.t JSValue :=
  match v with
  | VObj o => o
  | VArr l => indexed 0 l
  | VStr s => indexed 0 (map VStr (codeUnits s))
  | _ => []
  end.

End Strings.

End OwnProperties.

(** searchHeroes.ts *)
Module SearchHeroes.

(** The input of the [QueryCommand]; a field that the handler does not set
    is [None]. *)
Record QueryInput : Type := mkQueryInput {
  TableName : option string;
  KeyConditionExpression : string;
  ExpressionAttributeValues : JSObject.t JSValue;
  FilterExpression : option string;
  ExpressionAttributeNames : option (JSObject.t string)
}.

Definition filterOf (key : string) : string :=
  ("#" ++ key) ++ " = " ++ (":" ++ key).

(** One turn of the loop over the entries of the body, on [filters],
    [ExpressionAttributeNames] and [ExpressionAttributeValues]. *)
Definition addFilter
  (acc : list string * JSObject.t string * JSObject.t JSValue)
  (entry : string * JSValue)
  : list string * JSObject.t string * JSObject.t JSValue :=
  let '(filters, names, values) := acc in
  let key := fst entry in
  let value := snd entry in
  ((filters ++ [filterOf key])%list,
   JSObject.set ("#" ++ key) key names,
   JSObject.set (":" ++ key) value values).

(** The query input that the handler builds from the request body. *)
Definition queryInput (codeUnits : string -> list string) (env : ProcessEnv)
  (body : JSValue) : QueryInput :=
  let entries := OwnProperties.entries codeUnits body in
  let initialValues := [(":pk", VStr "HERO")] in
  let '(filterExpression, names, values) :=
    if truthy body && (0 <? length (JSObject.keys entries))%nat then
      let '(filters, names, values) :=
        fold_left addFilter entries ([], [], initialValues) in
      (Some (Str.join " AND " filters), names, values)
    else (None, [], initialValues) in
  {| TableName := env "TABLE_NAME";
     KeyConditionExpression := "pk = :pk";
     ExpressionAttributeValues := values;
     FilterExpression :=
       if truthyStr filterExpression then filterExpression else None;
     ExpressionAttributeNames :=
       if truthyStr filterExpression then Some names else None |}.

End SearchHeroes.

(** addHero.ts *)
Module AddHero.

(** [body.name]: reading a property of [null] or of [undefined] throws; a
    value without the property gives [undefined]. *)
Definition nameOf (body : JSValue) : Completion JSValue :=
  match body with
  | VUndefined =>
      Thrown (PlatformError "TypeError"
                "Cannot read properties of undefined (reading 'name')")
  | VNull =>
      Thrown (PlatformError "TypeError"
                "Cannot read properties of null (reading 'name')")
  | VObj o =>
      Normal (match JSObject.get "name" o with
              | Some v => v
              | None => VUndefined
              end)
  | _ => Normal VUndefined
  end.

(** The [Item] of the [PutCommand], for the time stamp [createdAt]:
    [{ pk: "HERO", sk: body.name, ...body, rescues: 0, createdAt }]. *)
Definition item (codeUnits : string -> list string) (body : JSValue)
  (createdAt : string) : Completion (JSObject.t JSValue) :=
  match nameOf body with
  | Thrown e => Thrown e
  | Normal name =>
      Normal
        (JSObject.define "createdAt" (VStr createdAt)
           (JSObject.define "rescues" (VNum 0)
              (JSObject.spread [("pk", VStr "HERO"); ("sk", name)]
                 (OwnProperties.entries codeUnits body))))
  end.

End AddHero.

(* ================================================================== *)
(** * The resources of the REST API *)
(* ================================================================== *)

Module InternalApi.

(** [s.split("/")] *)
Fixpoint split (s : string) : list string :=
  match s with
  | EmptyString => [EmptyString]
  | String c s' =>
      if Ascii.eqb c "/" then EmptyString :: split s'
      else match split s' with
           | [] => [String c EmptyString]
           | part :: parts => String c part :: parts
           end
  end.

(** [s.lastIndexOf("/")] *)
Fixpoint lastIndexOf (s : string) : Z :=
  match s with
  | EmptyString => (-1)%Z
  | String c s' =>
      if (0 <=? lastIndexOf s')%Z then (lastIndexOf s' + 1)%Z
      else if Ascii.eqb c "/" then 0%Z else (-1)%Z
  end.

Fixpoint take (n : nat) (s : string) : string :=
  match n, s with
  | S n', String c s' => String c (take n' s')
  | _, _ => EmptyString
  end.

(** [s.substring(0, n)]: a negative [n] counts as zero. *)
Definition substring0 (n : Z) (s : string) : string := take (Z.to_nat n) s.

(** The own properties of [Object.prototype], which every object made by
    a literal inherits. *)
Definition objectPrototype : list string :=
  ["constructor"; "__defineGetter__"; "__defineSetter__"; "hasOwnProperty";
   "__lookupGetter__"; "__lookupSetter__"; "isPrototypeOf";
   "propertyIsEnumerable"; "toString"; "valueOf"; "__proto__";
   "toLocaleString"].

(** [path.split("/").filter((pathPart) => !!pathPart)] *)
Definition pathParts (path : string) : list string :=
  filter (fun pathPart => negb (String.eqb pathPart "")) (split path).

(** A part as [pathParts] yields them: not empty and without a slash. *)
Definition plain (part : string) : Prop :=
  part <> EmptyString /\ hasChar "/" part = false.

(** The path that [processLambdaEndpoints] hands to [createEndpointPath]
    and then looks up: the endpoint's path without a leading slash. *)
Definition resourcePath (path : string) : string :=
  if Str.startsWith "/" path then Str.drop 1 path else path.

Section Resources.

(** The resources of the API, the root resource [this.restApi.root] and
    the library's [parent.addResource(pathPart)]. *)
Variable Resource : Type.
Variable root : Resource.
Variable addResource : Resource -> string -> Resource.

(** What [this.resources[key]] evaluates to: a resource stored under the
    key, a member of [Object.prototype], or [undefined]. *)
Inductive Member : Type :=
| Own (resource : Resource)
| Inherited
| Missing.

Definition lookup (key : string) (resources : JSObject.t Resource) : Member :=
  match JSObject.get key resources with
  | Some resource => Own resource
  | None =>
      if existsb (String.eqb key) objectPrototype then Inherited else Missing
  end.

(** One call of the function given to [pathParts.forEach], on the
    variable [currentPath] and on [this.resources]. *)
Definition visit (currentPath : string) (resources : JSObject.t Resource)
  (pathPart : string) (ind : nat)
  : Completion (string * JSObject.t Resource) :=
  if negb (String.eqb pathPart "") then
    if Nat.eqb ind 0 then
      let currentPath := pathPart in
      match lookup currentPath resources with
      | Missing =>
          Normal (currentPath,
                  JSObject.set currentPath (addResource root pathPart)
                    resources)
      | _ => Normal (currentPath, resources)
      end
    else
      let currentPath :=
        currentPath ++ (if negb (Nat.eqb ind 0) then "/" else "") ++ pathPart in
      match lookup currentPath resources with
      | Missing =>
          match lookup (substring0 (lastIndexOf currentPath) currentPath)
                  resources with
          | Own parent =>
              Normal (currentPath,
                      JSObject.set currentPath (addResource parent pathPart)
                        resources)
          | Inherited =>
              Thrown (PlatformError "TypeError"
                        "this.resources[currentPath.substring(...)].addResource is not a function")
          | Missing =>
              Thrown (PlatformError "TypeError"
                        "Cannot read properties of undefined (reading 'addResource')")
          end
      | _ => Normal (currentPath, resources)
      end
  else Normal (currentPath, resources).

(** [pathParts.forEach((pathPart, ind) => ...)] from the index [ind] on. *)
Fixpoint forEach (parts : list string) (ind : nat) (currentPath : string)
  (resources : JSObject.t Resource) : Completion (JSObject.t Resource) :=
  match parts with
  | [] => Normal resources
  | pathPart :: rest =>
      match visit currentPath resources pathPart ind with
      | Normal (currentPath', resources') =>
          forEach rest (S ind) currentPath' resources'
      | Thrown e => Thrown e
      end
  end.

Definition createEndpointPath (path : string)
  (resources : JSObject.t Resource) : Completion (JSObject.t Resource) :=
  forEach (pathParts path) 0 "" resources.

(** The resource that [root.addResource(p1).addResource(p2)...] makes. *)
Definition chain (parts : list string) : Resource :=
  fold_left addResource parts root.

(** Every stored resource is the chain of the parts of its key, and its
    key is those parts joined by slashes. *)
Definition consistent (resources : JSObject.t Resource) : Prop :=
  forall key resource,
    JSObject.get key resources = Some resource ->
    key = Str.join "/" (pathParts key)
    /\ resource = chain (pathParts key).

(** Whatever [before] stores, [after] stores too. *)
Definition kept (before after : JSObject.t Resource) : Prop :=
  forall key resource,
    JSObject.get key before = Some resource ->
    JSObject.get key after = Some resource.

End Resources.

Arguments Own {Resource} resource.
Arguments Inherited {Resource}.
Arguments Missing {Resource}.

End InternalApi.

(* ================================================================== *)
(** * Further sample inputs *)
(* ================================================================== *)

Module Examples.

Definition world : World :=
  Sample.world Sample.noHeroes (Sample.response 200 "OK" "{}").

(** A handler that throws. *)
Definition failing : ApiHandler :=
  fun _ => Throw (ErrorObj "table unavailable").

(** A handler that answers with text. *)
Definition pong : HandlerOutput :=
  {| out_data := VStr "pong"; out_headers := None;
     out_statusCode := Some 202%Z |}.

(** An inbound POST with the body [body]. *)
Definition inbound (body : option string) : APIGatewayEvent :=
  {| event_body := body; event_headers := None;
     event_httpMethod := "POST"; event_path := "/heroes";
     event_pathParameters := None; event_queryStringParameters := None |}.

Definition post (body : string) : APIGatewayEvent := inbound (Some body).

(** A request whose caller sets a content type of its own. *)
Definition textArgs : IAMRequestArgs :=
  {| args_body := Some "{}"; args_domain := Sample.domain;
     args_headers := Some [("Content-Type", "text/plain"); ("x-trace", "1")];
     args_method := Some "POST"; args_path := "heroes";
     args_query := None; args_allowedStatusCodes := None |}.

Definition noArgs : IAMRequestArgs :=
  {| args_body := None; args_domain := EmptyString; args_headers := None;
     args_method := None; args_path := EmptyString; args_query := None;
     args_allowedStatusCodes := None |}.

Definition noRequest : HttpRequest :=
  {| req_hostname := EmptyString; req_method := EmptyString;
     req_headers := []; req_path := EmptyString; req_body := None;
     req_query := None |}.

(** The request that [makeIAMRequest] hands to the signer for
    [textArgs]. *)
Definition signedText : SignatureV4Init * HttpRequest :=
  hd (signerInit Sample.staticEnv (staticCredentials Sample.staticEnv),
      noRequest)
    (signCalls (fst (run world [] (makeIAMRequest Sample.staticEnv textArgs)))).

(** The arguments of the call to [iamRequest] that a client function
    makes. *)
Definition sent (endpoint : ApiEndpointDefinition) (key : string)
  (params : ClientParams) : IAMRequestArgs :=
  hd noArgs
    (iamRequestCalls
       (fst (run world []
               (buildClientFunction Sample.domain endpoint key params)))).

Definition rescuesTemplate : list Template.Piece :=
  [Template.Lit "/heroes/"; Template.Hole "hero"; Template.Lit "/rescues"].

Definition endpoints : JSObject.t ApiEndpointDefinition :=
  [("addHero", Registry.addHero);
   ("listHeroRescues", Registry.listHeroRescues)].

(** A body that names the table's own attributes. *)
Definition intruder : JSValue :=
  VObj [("name", VStr "Flash"); ("pk", VStr "VILLAIN");
        ("rescues", VNum 99)].

(** Resources named by their parts. *)
Definition addPart (parent : list string) (pathPart : string) : list string :=
  (parent ++ [pathPart])%list.

End Examples.


(* ================================================================== *)
(** * Running composed programs *)
(* ================================================================== *)

Lemma run_bind {A B : Type} (w : World) (p : Prog A) (f : A -> Prog B) :
  forall past,
    run w past (bind p f) =
    match snd (run w past p) with
    | Normal a =>
        let r := run w (rev (fst (run w past p)) ++ past)%list (f a) in
        ((fst (run w past p) ++ fst r)%list, snd r)
    | Thrown e => (fst (run w past p), Thrown e)
    end.
Proof.
  induction p as [a | e | X op k IH]; intros past; simpl.
  - destruct (run w past (f a)); reflexivity.
  - reflexivity.
  - rewrite IH.
    destruct (snd (run w (eventOf op (answer w X op past) :: past)
                     (k (answer w X op past)))); simpl.
    + rewrite <- app_assoc. reflexivity.
    + reflexivity.
Qed.

Lemma run_tryCatch {A : Type} (w : World) (p : Prog A)
  (h : JSError -> Prog A) :
  forall past,
    run w past (tryCatch p h) =
    match snd (run w past p) with
    | Normal a => (fst (run w past p), Normal a)
    | Thrown e =>
        let r := run w (rev (fst (run w past p)) ++ past)%list (h e) in
        ((fst (run w past p) ++ fst r)%list, snd r)
    end.
Proof.
  induction p as [a | e | X op k IH]; intros past; simpl.
  - reflexivity.
  - destruct (run w past (h e)); reflexivity.
  - rewrite IH.
    destruct (snd (run w (eventOf op (answer w X op past) :: past)
                     (k (answer w X op past)))); simpl.
    + reflexivity.
    + rewrite <- app_assoc. reflexivity.
Qed.

(** Steps a run at its head: case analysis on the answer of the next
    operation, or on the condition the program branches on. *)
Ltac step_head :=
  match goal with
  | |- context [match answer ?w ?X ?op ?past with _ => _ end] =>
      destruct (answer w X op past) eqn:?
  | |- context [run _ _ (if ?b then _ else _)] => destruct b eqn:?
  | |- context [bind (if ?b then _ else _) _] => destruct b eqn:?
  | |- context [tryCatch (if ?b then _ else _) _] => destruct b eqn:?
  | |- context [run _ _ (complete ?c)] => destruct c eqn:?
  | |- context [bind (complete ?c) _] => destruct c eqn:?
  | |- context [tryCatch (complete ?c) _] => destruct c eqn:?
  end.

Ltac step_run := repeat (simpl; step_head); simpl.

(** Splits membership in an explicit trace into its cases. *)
Ltac trace_cases H :=
  simpl in H; repeat (destruct H as [H | H]); try contradiction.

(* ================================================================== *)
(** * The generated client: request side *)
(* ================================================================== *)

(** The run of an invocation has one of two shapes: a validation failure
    (one [console.error], then the throw), or a clock reading followed by
    the call of [iamRequest]. *)
Lemma invocation_shape (w : World) (past : list Event) (domain key : string)
  (endpoint : ApiEndpointDefinition) (params : ClientParams) :
  (exists entry message,
      run w past (buildClientFunction domain endpoint key params)
      = ([EvConsoleError entry], Thrown (ErrorObj message)))
  \/ (exists now args answer rest,
        fst (run w past (buildClientFunction domain endpoint key params)) =
        EvDateGetTime now :: EvIamRequest args answer :: rest
        /\ iamRequestCalls rest = []
        /\ args_body args =
           (if truthy (p_body params) then JSON.stringify (p_body params)
            else None)
        /\ args_method args = Some (methodName (ep_method endpoint))).
Proof.
  unfold buildClientFunction.
  destruct (ep_requestSchema endpoint) as [schema|];
    [destruct (truthy (p_body params)) eqn:Hb;
     [destruct (safeParse schema (p_body params)) as [data|error] eqn:Hp|]|].
  2: { left. simpl. eauto. }
  all: right; destruct (ep_responseSchema endpoint) as [rs|]; step_run;
    try rewrite Hb; eauto 10.
  all: destruct (safeParse rs a); simpl; eauto 10.
Qed.

Lemma stringify_truthy (v : JSValue) :
  truthy v = true -> exists s, JSON.stringify v = Some s.
Proof.
  destruct v as [| | [|] | n | s | items | props]; simpl;
    try discriminate; eauto.
Qed.

(** What [makeIAMRequest] signs carries the body it was given, and what it
    fetches is what the signer answered for that request. *)
Lemma makeIAMRequest_body (env : ProcessEnv) (w : World) (past : list Event)
  (args : IAMRequestArgs) :
  forall ev, In ev (fst (run w past (makeIAMRequest env args))) ->
    match ev with
    | EvSignatureV4Sign _ request _ => req_body request = args_body args
    | EvFetch _ init _ =>
        exists cfg request,
          In (EvSignatureV4Sign cfg request (Normal init))
             (fst (run w past (makeIAMRequest env args)))
          /\ req_body request = args_body args
    | _ => True
    end.
Proof.
  unfold makeIAMRequest, signRequest, getSSOCredentials.
  step_run.
  all: intros ev Hev; simpl in Hev.
  all: repeat (destruct Hev as [<- | Hev]); try contradiction;
    simpl; try exact I; try reflexivity.
  all: eexists _, _; split; [simpl; eauto 20 | reflexivity].
Qed.

(** C1 (as amended).  The generated client function passes to [iamRequest]
    the endpoint's method and, as body, [JSON.stringify] of the supplied body
    exactly when that body is truthy, whatever the method; with no body (or a
    falsy one) the call is made without a body, and a truthy body always has
    a serialization.  [makeIAMRequest] puts the body it is given, unchanged,
    into the request it signs, and fetches what the signer answered. *)
Theorem body_serialized_when_truthy :
  forall (w : World) (past : list Event) (domain key : string)
         (endpoint : ApiEndpointDefinition) (params : ClientParams),
    let trace :=
      fst (run w past (buildClientFunction domain endpoint key params)) in
    Forall (fun args =>
              args_method args = Some (methodName (ep_method endpoint)) /\
              args_body args =
              (if truthy (p_body params) then JSON.stringify (p_body params)
               else None))
           (iamRequestCalls trace)
    /\ (truthy (p_body params) = false ->
        exists now args answer rest,
          trace = EvDateGetTime now :: EvIamRequest args answer :: rest
          /\ args_body args = None)
    /\ (truthy (p_body params) = true ->
        exists s, JSON.stringify (p_body params) = Some s)
    /\ (forall (env : ProcessEnv) (w' : World) (past' : list Event)
               (args : IAMRequestArgs) (ev : Event),
          In ev (fst (run w' past' (makeIAMRequest env args))) ->
          match ev with
          | EvSignatureV4Sign _ request _ => req_body request = args_body args
          | EvFetch _ init _ =>
              exists cfg request,
                In (EvSignatureV4Sign cfg request (Normal init))
                   (fst (run w' past' (makeIAMRequest env args)))
                /\ req_body request = args_body args
          | _ => True
          end).
Proof.
  intros w past domain key endpoint params trace.
  destruct (invocation_shape w past domain key endpoint params)
    as [(entry & message & Hrun) | (now & args & answer & rest & Ht & Hrest & Hb & Hm)].
  - subst trace. rewrite Hrun. simpl. split; [constructor|].
    split.
    + intros Hfalsy. exfalso. revert Hrun.
      unfold buildClientFunction. rewrite Hfalsy.
      destruct (ep_requestSchema endpoint); simpl; discriminate.
    + split; [apply stringify_truthy | apply makeIAMRequest_body].
  - subst trace. rewrite Ht. simpl. rewrite Hrest. split.
    + constructor; [split; assumption | constructor].
    + split.
      * intros Hfalsy. rewrite Hfalsy in Hb. eauto 10.
      * split; [apply stringify_truthy | apply makeIAMRequest_body].
Qed.

(** C1, counterexample.  A GET endpoint invoked with the body
    [{ city: "Metropolis" }]: the body is serialized into the call of
    [iamRequest], and [makeIAMRequest] hands it to [fetch] in a GET
    request. *)
Lemma get_request_carries_body :
  let text :=
    "{" ++ JSON.quote "city" ++ ":" ++ JSON.quote "Metropolis" ++ "}" in
  let calls :=
    iamRequestCalls
      (traceOf (Sample.world Sample.noHeroes (Sample.response 200 "OK" "{}"))
         (buildClientFunction Sample.domain Sample.searchByCity "searchByCity"
            (Sample.params Sample.metropolis []))) in
  ep_method Sample.searchByCity = GET
  /\ map args_method calls = [Some "GET"]
  /\ map args_body calls = [Some text]
  /\ map (fun args =>
            map (fun c => (req_method (snd c), req_body (snd c)))
              (fetchCalls
                 (traceOf
                    (Sample.world Sample.noHeroes
                       (Sample.response 200 "OK" "{}"))
                    (makeIAMRequest Sample.staticEnv args))))
       calls
     = [[("GET", Some text)]].
Proof. vm_compute. repeat split. Qed.

(** C2 (as amended).  For an endpoint with a request schema: a truthy body
    that fails the schema makes the invocation log the failure and throw the
    validation error, and that is the whole run, so nothing is built, signed
    or sent; a body that passes the schema makes the invocation reach the
    call of [iamRequest]. *)
Theorem request_validation_before_transport :
  forall (w : World) (past : list Event) (domain key : string)
         (endpoint : ApiEndpointDefinition) (params : ClientParams)
         (schema : ZodType),
    ep_requestSchema endpoint = Some schema ->
    (forall error,
        safeParse schema (p_body params) = ParseFailure error ->
        truthy (p_body params) = true ->
        let message :=
          "Validation error in apiClient." ++ key ++ ": " ++ zod_message error in
        run w past (buildClientFunction domain endpoint key params) =
        ([EvConsoleError
            (mkLog message
               (LogRequestValidation (zod_errors error) (p_body params)))],
         Thrown (ErrorObj message))
        /\ existsb touchesNetwork
             (fst (run w past (buildClientFunction domain endpoint key params)))
           = false)
    /\ (forall data,
           safeParse schema (p_body params) = ParseSuccess data ->
           exists now args answer rest,
             fst (run w past (buildClientFunction domain endpoint key params)) =
             EvDateGetTime now :: EvIamRequest args answer :: rest).
Proof.
  intros w past domain key endpoint params schema Hschema. split.
  - intros error Hfail Htruthy message.
    unfold buildClientFunction. rewrite Hschema, Htruthy, Hfail. simpl.
    split; reflexivity.
  - intros data Hok.
    destruct (invocation_shape w past domain key endpoint params)
      as [(entry & message & Hrun) | (now & args & answer & rest & Ht & _)].
    + exfalso. revert Hrun. unfold buildClientFunction.
      rewrite Hschema, Hok.
      destruct (truthy (p_body params)); simpl; discriminate.
    + eauto 10.
Qed.

(** C2, witness: [addHero] with a body that lacks the required fields. *)
Lemma request_validation_before_transport_witness :
  (exists error,
      safeParse (Zod.type Registry.AddHeroRequestSchema)
        (VObj [("name", VStr "Superman")]) = ParseFailure error
      /\ completionOf (Sample.world Sample.noHeroes (Sample.response 200 "OK" "{}"))
           (buildClientFunction Sample.domain Registry.addHero "addHero"
              (Sample.params (VObj [("name", VStr "Superman")]) []))
         = Thrown (ErrorObj ("Validation error in apiClient.addHero: "
                             ++ zod_message error))
      /\ existsb touchesNetwork
           (traceOf (Sample.world Sample.noHeroes (Sample.response 200 "OK" "{}"))
              (buildClientFunction Sample.domain Registry.addHero "addHero"
                 (Sample.params (VObj [("name", VStr "Superman")]) [])))
         = false)
  /\ (exists now args answer rest,
         traceOf (Sample.world Sample.noHeroes (Sample.response 200 "OK" "{}"))
           (buildClientFunction Sample.domain Registry.addHero "addHero"
              (Sample.params Sample.superman []))
         = EvDateGetTime now :: EvIamRequest args answer :: rest).
Proof.
  pose proof
    (request_validation_before_transport
       (Sample.world Sample.noHeroes (Sample.response 200 "OK" "{}")) []
       Sample.domain "addHero" Registry.addHero) as H.
  split.
  - destruct (H (Sample.params (VObj [("name", VStr "Superman")]) [])
                (Zod.type Registry.AddHeroRequestSchema) eq_refl) as [Hfail _].
    eexists. split; [reflexivity|].
    specialize (Hfail _ eq_refl eq_refl). destruct Hfail as [Hrun Hnet].
    split; [|exact Hnet].
    unfold completionOf. rewrite Hrun. reflexivity.
  - destruct (H (Sample.params Sample.superman [])
                (Zod.type Registry.AddHeroRequestSchema) eq_refl) as [_ Hok].
    exact (Hok _ eq_refl).
Defined.

(** C2, counterexample.  [addHero] invoked with the body [null]: the request
    schema rejects [null], yet the invocation does not throw; it calls
    [iamRequest] and returns the response. *)
Lemma falsy_invalid_body_is_sent :
  let run_ :=
    run (Sample.world Sample.noHeroes (Sample.response 200 "OK" "{}")) []
      (buildClientFunction Sample.domain Registry.addHero "addHero"
         (Sample.params VNull [])) in
  safeParse (Zod.type Registry.AddHeroRequestSchema) VNull
  = ParseFailure
      (mkZodError ": Expected object, received null"
         [mkIssue [] "Expected object, received null"])
  /\ snd run_ = Normal Sample.noHeroes
  /\ map args_path (iamRequestCalls (fst run_)) = ["/heroes"].
Proof. vm_compute. repeat split. Qed.

(** C10.  When the supplied body is falsy the request schema is not
    consulted: the invocation runs exactly as it does for the same endpoint
    without a request schema, and it reaches the call of [iamRequest], made
    without a body, whatever the schema says of that value. *)
Theorem falsy_body_skips_validation :
  forall (w : World) (past : list Event) (domain key : string)
         (endpoint : ApiEndpointDefinition) (params : ClientParams)
         (schema : ZodType),
    ep_requestSchema endpoint = Some schema ->
    truthy (p_body params) = false ->
    run w past (buildClientFunction domain endpoint key params) =
    run w past
      (buildClientFunction domain
         {| ep_path := ep_path endpoint; ep_method := ep_method endpoint;
            ep_description := ep_description endpoint;
            ep_requestSchema := None;
            ep_responseSchema := ep_responseSchema endpoint |}
         key params)
    /\ exists now args answer rest,
        fst (run w past (buildClientFunction domain endpoint key params)) =
        EvDateGetTime now :: EvIamRequest args answer :: rest
        /\ args_body args = None.
Proof.
  intros w past domain key endpoint params schema Hschema Hfalsy.
  unfold buildClientFunction. rewrite Hschema, Hfalsy. simpl.
  split; [reflexivity | eauto 10].
Qed.

(** C10, witness: [addHero] with the bodies [undefined], [null], the empty
    string and [0], none of which the request schema accepts. *)
Lemma falsy_body_skips_validation_witness :
  Forall
    (fun body =>
       (exists error,
           safeParse (Zod.type Registry.AddHeroRequestSchema) body
           = ParseFailure error)
       /\ exists now args answer rest,
           fst (run (Sample.world Sample.noHeroes (Sample.response 200 "OK" "{}"))
                  []
                  (buildClientFunction Sample.domain Registry.addHero "addHero"
                     (Sample.params body []))) =
           EvDateGetTime now :: EvIamRequest args answer :: rest
           /\ args_body args = None)
    [VUndefined; VNull; VStr EmptyString; VNum 0].
Proof.
  repeat constructor; try (eexists; reflexivity);
    match goal with
    | |- context [Sample.params ?body _] =>
        exact (proj2 (falsy_body_skips_validation
                        (Sample.world Sample.noHeroes
                           (Sample.response 200 "OK" "{}"))
                        [] Sample.domain "addHero" Registry.addHero
                        (Sample.params body [])
                        (Zod.type Registry.AddHeroRequestSchema)
                        eq_refl eq_refl))
    end.
Defined.

(* ================================================================== *)
(** * The generated client: response side *)
(* ================================================================== *)

(** C3.  Whatever the response schema says of the response that
    [iamRequest] resolved to, the invocation returns that response itself;
    when the schema rejects it, the failure is logged with [console.error]
    and nothing is thrown. *)
Theorem response_validation_only_logs :
  forall (w : World) (past : list Event) (domain key : string)
         (endpoint : ApiEndpointDefinition) (params : ClientParams)
         (args : IAMRequestArgs) (response : JSValue),
    In (EvIamRequest args (Normal response))
       (fst (run w past (buildClientFunction domain endpoint key params))) ->
    snd (run w past (buildClientFunction domain endpoint key params))
    = Normal response
    /\ forall schema error,
        ep_responseSchema endpoint = Some schema ->
        safeParse schema response = ParseFailure error ->
        In (EvConsoleError
              (mkLog ("Response validation error in apiClient." ++ key ++ ": "
                      ++ zod_message error)
                 (LogResponseValidation (zod_errors error) response)))
           (fst (run w past (buildClientFunction domain endpoint key params))).
Proof.
  intros w past domain key endpoint params args response.
  unfold buildClientFunction.
  destruct (ep_requestSchema endpoint) as [schema|];
    [destruct (truthy (p_body params));
     [destruct (safeParse schema (p_body params)) as [data|error]|]|].
  2: { simpl. intros [H | []]. discriminate H. }
  all: destruct (ep_responseSchema endpoint) as [rs|]; step_run.
  all: try (destruct (safeParse rs a) as [d|er] eqn:Hrs; simpl).
  all: intros Hin; trace_cases Hin; try discriminate Hin.
  all: injection Hin as -> ->.
  all: split; [reflexivity|].
  all: intros schema' error' Hs Hf; try discriminate Hs.
  all: injection Hs as <-; rewrite Hrs in Hf; try discriminate Hf.
  all: injection Hf as <-; simpl; auto 10.
Qed.

(** C3, witness: [listHeroRescues] answered with [{}], which its response
    schema rejects. *)
Lemma response_validation_only_logs_witness :
  (exists error,
      safeParse (Zod.type Registry.ListHeroRescuesResponseSchema) (VObj [])
      = ParseFailure error)
  /\ snd (run (Sample.world (VObj []) (Sample.response 200 "OK" "{}")) []
            (buildClientFunction Sample.domain Registry.listHeroRescues
               "listHeroRescues"
               (Sample.params VUndefined [("hero", "Superman")])))
     = Normal (VObj []).
Proof.
  split; [eexists; reflexivity|].
  refine (proj1 (response_validation_only_logs
                   (Sample.world (VObj []) (Sample.response 200 "OK" "{}")) []
                   Sample.domain "listHeroRescues" Registry.listHeroRescues
                   (Sample.params VUndefined [("hero", "Superman")])
                   _ (VObj []) _)).
  simpl. right. left. reflexivity.
Defined.

(* ================================================================== *)
(** * The transport invoker and the request signer *)
(* ================================================================== *)

Lemma includes_spec (x : Z) (l : list Z) :
  existsb (Z.eqb x) l = true <-> In x l.
Proof.
  rewrite existsb_exists. split.
  - intros (y & Hy & Heq). apply Z.eqb_eq in Heq. subst. exact Hy.
  - intros H. exists x. split; [exact H | apply Z.eqb_refl].
Qed.

Lemma res_ok_spec (res : Response) :
  res_ok res = true <-> (200 <= res_status res <= 299)%Z.
Proof. unfold res_ok. rewrite andb_true_iff, !Z.leb_le. tauto. Qed.



(** C9 (as amended).  Every signature is made with the service
    ["execute-api"] and, as region, the value of AWS_DEFAULT_REGION when it
    is set and the empty string when it is not; and with static credentials
    in the environment the signer is the one operation performed. *)
Theorem signer_scope :
  forall (env : ProcessEnv) (w : World) (past : list Event)
         (request : HttpRequest),
    let calls := signCalls (fst (run w past (signRequest env request))) in
    Forall (fun c => sig_service (fst c) = "execute-api" /\ snd c = request)
      calls
    /\ (forall region,
           env "AWS_DEFAULT_REGION" = Some region ->
           Forall (fun c => sig_region (fst c) = region) calls)
    /\ (env "AWS_DEFAULT_REGION" = None ->
        Forall (fun c => sig_region (fst c) = EmptyString) calls)
    /\ (truthyStr (env "AWS_ACCESS_KEY_ID") = true ->
        truthyStr (env "AWS_SECRET_ACCESS_KEY") = true ->
        exists init, calls = [(init, request)]).
Proof.
  intros env w past request calls. subst calls.
  assert (Hregion : forall region,
             env "AWS_DEFAULT_REGION" = Some region ->
             orEmpty (env "AWS_DEFAULT_REGION") = region).
  { intros region ->. unfold orEmpty. simpl.
    destruct (String.eqb_spec region EmptyString) as [->|]; reflexivity. }
  unfold signRequest, getSSOCredentials.
  step_run.
  all: split; [repeat constructor|].
  all: split; [intros region Hr; repeat constructor; simpl; auto|].
  all: split;
    [intros Hnone; repeat constructor; simpl; rewrite Hnone; reflexivity|].
  all: intros Ha Hs; try (rewrite Ha, Hs in *; discriminate).
  all: eauto.
Qed.

(** C9, counterexample.  With static credentials and no AWS_DEFAULT_REGION
    in the environment, the one signature is made with the empty string as
    region, which is not ["us-east-1"]. *)
Lemma signer_region_defaults_to_empty :
  Sample.staticEnv "AWS_DEFAULT_REGION" = None
  /\ map (fun c => (sig_service (fst c), sig_region (fst c)))
       (signCalls
          (traceOf (Sample.world VNull (Sample.response 200 "OK" "{}"))
             (signRequest Sample.staticEnv
                (mkRequest Sample.host "GET" [("host", Sample.host)]
                   "/prod/heroes" None None))))
     = [("execute-api", EmptyString)]
  /\ String.eqb EmptyString "us-east-1" = false.
Proof. vm_compute. repeat split. Qed.

(* ================================================================== *)
(** * The server handler wrapper *)
(* ================================================================== *)

(** The run of the wrapper once the input is decoded and validated and the
    handler has resolved to [out]: the handler's operations are the whole
    trace, and the completion is decided by the output schema. *)
Lemma initApiHandler_after_handler (w : World) (past : list Event)
  (apiHandler : ApiHandler) (inputSchema outputSchema : option ZodType)
  (event : APIGatewayEvent) (input : JSValue) (trace : list Event)
  (out : HandlerOutput) :
  validatedInput inputSchema event = Normal input ->
  run w past (apiHandler (handlerArgs event input)) = (trace, Normal out) ->
  run w past (initApiHandler apiHandler inputSchema outputSchema event) =
  (trace,
   Normal
     (let serialize (handlerOutput : HandlerOutput) :=
        {| resp_body :=
             (match out_data handlerOutput with
              | VStr s => Some s
              | data => JSON.stringify data
              end);
           resp_headers := out_headers handlerOutput;
           resp_statusCode := orDefaultStatus (out_statusCode handlerOutput) |} in
      match outputSchema with
      | Some schema =>
          if negb (isString (out_data out)) then
            match safeParse schema (out_data out) with
            | ParseSuccess data =>
                serialize {| out_data := data;
                             out_headers := out_headers out;
                             out_statusCode := out_statusCode out |}
            | ParseFailure _ =>
                {| resp_body := Some "Internal server error";
                   resp_headers := None;
                   resp_statusCode := 500 |}
            end
          else serialize out
      | None => serialize out
      end)).
Proof.
  intros Hinput Hrun. unfold initApiHandler. rewrite Hinput.
  cbn [complete bind].
  rewrite run_bind, run_tryCatch, run_bind, Hrun.
  cbn [fst snd]. unfold parse.
  destruct outputSchema as [schema|];
    [destruct (isString (out_data out));
     [|destruct (safeParse schema (out_data out))]|];
    cbn [negb run fst snd app rev tryCatch];
    rewrite !(app_nil_r trace); reflexivity.
Qed.

(** C4.  With a response schema configured, when the handler resolves to an
    output whose data is not a string and fails the schema, the wrapper
    returns exactly [{ statusCode: 500, body: "Internal server error" }],
    whatever the data, status code and headers of the handler's output. *)
Theorem invalid_output_gives_fixed_500 :
  forall (w : World) (past : list Event) (apiHandler : ApiHandler)
         (inputSchema : option ZodType) (schema : ZodType)
         (event : APIGatewayEvent) (input : JSValue) (trace : list Event)
         (out : HandlerOutput) (error : ZodError),
    validatedInput inputSchema event = Normal input ->
    run w past (apiHandler (handlerArgs event input)) = (trace, Normal out) ->
    isString (out_data out) = false ->
    safeParse schema (out_data out) = ParseFailure error ->
    run w past (initApiHandler apiHandler inputSchema (Some schema) event) =
    (trace,
     Normal {| resp_body := Some "Internal server error";
               resp_headers := None;
               resp_statusCode := 500 |}).
Proof.
  intros w past apiHandler inputSchema schema event input trace out error
         Hinput Hrun Hdata Hfail.
  rewrite (initApiHandler_after_handler w past apiHandler inputSchema
             (Some schema) event input trace out Hinput Hrun).
  rewrite Hdata, Hfail. reflexivity.
Qed.

(** C4, witness: a handler whose [rescues] is not an array, with headers and
    a status code of its own. *)
Lemma invalid_output_gives_fixed_500_witness :
  run (Sample.world VNull (Sample.response 200 "OK" "{}")) []
    (initApiHandler
       (Sample.handler {| out_data := VObj [("rescues", VNum 3)];
                          out_headers := Some [("x-table", "heroes")];
                          out_statusCode := Some 200%Z |})
       None (Some (Zod.type Registry.ListHeroRescuesResponseSchema))
       Sample.event)
  = ([], Normal {| resp_body := Some "Internal server error";
                   resp_headers := None;
                   resp_statusCode := 500 |}).
Proof.
  eapply invalid_output_gives_fixed_500; reflexivity.
Defined.

(* ================================================================== *)
(** * The path-parameter shape *)
(* ================================================================== *)

Section PathParameters.

Import JSObject.

Lemma define_requiredStrings (k : string) (ks : list string) :
  arrayIndex k = None ->
  define k Zod.ZString (requiredStrings ks) = requiredStrings (addKey ks k).
Proof.
  intros Hk. unfold addKey. induction ks as [|k' ks IH]; simpl.
  - reflexivity.
  - unfold indexBefore. rewrite Hk.
    destruct (String.eqb_spec k k') as [->|Hne]; simpl.
    + reflexivity.
    + rewrite IH. destruct (existsb (String.eqb k) ks); reflexivity.
Qed.

Lemma fold_set_requiredStrings (names ks : list string) :
  (forall name,
      In name names -> arrayIndex name = None /\ name <> "__proto__") ->
  fold_left (fun params name => set name Zod.ZString params) names
    (requiredStrings ks)
  = requiredStrings (fold_left addKey names ks).
Proof.
  revert ks. induction names as [|name names IH]; intros ks Hplain; simpl.
  - reflexivity.
  - destruct (Hplain name (or_introl eq_refl)) as [Hidx Hproto].
    unfold set. destruct (String.eqb_spec name "__proto__") as [E|_];
      [contradiction|].
    rewrite define_requiredStrings by exact Hidx.
    apply IH. intros n Hn. apply Hplain. right. exact Hn.
Qed.

Lemma filter_filter_ne (ks : list string) (name : string) (l : list string) :
  filter (fun k => negb (existsb (String.eqb k) (ks ++ [name])%list)) l
  = filter (fun k => negb (existsb (String.eqb k) ks))
      (filter (fun other => negb (String.eqb other name)) l).
Proof.
  induction l as [|x l IH]; simpl; [reflexivity|].
  rewrite existsb_app. simpl. rewrite orb_false_r.
  destruct (String.eqb x name) eqn:Hx; simpl.
  - rewrite orb_true_r. simpl. exact IH.
  - rewrite orb_false_r.
    destruct (existsb (String.eqb x) ks); simpl; rewrite IH; reflexivity.
Qed.

Lemma filter_seen (ks : list string) (name : string) (l : list string) :
  existsb (String.eqb name) ks = true ->
  filter (fun k => negb (existsb (String.eqb k) ks))
    (filter (fun other => negb (String.eqb other name)) l)
  = filter (fun k => negb (existsb (String.eqb k) ks)) l.
Proof.
  intros Hseen. induction l as [|x l IH]; simpl; [reflexivity|].
  destruct (String.eqb_spec x name) as [->|Hne]; simpl.
  - rewrite Hseen. simpl. exact IH.
  - rewrite IH. reflexivity.
Qed.

Lemma fold_addKey (names ks : list string) :
  fold_left addKey names ks
  = (ks ++ filter (fun k => negb (existsb (String.eqb k) ks))
             (uniqueFirst names))%list.
Proof.
  revert ks. induction names as [|name names IH]; intros ks; simpl.
  - rewrite app_nil_r. reflexivity.
  - rewrite IH. unfold addKey.
    destruct (existsb (String.eqb name) ks) eqn:Hseen; simpl.
    + rewrite filter_seen by exact Hseen. reflexivity.
    + rewrite filter_filter_ne, <- app_assoc. reflexivity.
Qed.

Lemma filter_unseen (l : list string) :
  filter (fun k => negb (existsb (String.eqb k) [])) l = l.
Proof.
  induction l as [|x l IH]; [reflexivity|].
  cbn [filter existsb negb]. f_equal. exact IH.
Qed.

(** C6 (as amended).  When no token of the template is an array index (a
    canonical decimal numeral such as [0] or [12]) or ["__proto__"], the
    derived shape has exactly the unique token names as keys, in the order of
    their first occurrence, each mapped to a required string. *)
Theorem path_parameter_shape :
  forall path : string,
    (forall name,
        In name (ParamRegex.captures path) ->
        arrayIndex name = None /\ name <> "__proto__") ->
    zodPathParametersSchema path
    = Zod.ZObject (requiredStrings (uniqueFirst (ParamRegex.captures path))).
Proof.
  intros path Hplain. unfold zodPathParametersSchema. f_equal.
  change (@nil (string * Zod.Def)) with (requiredStrings []).
  rewrite fold_set_requiredStrings by exact Hplain.
  rewrite fold_addKey. cbn [app]. rewrite filter_unseen. reflexivity.
Qed.

End PathParameters.

(** C6, witness: the template of the documentation, and one that repeats a
    token. *)
Lemma path_parameter_shape_witness :
  zodPathParametersSchema "/users/{userId}/posts/{postId}"
  = Zod.ZObject [("userId", Zod.ZString); ("postId", Zod.ZString)]
  /\ zodPathParametersSchema "/heroes/{hero}/allies/{ally}/of/{hero}"
     = Zod.ZObject [("hero", Zod.ZString); ("ally", Zod.ZString)].
Proof.
  split.
  - refine (path_parameter_shape "/users/{userId}/posts/{postId}" _).
    intros name Hin. vm_compute in Hin.
    destruct Hin as [<- | [<- | []]]; split; try reflexivity; discriminate.
  - refine (path_parameter_shape "/heroes/{hero}/allies/{ally}/of/{hero}" _).
    intros name Hin. vm_compute in Hin.
    destruct Hin as [<- | [<- | [<- | []]]];
      split; try reflexivity; discriminate.
Defined.

(** C6, counterexample.  In the template [/{b}/{0}] the token [0] occurs
    after [b], but it is an array index and the shape enumerates it first. *)
Lemma numeric_token_is_enumerated_first :
  ParamRegex.captures "/{b}/{0}" = ["b"; "0"]
  /\ uniqueFirst (ParamRegex.captures "/{b}/{0}") = ["b"; "0"]
  /\ zodPathParametersSchema "/{b}/{0}"
     = Zod.ZObject [("0", Zod.ZString); ("b", Zod.ZString)].
Proof. vm_compute. repeat split. Qed.

(* ================================================================== *)
(** * Path-parameter substitution *)
(* ================================================================== *)

(** C7, at the failing input.  The template [/heroes/{hero}/allies/{hero}]
    has the one parameter [hero]; invoked with [hero = "Clark Kent"] the
    client replaces the first placeholder only and requests a path that still
    holds the second. *)
Theorem repeated_placeholder_left_in_path :
  zodPathParametersSchema (ep_path Sample.compareHero)
  = Zod.ZObject [("hero", Zod.ZString)]
  /\ map args_path
       (iamRequestCalls
          (traceOf (Sample.world Sample.noHeroes (Sample.response 200 "OK" "{}"))
             (buildClientFunction Sample.domain Sample.compareHero
                "compareHero"
                (Sample.params VUndefined [("hero", "Clark Kent")]))))
     = ["/heroes/Clark%20Kent/allies/{hero}"].
Proof. vm_compute. split; reflexivity. Qed.

(* ================================================================== *)
(** * JSON.parse after JSON.stringify *)
(* ================================================================== *)

Module JSONFacts.
Import JSON.

Lemma append_assoc (a b c : string) : (a ++ b) ++ c = a ++ (b ++ c).
Proof. induction a as [|x a IH]; simpl; [reflexivity | rewrite IH; reflexivity]. Qed.

Lemma append_nil_r (a : string) : a ++ EmptyString = a.
Proof. induction a as [|x a IH]; simpl; [reflexivity | rewrite IH; reflexivity]. Qed.

Lemma length_append (a b : string) :
  String.length (a ++ b) = (String.length a + String.length b)%nat.
Proof. induction a as [|x a IH]; simpl; [reflexivity | rewrite IH; reflexivity]. Qed.

Lemma parseUnits_quoteChar (c : ascii) (tail : string) :
  parseUnits (quoteChar c ++ tail) = consUnit (unitOf c) (parseUnits tail).
Proof.
  destruct c as [[] [] [] [] [] [] [] []]; reflexivity.
Qed.

Lemma decodeUnits_unitOf (c : ascii) (us : list StrUnit) :
  decodeUnits (unitOf c :: us) = String c (decodeUnits us).
Proof.
  destruct c as [[] [] [] [] [] [] [] []]; try reflexivity;
    destruct us as [|[b|lo] us]; reflexivity.
Qed.

Lemma parseUnits_quoteBody (s rest : string) :
  parseUnits (quoteBody s ++ String dquote rest)
  = Some (map unitOf (list_ascii_of_string s), rest).
Proof.
  induction s as [|c s IH]; simpl.
  - reflexivity.
  - rewrite append_assoc, parseUnits_quoteChar, IH. reflexivity.
Qed.

Lemma decodeUnits_map (s : string) :
  decodeUnits (map unitOf (list_ascii_of_string s)) = s.
Proof.
  induction s as [|c s IH]; [reflexivity|].
  cbn [list_ascii_of_string map]. rewrite decodeUnits_unitOf, IH. reflexivity.
Qed.

Lemma parseString_quote (s rest : string) :
  parseString (quoteBody s ++ String dquote rest) = Some (s, rest).
Proof.
  unfold parseString. rewrite parseUnits_quoteBody, decodeUnits_map. reflexivity.
Qed.

Lemma string_of_uint_digits (d : Decimal.uint) :
  allDigits (NilEmpty.string_of_uint d) = true.
Proof. induction d; simpl; auto. Qed.

Lemma spanDigits_append (ds rest : string) :
  allDigits ds = true ->
  continuesNumber rest = false ->
  spanDigits (ds ++ rest) = (ds, rest).
Proof.
  intros Hd Hr. induction ds as [|c ds IH]; simpl.
  - destruct rest as [|c r]; [reflexivity|]. simpl in *.
    destruct (Str.isDigit c); [discriminate | reflexivity].
  - unfold allDigits in Hd. simpl in Hd. apply andb_true_iff in Hd as [Hc Hd].
    rewrite Hc, (IH Hd). reflexivity.
Qed.

Lemma nzhead_not_D0 (d : Decimal.uint) :
  match Decimal.nzhead d with Decimal.D0 _ => False | _ => True end.
Proof. induction d; simpl; auto. Qed.

Lemma unorm_head (d d' : Decimal.uint) :
  Decimal.unorm d = Decimal.D0 d' -> d' = Decimal.Nil.
Proof.
  unfold Decimal.unorm. pose proof (nzhead_not_D0 d) as H.
  destruct (Decimal.nzhead d); intros E; try discriminate E;
    try contradiction.
  injection E as <-. reflexivity.
Qed.

Lemma to_uint_normal (p : positive) :
  Decimal.unorm (Pos.to_uint p) = Pos.to_uint p.
Proof.
  rewrite <- (DecimalPos.Unsigned.to_of (Pos.to_uint p)).
  rewrite DecimalPos.Unsigned.of_to. reflexivity.
Qed.

Lemma to_uint_leadingZero (p : positive) :
  leadingZero (NilEmpty.string_of_uint (Pos.to_uint p)) = false.
Proof.
  pose proof (to_uint_normal p) as Hn.
  pose proof (DecimalPos.Unsigned.to_uint_nonzero p) as Hz.
  destruct (Pos.to_uint p) as [|d|d|d|d|d|d|d|d|d|d] eqn:E; try reflexivity;
    try (simpl; destruct (NilEmpty.string_of_uint d); reflexivity).
  apply unorm_head in Hn. subst d. contradiction.
Qed.

Lemma to_uint_head (p : positive) :
  exists c s, NilEmpty.string_of_uint (Pos.to_uint p) = String c s
              /\ Str.isDigit c = true.
Proof.
  pose proof (DecimalPos.Unsigned.to_uint_nonnil p) as Hn.
  destruct (Pos.to_uint p); try contradiction; simpl; eauto.
Qed.

Lemma parseNumber_digits (negative : bool) (ds rest : string)
  (d : Decimal.signed_int) :
  allDigits ds = true ->
  ds <> EmptyString ->
  leadingZero ds = false ->
  continuesNumber rest = false ->
  NilZero.int_of_string ((if negative then "-" else EmptyString) ++ ds)
  = Some d ->
  parseNumber ((if negative then "-" else EmptyString) ++ ds ++ rest)
  = Some (Z.of_int d, rest).
Proof.
  intros Hd Hne Hlz Hrest Hint. unfold parseNumber.
  assert (Hsplit :
            match (if negative then "-" else EmptyString) ++ ds ++ rest with
            | String c s' =>
                if Ascii.eqb c "-" then ("-", s')
                else (EmptyString,
                      (if negative then "-" else EmptyString) ++ ds ++ rest)
            | EmptyString =>
                (EmptyString,
                 (if negative then "-" else EmptyString) ++ ds ++ rest)
            end
            = ((if negative then "-" else EmptyString), ds ++ rest)).
  { destruct negative; [reflexivity|].
    destruct ds as [|c ds]; [contradiction|]. simpl.
    unfold allDigits in Hd. simpl in Hd. apply andb_true_iff in Hd as [Hc _].
    destruct (Ascii.eqb_spec c "-") as [->|]; [discriminate Hc | reflexivity]. }
  rewrite Hsplit. cbn [fst snd].
  rewrite (spanDigits_append ds rest Hd Hrest). cbn [fst snd].
  rewrite Hlz, Hrest, Hint.
  destruct ds; [contradiction | reflexivity].
Qed.

Lemma to_uint_string (p : positive) :
  NilZero.string_of_uint (Pos.to_uint p)
  = NilEmpty.string_of_uint (Pos.to_uint p).
Proof.
  pose proof (DecimalPos.Unsigned.to_uint_nonnil p) as Hnn.
  destruct (Pos.to_uint p); try reflexivity. contradiction.
Qed.

Lemma parseNumber_ofZ (n : Z) (rest : string) :
  continuesNumber rest = false ->
  parseNumber (Str.ofZ n ++ rest) = Some (n, rest).
Proof.
  intros Hrest. unfold Str.ofZ.
  rewrite <- (DecimalZ.of_to n) at 2.
  assert (Hisi : NilZero.int_of_string (NilZero.string_of_int (Z.to_int n))
                 = Some (Z.to_int n)).
  { apply NilZero.isi; destruct n; simpl; try discriminate;
      intros E; injection E as E;
      exact (DecimalPos.Unsigned.to_uint_nonnil _ E). }
  destruct n as [|p|p]; cbn [Z.to_int NilZero.string_of_int] in *.
  - apply (parseNumber_digits false "0" rest); auto. discriminate.
  - rewrite to_uint_string in *.
    destruct (to_uint_head p) as (c & s & Hcs & Hc).
    apply (parseNumber_digits false (NilEmpty.string_of_uint (Pos.to_uint p))
             rest); auto.
    + apply string_of_uint_digits.
    + rewrite Hcs. discriminate.
    + apply to_uint_leadingZero.
  - rewrite to_uint_string in *.
    destruct (to_uint_head p) as (c & s & Hcs & Hc).
    apply (parseNumber_digits true (NilEmpty.string_of_uint (Pos.to_uint p))
             rest); auto.
    + apply string_of_uint_digits.
    + rewrite Hcs. discriminate.
    + apply to_uint_leadingZero.
Qed.

Lemma join_cons (sep p : string) (rest : list string) :
  rest <> [] -> Str.join sep (p :: rest) = p ++ sep ++ Str.join sep rest.
Proof. destruct rest; [contradiction | reflexivity]. Qed.

Lemma wellFormed_stringify (v : JSValue) :
  wellFormed v = true -> stringify v = Some (text v).
Proof.
  unfold text. destruct v as [| | [|] | n | s | items | props];
    try discriminate; reflexivity.
Qed.

Lemma members_text (props : JSObject.t JSValue) :
  forallb (fun kv => wellFormed (snd kv)) props = true ->
  flat_map (fun kv => match stringify (snd kv) with
                      | Some s => [quote (fst kv) ++ ":" ++ s]
                      | None => []
                      end) props
  = map member props.
Proof.
  induction props as [|kv props IH]; [reflexivity|].
  cbn [forallb flat_map map]. intros H.
  apply andb_true_iff in H as [Hv Hrest].
  rewrite (IH Hrest). unfold member at 2.
  rewrite (wellFormed_stringify _ Hv). reflexivity.
Qed.

Lemma beginsValue_facts (c : ascii) :
  beginsValue c = true ->
  isWs c = false /\ Ascii.eqb c "]" = false /\ Ascii.eqb c "}" = false.
Proof.
  destruct c as [[] [] [] [] [] [] [] []]; intros H; try discriminate H;
    repeat split.
Qed.

Lemma ofZ_head (n : Z) :
  exists c s, Str.ofZ n = String c s
              /\ (Str.isDigit c || Ascii.eqb c "-") = true.
Proof.
  unfold Str.ofZ. destruct n as [|p|p]; cbn [Z.to_int NilZero.string_of_int].
  - simpl. eauto.
  - rewrite to_uint_string. destruct (to_uint_head p) as (c & s & -> & Hc).
    exists c, s. rewrite Hc. auto.
  - eexists _, _. split; reflexivity.
Qed.

Lemma text_head (v : JSValue) :
  wellFormed v = true ->
  exists c s, text v = String c s /\ beginsValue c = true.
Proof.
  unfold text.
  destruct v as [| | [|] | n | s | items | props]; intros H;
    try discriminate H; simpl; try (eexists _, _; split; reflexivity).
  destruct (ofZ_head n) as (c & s & -> & Hc). exists c, s. split; [reflexivity|].
  unfold beginsValue. simpl.
  apply orb_true_iff in Hc as [-> | ->]; [reflexivity | apply orb_true_r].
Qed.

Lemma skipWs_begins (c : ascii) (s : string) :
  isWs c = false -> skipWs (String c s) = String c s.
Proof. intros H. simpl. rewrite H. reflexivity. Qed.

Lemma parseValue_number (f : nat) (c : ascii) (s : string) :
  (Str.isDigit c || Ascii.eqb c "-") = true ->
  parseValue (S f) (String c s)
  = match parseNumber (String c s) with
    | Some (n, r) => Some (VNum n, r)
    | None => None
    end.
Proof.
  destruct c as [[] [] [] [] [] [] [] []]; intros H; try discriminate H;
    reflexivity.
Qed.

(** The text of a non-empty list of values begins like a value. *)
Lemma join_head {A : Type} (f : A -> string) (x : A) (l : list A) (tail : string) :
  (exists c s, f x = String c s /\ beginsValue c = true) ->
  exists c s, Str.join "," (map f (x :: l)) ++ tail = String c s
              /\ beginsValue c = true.
Proof.
  intros (c & s & Hx & Hc). cbn [map].
  destruct l as [|y l].
  - simpl. rewrite Hx. simpl. eauto.
  - rewrite join_cons by discriminate. rewrite Hx. simpl. eauto.
Qed.

Lemma member_head (kv : string * JSValue) :
  exists c s, member kv = String c s /\ beginsValue c = true.
Proof. unfold member, quote. simpl. eauto. Qed.

Lemma define_last {V : Type} (k : string) (v : V) (o : JSObject.t V) :
  forallb (fun k0 => JSObject.mayFollow k0 k) (map fst o) = true ->
  JSObject.define k v o = (o ++ [(k, v)])%list.
Proof.
  induction o as [|[k0 v0] o IH]; simpl; [reflexivity|].
  intros H. apply andb_true_iff in H as [H0 Ho].
  unfold JSObject.mayFollow in H0. apply andb_true_iff in H0 as [Hne Hidx].
  rewrite String.eqb_sym. apply negb_true_iff in Hne. rewrite Hne.
  unfold JSObject.indexBefore.
  destruct (JSObject.arrayIndex k) as [j|].
  - destruct (JSObject.arrayIndex k0) as [i|]; [|discriminate].
    apply N.ltb_lt in Hidx.
    destruct (N.ltb_spec j i); [lia|]. rewrite (IH Ho). reflexivity.
  - rewrite (IH Ho). reflexivity.
Qed.

Lemma wellOrdered_app (ks : list string) (k : string) (rest : list string) :
  JSObject.wellOrdered (ks ++ k :: rest)%list = true ->
  forallb (fun k0 => JSObject.mayFollow k0 k) ks = true
  /\ JSObject.wellOrdered ((ks ++ [k]) ++ rest)%list = true.
Proof.
  intros H. split.
  - induction ks as [|k0 ks IH]; simpl in *; [reflexivity|].
    apply andb_true_iff in H as [H0 Hks].
    rewrite forallb_app in H0. apply andb_true_iff in H0 as [_ H0].
    simpl in H0. apply andb_true_iff in H0 as [H0 _].
    rewrite H0, (IH Hks). reflexivity.
  - rewrite <- List.app_assoc. exact H.
Qed.

Lemma fold_define (props acc : JSObject.t JSValue) :
  JSObject.wellOrdered (map fst (acc ++ props)%list) = true ->
  fold_left (fun o kv => JSObject.define (fst kv) (snd kv) o) props acc
  = (acc ++ props)%list.
Proof.
  revert acc. induction props as [|[k v] props IH]; intros acc H; simpl.
  - rewrite List.app_nil_r. reflexivity.
  - rewrite map_app in H. simpl in H.
    apply wellOrdered_app in H as [Hlast Hrest].
    rewrite define_last by exact Hlast.
    rewrite IH.
    + rewrite <- List.app_assoc. reflexivity.
    + rewrite !map_app. exact Hrest.
Qed.

Lemma parseValue_string (f : nat) (s : string) :
  parseValue (S f) (String dquote s)
  = match parseString s with
    | Some (str, r) => Some (VStr str, r)
    | None => None
    end.
Proof. reflexivity. Qed.

Lemma parseValue_array (f : nat) (s : string) :
  parseValue (S f) (String "[" s)
  = match skipWs s with
    | String c1 r1 =>
        if Ascii.eqb c1 "]" then Some (VArr [], r1)
        else match parseElements f (String c1 r1) with
             | Some (items, r) => Some (VArr items, r)
             | None => None
             end
    | EmptyString => None
    end.
Proof. reflexivity. Qed.

Lemma parseValue_object (f : nat) (s : string) :
  parseValue (S f) (String "{" s)
  = match skipWs s with
    | String c1 r1 =>
        if Ascii.eqb c1 "}" then Some (VObj [], r1)
        else match parseMembers f [] (String c1 r1) with
             | Some (props, r) => Some (VObj props, r)
             | None => None
             end
    | EmptyString => None
    end.
Proof. reflexivity. Qed.

Lemma parseElements_S (f : nat) (s : string) :
  parseElements (S f) s
  = match parseValue f s with
    | Some (v, r) =>
        match skipWs r with
        | String c r' =>
            if Ascii.eqb c "," then
              match parseElements f (skipWs r') with
              | Some (vs, r'') => Some (v :: vs, r'')
              | None => None
              end
            else if Ascii.eqb c "]" then Some ([v], r')
            else None
        | EmptyString => None
        end
    | None => None
    end.
Proof. reflexivity. Qed.

Lemma parseMembers_S (f : nat) (acc : JSObject.t JSValue) (s : string) :
  parseMembers (S f) acc s
  = match expectChar dquote s with
    | Some s1 =>
        match parseString s1 with
        | Some (k, s2) =>
            match expectChar ":" (skipWs s2) with
            | Some s3 =>
                match parseValue f (skipWs s3) with
                | Some (v, r) =>
                    let acc' := JSObject.define k v acc in
                    match skipWs r with
                    | String c r' =>
                        if Ascii.eqb c "," then
                          parseMembers f acc' (skipWs r')
                        else if Ascii.eqb c "}" then Some (acc', r')
                        else None
                    | EmptyString => None
                    end
                | None => None
                end
            | None => None
            end
        | None => None
        end
    | None => None
    end.
Proof. reflexivity. Qed.

Lemma skipWs_text (v : JSValue) (tail : string) :
  wellFormed v = true -> skipWs (text v ++ tail) = text v ++ tail.
Proof.
  intros H. destruct (text_head v H) as (c & s & -> & Hc).
  apply beginsValue_facts in Hc as (Hws & _). simpl. rewrite Hws. reflexivity.
Qed.

Lemma skipWs_join {A : Type} (f : A -> string) (x : A) (l : list A)
  (tail : string) :
  (exists c s, f x = String c s /\ beginsValue c = true) ->
  skipWs (Str.join "," (map f (x :: l)) ++ tail)
  = Str.join "," (map f (x :: l)) ++ tail.
Proof.
  intros H. destruct (join_head f x l tail H) as (c & s & -> & Hc).
  apply beginsValue_facts in Hc as (Hws & _). simpl. rewrite Hws. reflexivity.
Qed.

Lemma value_step (f : nat) :
  ValueOK f -> ElementsOK f -> MembersOK f -> ValueOK (S f).
Proof.
  intros HV HE HM v rest Hwf Hsize Hrest.
  destruct v as [| | b | n | s | items | props].
  - discriminate Hwf.
  - destruct rest; reflexivity.
  - destruct b; destruct rest; reflexivity.
  - unfold text. cbn [stringify].
    destruct (ofZ_head n) as (c & s & Hcs & Hc).
    rewrite Hcs. cbn [String.append]. rewrite parseValue_number by exact Hc.
    change (String c (s ++ rest)) with (String c s ++ rest).
    rewrite <- Hcs, parseNumber_ofZ by exact Hrest. reflexivity.
  - unfold text. cbn [stringify]. unfold quote. cbn [String.append].
    rewrite parseValue_string, append_assoc. cbn [String.append].
    rewrite parseString_quote. reflexivity.
  - unfold text. cbn [stringify]. fold text. cbn [String.append].
    rewrite parseValue_array, append_assoc. cbn [String.append].
    destruct items as [|v items].
    + reflexivity.
    + cbn [wellFormed] in Hwf. cbn [size] in Hsize.
      assert (Hhead : exists c s, text v = String c s /\ beginsValue c = true).
      { apply text_head. cbn [forallb] in Hwf.
        apply andb_true_iff in Hwf as [Hv _]. exact Hv. }
      rewrite (skipWs_join text v items _ Hhead).
      destruct (join_head text v items (String "]" rest) Hhead)
        as (c & s & Heq & Hc).
      pose proof (beginsValue_facts c Hc) as (_ & Hclose & _).
      rewrite Heq, Hclose, <- Heq.
      rewrite HE; [reflexivity | exact Hwf | lia].
  - unfold text. cbn [stringify].
    cbn [wellFormed] in Hwf. apply andb_true_iff in Hwf as [Hord Hwf].
    rewrite (members_text props Hwf). cbn [String.append].
    rewrite parseValue_object, append_assoc. cbn [String.append].
    destruct props as [|kv props].
    + reflexivity.
    + cbn [size] in Hsize.
      rewrite (skipWs_join member kv props _ (member_head kv)).
      destruct (join_head member kv props (String "}" rest) (member_head kv))
        as (c & s & Heq & Hc).
      pose proof (beginsValue_facts c Hc) as (_ & _ & Hclose).
      rewrite Heq, Hclose, <- Heq.
      rewrite HM; [| exact Hwf | lia].
      unfold defineAll. rewrite fold_define by exact Hord. reflexivity.
Qed.

Lemma elements_step (f : nat) :
  ValueOK f -> ElementsOK f -> ElementsOK (S f).
Proof.
  intros HV HE v items rest Hwf Hsize.
  cbn [forallb] in Hwf. apply andb_true_iff in Hwf as [Hv Hitems].
  cbn [sizeAll] in Hsize. fold (sizeAll size items) in Hsize.
  rewrite parseElements_S.
  destruct items as [|v' items].
  - cbn [map Str.join].
    rewrite HV; [| exact Hv | lia | reflexivity]. reflexivity.
  - assert (Hv' : wellFormed v' = true).
    { cbn [forallb] in Hitems. apply andb_true_iff in Hitems as [H _].
      exact H. }
    cbn [map]. rewrite join_cons by discriminate.
    rewrite !append_assoc. cbn [String.append].
    rewrite HV; [| exact Hv | lia | reflexivity].
    rewrite (skipWs_begins "," _ eq_refl). cbv iota.
    change (Ascii.eqb "," ",") with true. cbv iota.
    change (text v' :: map text items) with (map text (v' :: items)).
    rewrite (skipWs_join text v' items _ (text_head v' Hv')).
    rewrite HE; [reflexivity | exact Hitems | lia].
Qed.

Lemma members_step (f : nat) :
  ValueOK f -> MembersOK f -> MembersOK (S f).
Proof.
  intros HV HM [k v] props acc rest Hwf Hsize.
  cbn [forallb snd] in Hwf. apply andb_true_iff in Hwf as [Hv Hprops].
  cbn [sizeAll snd] in Hsize.
  fold (sizeAll (fun kv : string * JSValue => size (snd kv)) props) in Hsize.
  rewrite parseMembers_S.
  assert (Hmember : forall tail,
             member (k, v) ++ tail
             = String dquote (quoteBody k ++ String dquote (String ":" (text v ++ tail)))).
  { intros tail. unfold member, quote. cbn [fst snd String.append].
    rewrite !append_assoc. reflexivity. }
  destruct props as [|kv' props].
  - cbn [map Str.join]. rewrite Hmember.
    cbn [expectChar]. change (Ascii.eqb dquote dquote) with true. cbv iota.
    rewrite parseString_quote.
    rewrite (skipWs_begins ":" _ eq_refl).
    cbn [expectChar]. change (Ascii.eqb ":" ":") with true. cbv iota.
    rewrite (skipWs_text v _ Hv).
    rewrite HV; [| exact Hv | lia | reflexivity].
    reflexivity.
  - cbn [map]. rewrite join_cons by discriminate.
    rewrite append_assoc, Hmember.
    cbn [expectChar]. change (Ascii.eqb dquote dquote) with true. cbv iota.
    rewrite parseString_quote.
    rewrite (skipWs_begins ":" _ eq_refl).
    cbn [expectChar]. change (Ascii.eqb ":" ":") with true. cbv iota.
    rewrite (skipWs_text v _ Hv).
    rewrite HV; [| exact Hv | lia | reflexivity].
    cbv zeta. cbn [String.append].
    rewrite (skipWs_begins "," _ eq_refl). cbv iota.
    change (Ascii.eqb "," ",") with true. cbv iota.
    change (member kv' :: map member props) with (map member (kv' :: props)).
    rewrite (skipWs_join member kv' props _ (member_head kv')).
    rewrite HM; [reflexivity | exact Hprops | lia].
Qed.

Lemma roundtrip_fuel (fuel : nat) :
  ValueOK fuel /\ ElementsOK fuel /\ MembersOK fuel.
Proof.
  induction fuel as [|f (HV & HE & HM)].
  - repeat split.
    + intros v rest _ Hsize. destruct v; simpl in Hsize; lia.
    + intros v items rest _ Hsize. simpl in Hsize. lia.
    + intros kv props acc rest _ Hsize. simpl in Hsize. lia.
  - repeat split.
    + apply value_step; assumption.
    + apply elements_step; assumption.
    + apply members_step; assumption.
Qed.

Lemma sizeAll_le_join {A : Type} (sz : A -> nat) (f : A -> string)
  (l : list A) :
  Forall (fun x => sz x <= String.length (f x)) l ->
  sizeAll sz l <= S (String.length (Str.join "," (map f l))).
Proof.
  induction 1 as [|x l Hx Hl IH]; [simpl; lia|].
  cbn [sizeAll map]. fold (sizeAll sz l).
  destruct l as [|y l].
  - simpl. lia.
  - cbn [map] in *. rewrite join_cons by discriminate.
    rewrite !length_append. cbn [String.length]. lia.
Qed.

Lemma size_le_length (v : JSValue) :
  wellFormed v = true -> size v <= String.length (text v).
Proof.
  induction v as [| | b | n | s | items IH | props IH]
    using JSValue_nested_ind; intros Hwf.
  - discriminate Hwf.
  - simpl. lia.
  - destruct b; simpl; lia.
  - destruct (text_head (VNum n) Hwf) as (c & s & -> & _). simpl. lia.
  - destruct (text_head (VStr s) Hwf) as (c & s' & -> & _). simpl. lia.
  - unfold text. cbn [stringify size]. fold text.
    cbn [String.append String.length]. rewrite length_append.
    cbn [wellFormed] in Hwf.
    assert (H : Forall (fun x => size x <= String.length (text x)) items).
    { rewrite forallb_forall in Hwf. rewrite Forall_forall in *.
      intros x Hx. apply IH; [exact Hx | apply Hwf; exact Hx]. }
    pose proof (sizeAll_le_join size text items H). simpl String.length. lia.
  - unfold text. cbn [stringify size].
    cbn [wellFormed] in Hwf. apply andb_true_iff in Hwf as [_ Hwf].
    rewrite (members_text props Hwf).
    cbn [String.append String.length]. rewrite length_append.
    assert (H : Forall (fun kv => size (snd kv) <= String.length (member kv))
                  props).
    { rewrite forallb_forall in Hwf. rewrite Forall_forall in *.
      intros kv Hkv. unfold member. rewrite !length_append.
      specialize (IH kv Hkv (Hwf kv Hkv)). lia. }
    pose proof (sizeAll_le_join (fun kv => size (snd kv)) member props H).
    simpl String.length. lia.
Qed.

(** [JSON.parse] gives back every well-formed value from the text that
    [JSON.stringify] writes for it. *)
Theorem parse_stringify (v : JSValue) :
  wellFormed v = true ->
  stringify v = Some (text v) /\ JSON.parse (text v) = Normal v.
Proof.
  intros Hwf. split; [apply wellFormed_stringify; exact Hwf|].
  unfold JSON.parse.
  rewrite <- (append_nil_r (text v)) at 2.
  rewrite (skipWs_text v EmptyString Hwf).
  destruct (roundtrip_fuel (S (String.length (text v)))) as (HV & _ & _).
  rewrite HV; [reflexivity | exact Hwf | | reflexivity].
  pose proof (size_le_length v Hwf). lia.
Qed.

End JSONFacts.

(* ================================================================== *)
(** * The server handler wrapper: the body it returns *)
(* ================================================================== *)




(* ================================================================== *)
(** * The wrapper: what it answers when something fails *)
(* ================================================================== *)

(** X1. The function that [initApiHandler] returns never throws: whatever
    the event, the schemas, the handler and the platform do, the run ends
    with a response.  (The handler's data is a value of the model, on
    which [JSON.stringify] does not throw.) *)
Theorem initApiHandler_never_throws :
  forall (w : World) (past : list Event) (apiHandler : ApiHandler)
         (inputSchema outputSchema : option ZodType) (event : APIGatewayEvent),
    exists response,
      snd (run w past (initApiHandler apiHandler inputSchema outputSchema event))
      = Normal response.
Proof.
  intros. unfold initApiHandler. rewrite run_bind, run_tryCatch.
  match goal with
  | |- context [snd (run w past ?p)] => destruct (snd (run w past p)) as [flow|e]
  end; cbn [fst snd run bind perform].
  - destruct flow as [r|[o|]]; simpl; eauto.
  - simpl. eauto.
Qed.

(** X2. When the body is accepted and the handler then throws [err] after
    the events [trace], the wrapper logs [err] once after them and answers
    500 with the body "Unknown error", whatever the output schema. *)
Theorem handler_exception_gives_unknown_error :
  forall (w : World) (past : list Event) (apiHandler : ApiHandler)
         (inputSchema outputSchema : option ZodType) (event : APIGatewayEvent)
         (input : JSValue) (trace : list Event) (err : JSError),
    validatedInput inputSchema event = Normal input ->
    run w past (apiHandler (handlerArgs event input)) = (trace, Thrown err) ->
    run w past (initApiHandler apiHandler inputSchema outputSchema event)
    = ((trace ++ [handlerFailureLog err])%list, Normal unknownError).
Proof.
  intros w past apiHandler inputSchema outputSchema event input trace err
         Hinput Hrun.
  unfold initApiHandler. rewrite Hinput. cbn [complete bind].
  rewrite run_bind, run_tryCatch, run_bind, Hrun.
  cbn [fst snd run bind perform eventOf app]. 
  rewrite app_nil_r. reflexivity.
Qed.

Lemma handler_exception_gives_unknown_error_witness :
  run Examples.world [] (initApiHandler Examples.failing None None Sample.event)
  = ([handlerFailureLog (ErrorObj "table unavailable")], Normal unknownError).
Proof.
  exact (handler_exception_gives_unknown_error Examples.world []
           Examples.failing None None Sample.event (VObj []) []
           (ErrorObj "table unavailable") eq_refl eq_refl).
Defined.



(** X4. When the handler's [data] is a string, the output schema is not
    consulted: the string is the response body as it is, with the handler's
    headers and its status code (200 when it gives none). *)
Theorem string_data_passes_through :
  forall (w : World) (past : list Event) (apiHandler : ApiHandler)
         (inputSchema outputSchema : option ZodType) (event : APIGatewayEvent)
         (input : JSValue) (trace : list Event) (out : HandlerOutput)
         (s : string),
    validatedInput inputSchema event = Normal input ->
    run w past (apiHandler (handlerArgs event input)) = (trace, Normal out) ->
    out_data out = VStr s ->
    run w past (initApiHandler apiHandler inputSchema outputSchema event)
    = (trace,
       Normal {| resp_body := Some s;
                 resp_headers := out_headers out;
                 resp_statusCode := orDefaultStatus (out_statusCode out) |}).
Proof.
  intros w past apiHandler inputSchema outputSchema event input trace out s
         Hinput Hrun Hdata.
  rewrite (initApiHandler_after_handler w past apiHandler inputSchema
             outputSchema event input trace out Hinput Hrun).
  destruct out as [data headers statusCode]. cbn [out_data] in Hdata.
  subst data. destruct outputSchema; reflexivity.
Qed.

Lemma string_data_passes_through_witness :
  run Examples.world []
    (initApiHandler (Sample.handler Examples.pong) None
       (Some (Zod.type Registry.heroSchema)) Sample.event)
  = ([], Normal {| resp_body := Some "pong"; resp_headers := None;
                   resp_statusCode := 202 |}).
Proof.
  exact (string_data_passes_through Examples.world []
           (Sample.handler Examples.pong) None
           (Some (Zod.type Registry.heroSchema)) Sample.event (VObj []) []
           Examples.pong "pong" eq_refl eq_refl eq_refl).
Defined.

(** X5. For an event without a body (absent or empty) the handler's input
    is the empty object and the input schema plays no part: the run is the
    run of the wrapper without an input schema. *)
Theorem missing_body_skips_input_schema :
  forall (w : World) (past : list Event) (apiHandler : ApiHandler)
         (inputSchema outputSchema : option ZodType) (event : APIGatewayEvent),
    truthyStr (event_body event) = false ->
    validatedInput inputSchema event = Normal (VObj [])
    /\ run w past (initApiHandler apiHandler inputSchema outputSchema event)
       = run w past (initApiHandler apiHandler None outputSchema event).
Proof.
  intros w past apiHandler inputSchema outputSchema event Hbody.
  assert (Hin : forall s, validatedInput s event = Normal (VObj [])).
  { intros s. unfold validatedInput. rewrite Hbody. destruct s; reflexivity. }
  split; [apply Hin|].
  unfold initApiHandler. rewrite !Hin. reflexivity.
Qed.

Lemma missing_body_skips_input_schema_witness :
  safeParse (Zod.type Registry.AddHeroRequestSchema) (VObj [])
  = ParseFailure
      (mkZodError
         "name: Required; powers: Required; active: Required"
         [mkIssue ["name"] "Required"; mkIssue ["powers"] "Required";
          mkIssue ["active"] "Required"])
  /\ validatedInput (Some (Zod.type Registry.AddHeroRequestSchema))
       Sample.event
     = Normal (VObj []).
Proof.
  split; [reflexivity|].
  exact (proj1 (missing_body_skips_input_schema
                  (Sample.world VNull (Sample.response 200 "OK" "{}")) []
                  (Sample.handler {| out_data := VNull; out_headers := None;
                                     out_statusCode := None |})
                  (Some (Zod.type Registry.AddHeroRequestSchema)) None
                  Sample.event eq_refl)).
Defined.



(* ================================================================== *)
(** * The transport: failures, credentials, the URL and the headers *)
(* ================================================================== *)

(** X7. [makeIAMRequest] refuses an empty domain, and then an empty path,
    before it builds anything: the run is the log of the arguments and the
    log of the failure, and the error says which of the two is missing. *)
Theorem makeIAMRequest_requires_domain_and_path :
  forall (env : ProcessEnv) (w : World) (past : list Event)
         (args : IAMRequestArgs),
    let argsLog := EvConsoleInfo (mkLog "makeIAMRequest args" (LogArgs args)) in
    (args_domain args = EmptyString ->
     run w past (makeIAMRequest env args)
     = ([argsLog; requestFailureLog (ErrorObj "No domain provided") args],
        Thrown (ErrorObj "No domain provided")))
    /\ (args_domain args <> EmptyString -> args_path args = EmptyString ->
        run w past (makeIAMRequest env args)
        = ([argsLog; requestFailureLog (ErrorObj "No path provided") args],
           Thrown (ErrorObj "No path provided"))).
Proof.
  intros env w past args argsLog. unfold makeIAMRequest. split.
  - intros ->. reflexivity.
  - intros Hd ->. apply String.eqb_neq in Hd. simpl. rewrite Hd. reflexivity.
Qed.

(** X8. Every failure of [makeIAMRequest] is logged and thrown again: a
    run that throws [e] ends with the failure entry for [e] and the
    arguments; a run that returns a response logged no error, fetched
    exactly once, and returns what that fetch answered. *)
Theorem makeIAMRequest_logs_every_failure :
  forall (env : ProcessEnv) (w : World) (past : list Event)
         (args : IAMRequestArgs),
    match snd (run w past (makeIAMRequest env args)) with
    | Thrown e =>
        exists before,
          fst (run w past (makeIAMRequest env args))
          = (before ++ [requestFailureLog e args])%list
    | Normal res =>
        existsb isConsoleError (fst (run w past (makeIAMRequest env args)))
        = false
        /\ exists url init,
            fetchCalls (fst (run w past (makeIAMRequest env args)))
            = [(url, init)]
            /\ In (EvFetch url init (Normal res))
                 (fst (run w past (makeIAMRequest env args)))
    end.
Proof.
  intros env w past args.
  unfold makeIAMRequest, signRequest, getSSOCredentials.
  step_run.
  all: try (split; [reflexivity | eexists _, _; split;
                                  [reflexivity | simpl; auto 20]]).
  all: unfold requestFailureLog.
  all: match goal with
       | |- exists before, ?l = _ =>
           exists (removelast l); reflexivity
       end.
Qed.

(** X9. [makeIAMRequest] never retries: a run signs at most once and
    fetches at most once, and never fetches without having signed. *)
Theorem makeIAMRequest_never_retries :
  forall (env : ProcessEnv) (w : World) (past : list Event)
         (args : IAMRequestArgs),
    length (signCalls (fst (run w past (makeIAMRequest env args)))) <= 1
    /\ length (fetchCalls (fst (run w past (makeIAMRequest env args)))) <= 1
    /\ length (fetchCalls (fst (run w past (makeIAMRequest env args))))
       <= length (signCalls (fst (run w past (makeIAMRequest env args)))).
Proof.
  intros env w past args.
  unfold makeIAMRequest, signRequest, getSSOCredentials.
  step_run; simpl; lia.
Qed.

(** X10. The credentials of [signRequest]: with both static keys set the
    signer gets the environment's credentials and nothing else happens;
    without them and without AWS_PROFILE the function logs and throws its
    message; with a profile it asks the SSO provider, whose failure is the
    failure of the call and whose credentials are what the signer gets. *)
Theorem signRequest_credentials :
  forall (env : ProcessEnv) (w : World) (past : list Event)
         (request : HttpRequest),
    (hasStaticCredentials env = true ->
     exists answer,
       run w past (signRequest env request)
       = ([EvSignatureV4Sign (signerInit env (staticCredentials env))
             request answer],
          answer))
    /\ (hasStaticCredentials env = false ->
        truthyStr (env "AWS_PROFILE") = false ->
        let message :=
          "AWS_PROFILE is not set, possibly not using SSO or not logged in" in
        run w past (signRequest env request)
        = ([EvConsoleError (mkLog message LogNothing)],
           Thrown (ErrorObj message)))
    /\ (hasStaticCredentials env = false ->
        truthyStr (env "AWS_PROFILE") = true ->
        exists sso,
          (forall e, sso = Thrown e ->
             run w past (signRequest env request)
             = ([EvFromSSO (orEmpty (env "AWS_PROFILE")) sso], Thrown e))
          /\ (forall credentials, sso = Normal credentials ->
              exists answer,
                run w past (signRequest env request)
                = ([EvFromSSO (orEmpty (env "AWS_PROFILE")) sso;
                    EvSignatureV4Sign (signerInit env credentials) request
                      answer],
                   answer))).
Proof.
  intros env w past request. unfold hasStaticCredentials.
  unfold signRequest, getSSOCredentials, staticCredentials, signerInit.
  cbn [accessKeyId secretAccessKey].
  destruct (truthyStr (env "AWS_ACCESS_KEY_ID"));
    destruct (truthyStr (env "AWS_SECRET_ACCESS_KEY"));
    destruct (truthyStr (env "AWS_PROFILE")); cbn [negb orb andb].
  all: repeat split; try discriminate; intros.
  all: try (simpl;
            match goal with
            | |- context [answer ?w ?X ?op ?p] =>
                exists (answer w X op p); destruct (answer w X op p)
            end; reflexivity).
  all: try reflexivity.
  all: simpl;
    match goal with
    | |- context [answer ?w ?X ?op ?p] =>
        exists (answer w X op p)
    end; split; [intros e He | intros c Hc]; rewrite ?He, ?Hc; simpl;
    [reflexivity|].
  all: match goal with
       | |- context [answer ?w ?X ?op ?p] =>
           exists (answer w X op p); destruct (answer w X op p)
       end; reflexivity.
Qed.

Module JSObjectFacts.
Import JSObject.

Lemma get_define {V : Type} (k k' : string) (v : V) (o : list (string * V)) :
  get k' (define k v o) = if String.eqb k' k then Some v else get k' o.
Proof.
  induction o as [|[k0 v0] o IH]; simpl.
  - reflexivity.
  - destruct (String.eqb_spec k k0) as [->|Hne]; simpl.
    + destruct (String.eqb k' k0); reflexivity.
    + destruct (indexBefore k k0); simpl.
      * reflexivity.
      * rewrite IH. destruct (String.eqb_spec k' k0) as [->|];
          [|reflexivity].
        destruct (String.eqb_spec k0 k) as [->|]; [contradiction|reflexivity].
Qed.

Lemma get_spread_absent {V : Type} (k : string) (b a : list (string * V)) :
  ~ In k (map fst b) -> get k (spread a b) = get k a.
Proof.
  unfold spread. revert a. induction b as [|[k0 v0] b IH]; intros a Hk; simpl.
  - reflexivity.
  - rewrite IH by (intros H; apply Hk; right; exact H).
    rewrite get_define. destruct (String.eqb_spec k k0) as [->|]; [|reflexivity].
    exfalso. apply Hk. left. reflexivity.
Qed.

Lemma get_spread_present {V : Type} (k : string) (v : V)
  (b a : list (string * V)) :
  NoDup (map fst b) -> In (k, v) b -> get k (spread a b) = Some v.
Proof.
  unfold spread. revert a. induction b as [|[k0 v0] b IH]; intros a Hnd Hin.
  - contradiction.
  - simpl in Hnd. inversion Hnd as [|x l Hk0 Hnd']; subst.
    destruct Hin as [E | Hin].
    + injection E as -> ->. simpl.
      change (fold_left (fun acc kv => define (fst kv) (snd kv) acc) b
                (define k v a)) with (spread (define k v a) b).
      rewrite get_spread_absent by exact Hk0.
      rewrite get_define, String.eqb_refl. reflexivity.
    + simpl. apply IH; assumption.
Qed.

End JSObjectFacts.

Lemma prefix_split (p s : string) :
  String.prefix p s = true -> exists r, s = p ++ r.
Proof.
  revert s. induction p as [|c p IH]; intros s H.
  - exists s. reflexivity.
  - destruct s as [|c' s]; simpl in H; [discriminate|].
    destruct (ascii_dec c c') as [->|]; [|discriminate].
    destruct (IH s H) as (r & ->). exists r. reflexivity.
Qed.

Lemma hasChar_append (c : ascii) (a b : string) :
  hasChar c (a ++ b) = hasChar c a || hasChar c b.
Proof.
  induction a as [|x a IH]; simpl; [reflexivity|].
  rewrite IH, orb_assoc. reflexivity.
Qed.

Lemma replace_scheme_absent (rep s : string) :
  hasChar ":" s = false -> Str.replace "https://" rep s = s.
Proof.
  induction s as [|c s IH]; intros H.
  - reflexivity.
  - cbn [Str.replace].
    destruct (String.prefix "https://" (String c s)) eqn:Hp.
    + apply prefix_split in Hp as (r & Hr). rewrite Hr in H.
      rewrite hasChar_append in H. discriminate H.
    + simpl in H. apply orb_false_iff in H as [_ H]. rewrite (IH H).
      reflexivity.
Qed.

Lemma prefix_refl_append (p r : string) : String.prefix p (p ++ r) = true.
Proof.
  induction p as [|c p IH]; simpl.
  - destruct r; reflexivity.
  - destruct (ascii_dec c c); [exact IH | contradiction].
Qed.

Lemma replace_scheme_present (s : string) :
  Str.replace "https://" EmptyString ("https://" ++ s) = s.
Proof.
  cbn [String.append Str.replace].
  change (String "h" (String "t" (String "t" (String "p" (String "s"
            (String ":" (String "/" (String "/" s))))))))
    with ("https://" ++ s).
  rewrite prefix_refl_append. reflexivity.
Qed.

Lemma endsWithSlash_append (s : string) :
  Str.endsWithSlash (s ++ "/") = true.
Proof.
  induction s as [|c s IH]; [reflexivity|].
  cbn [String.append Str.endsWithSlash].
  destruct (s ++ "/") eqn:E; [destruct s; discriminate E | exact IH].
Qed.

Lemma dropLast_append (s : string) : Str.dropLast (s ++ "/") = s.
Proof.
  induction s as [|c s IH]; [reflexivity|].
  cbn [String.append Str.dropLast].
  destruct (s ++ "/") eqn:E; [destruct s; discriminate E|].
  rewrite IH. reflexivity.
Qed.

Lemma first_url (env : ProcessEnv) (w : World) (past : list Event)
  (args : IAMRequestArgs) :
  args_domain args <> EmptyString ->
  args_path args <> EmptyString ->
  let cleanDomain := Str.replace "https://" EmptyString (args_domain args) in
  let domain :=
    if Str.endsWithSlash cleanDomain then Str.dropLast cleanDomain
    else cleanDomain in
  hd_error (urlCalls (fst (run w past (makeIAMRequest env args))))
  = Some ("https://" ++ domain ++ "/" ++ args_path args).
Proof.
  intros Hd Hp. apply String.eqb_neq in Hd, Hp.
  unfold makeIAMRequest. cbn [bind perform run tryCatch fst snd eventOf].
  rewrite Hd, Hp. reflexivity.
Qed.

(** X11. The spelling of the domain does not matter: with or without the
    scheme "https://" and with or without one trailing slash, the URL that
    [makeIAMRequest] builds is "https://" + domain + "/" + path. *)
Theorem domain_spelling_is_normalized :
  forall (env : ProcessEnv) (w : World) (past : list Event)
         (args : IAMRequestArgs) (d : string),
    d <> EmptyString ->
    hasChar ":" d = false ->
    Str.endsWithSlash d = false ->
    args_path args <> EmptyString ->
    Forall
      (fun domain =>
         hd_error (urlCalls
                     (fst (run w past
                             (makeIAMRequest env (withDomain domain args)))))
         = Some ("https://" ++ d ++ "/" ++ args_path args))
      [d; d ++ "/"; "https://" ++ d; "https://" ++ d ++ "/"].
Proof.
  intros env w past args d Hd Hcolon Hslash Hpath.
  assert (Hne : forall x, x ++ "/" <> EmptyString)
    by (intros x; destruct x; discriminate).
  assert (Hc' : hasChar ":" (d ++ "/") = false)
    by (rewrite hasChar_append, Hcolon; reflexivity).
  repeat constructor.
  - rewrite first_url; cbn [withDomain args_domain args_path]; auto.
    rewrite replace_scheme_absent, Hslash by exact Hcolon. reflexivity.
  - rewrite first_url; cbn [withDomain args_domain args_path]; auto.
    rewrite replace_scheme_absent by exact Hc'.
    rewrite endsWithSlash_append, dropLast_append. reflexivity.
  - rewrite first_url; cbn [withDomain args_domain args_path]; auto;
      [|discriminate].
    rewrite replace_scheme_present, Hslash. reflexivity.
  - rewrite first_url; cbn [withDomain args_domain args_path]; auto;
      [|discriminate].
    rewrite replace_scheme_present.
    rewrite endsWithSlash_append, dropLast_append. reflexivity.
Qed.

Lemma domain_spelling_is_normalized_witness :
  Forall
    (fun domain =>
       hd_error (urlCalls
                   (fst (run Examples.world []
                           (makeIAMRequest Sample.staticEnv
                              (withDomain domain (Sample.iamArgs None))))))
       = Some ("https://" ++ Sample.host ++ "/" ++ "/heroes"))
    [Sample.host; Sample.host ++ "/"; "https://" ++ Sample.host;
     "https://" ++ Sample.host ++ "/"].
Proof.
  apply (domain_spelling_is_normalized Sample.staticEnv Examples.world []
           (Sample.iamArgs None) Sample.host);
    [discriminate | reflexivity | reflexivity | discriminate].
Defined.

Lemma signed_request_headers (env : ProcessEnv) (w : World)
  (past : list Event) (args : IAMRequestArgs) :
  forall init request,
    In (init, request)
       (signCalls (fst (run w past (makeIAMRequest env args)))) ->
    req_headers request = requestHeaders env args (req_hostname request).
Proof.
  unfold makeIAMRequest, signRequest, getSSOCredentials.
  step_run.
  all: intros init request Hin; simpl in Hin;
    repeat (destruct Hin as [Hin | Hin]); try contradiction.
  all: injection Hin as _ <-; reflexivity.
Qed.

(** X12. In the request that is signed, a header given by the caller wins
    over the ones [makeIAMRequest] sets, "Content-Type", "sourceFn" and
    "host" included; a name the caller left alone has the function's value:
    the function name for "sourceFn", "application/json" for "Content-Type"
    exactly when there is a body, the URL's host for "host". *)
Theorem caller_headers_take_precedence :
  forall (env : ProcessEnv) (w : World) (past : list Event)
         (args : IAMRequestArgs) (init : SignatureV4Init)
         (request : HttpRequest),
    In (init, request)
       (signCalls (fst (run w past (makeIAMRequest env args)))) ->
    NoDup (map fst (match args_headers args with
                    | Some h => h
                    | None => []
                    end)) ->
    (forall k v,
        In (k, v) (match args_headers args with Some h => h | None => [] end) ->
        JSObject.get k (req_headers request) = Some v)
    /\ (forall k,
           ~ In k (map fst (match args_headers args with
                            | Some h => h
                            | None => []
                            end)) ->
           JSObject.get k (req_headers request)
           = if String.eqb k "sourceFn"
             then Some (orEmpty (env "AWS_LAMBDA_FUNCTION_NAME"))
             else if String.eqb k "Content-Type"
             then (if truthyStr (args_body args)
                   then Some "application/json" else None)
             else if String.eqb k "host" then Some (req_hostname request)
             else None).
Proof.
  intros env w past args init request Hin Hnd.
  rewrite (signed_request_headers env w past args init request Hin).
  unfold requestHeaders. split.
  - intros k v Hkv. apply JSObjectFacts.get_spread_present; assumption.
  - intros k Hk. rewrite JSObjectFacts.get_spread_absent by exact Hk.
    rewrite JSObjectFacts.get_define.
    destruct (String.eqb k "sourceFn"); [reflexivity|].
    destruct (truthyStr (args_body args)); simpl.
    + destruct (String.eqb_spec k "Content-Type") as [->|]; [reflexivity|].
      reflexivity.
    + destruct (String.eqb_spec k "Content-Type") as [->|]; reflexivity.
Qed.

Lemma caller_headers_take_precedence_witness :
  JSObject.get "Content-Type" (req_headers (snd Examples.signedText))
  = Some "text/plain".
Proof.
  destruct (caller_headers_take_precedence Sample.staticEnv Examples.world []
              Examples.textArgs (fst Examples.signedText)
              (snd Examples.signedText)) as [H _].
  - left. reflexivity.
  - repeat constructor; simpl; intuition discriminate.
  - apply H. left. reflexivity.
Defined.

(* ================================================================== *)
(** * The client: templates, placeholders and the transport's answer *)
(* ================================================================== *)

Module TemplateFacts.
Import Template.

Lemma drop_append (a b : string) : Str.drop (String.length a) (a ++ b) = b.
Proof. induction a as [|c a IH]; simpl; [destruct b; reflexivity | exact IH]. Qed.

Lemma replace_skip (pat rep t s : string) (c0 : ascii) (pat' : string) :
  pat = String c0 pat' ->
  hasChar c0 t = false ->
  Str.replace pat rep (t ++ s) = t ++ Str.replace pat rep s.
Proof.
  intros -> Ht. induction t as [|c t IH]; [reflexivity|].
  simpl in Ht. apply orb_false_iff in Ht as [Hc Ht].
  cbn [String.append Str.replace String.prefix].
  destruct (ascii_dec c0 c) as [->|_].
  - rewrite Ascii.eqb_refl in Hc. discriminate Hc.
  - rewrite (IH Ht). reflexivity.
Qed.

Lemma prefix_name (k n rest : string) :
  hasChar "}" k = false -> hasChar "}" n = false ->
  String.prefix (k ++ "}") (n ++ String "}" rest) = true -> k = n.
Proof.
  revert n. induction k as [|c k IH]; intros [|c' n] Hk Hn H.
  - reflexivity.
  - exfalso. cbn [hasChar] in Hn. apply orb_false_iff in Hn as [Hc' _].
    cbn [String.append String.prefix] in H.
    destruct (ascii_dec "}" c') as [E|]; [|discriminate H].
    rewrite <- E, Ascii.eqb_refl in Hc'. discriminate Hc'.
  - exfalso. cbn [hasChar] in Hk. apply orb_false_iff in Hk as [Hc _].
    cbn [String.append String.prefix] in H.
    destruct (ascii_dec c "}") as [E|]; [|discriminate H].
    rewrite E, Ascii.eqb_refl in Hc. discriminate Hc.
  - cbn [hasChar] in Hk, Hn.
    apply orb_false_iff in Hk as [_ Hk]. apply orb_false_iff in Hn as [_ Hn].
    cbn [String.append String.prefix] in H.
    destruct (ascii_dec c c') as [->|]; [|discriminate H].
    f_equal. apply (IH n Hk Hn H).
Qed.

Lemma replace_render (k rep : string) (ps : list Piece) :
  hasChar "}" k = false ->
  forallb wellFormedPiece ps = true ->
  Str.replace ("{" ++ k ++ "}") rep (pathOf ps) = pathOf (fillFirst k rep ps).
Proof.
  intros Hk. change ("{" ++ k ++ "}") with (String "{" (k ++ "}")).
  induction ps as [|[text|name] ps IH]; intros Hwf.
  - reflexivity.
  - cbn [forallb wellFormedPiece] in Hwf.
    apply andb_true_iff in Hwf as [Ht Hps]. apply negb_true_iff in Ht.
    cbn [pathOf pieceText fillFirst].
    rewrite (replace_skip _ rep text _ "{" (k ++ "}") eq_refl Ht), (IH Hps).
    reflexivity.
  - cbn [forallb wellFormedPiece] in Hwf.
    apply andb_true_iff in Hwf as [Hn Hps].
    apply andb_true_iff in Hn as [Hn Hclose].
    apply andb_true_iff in Hn as [_ Hopen].
    apply negb_true_iff in Hclose, Hopen.
    cbn [pathOf pieceText fillFirst].
    destruct (String.eqb_spec name k) as [->|Hne].
    + change (("{" ++ k ++ "}") ++ pathOf ps)
        with (String "{" ((k ++ "}") ++ pathOf ps)).
      cbn [Str.replace].
      change (String "{" ((k ++ "}") ++ pathOf ps))
        with (String "{" (k ++ "}") ++ pathOf ps).
      rewrite prefix_refl_append, drop_append. reflexivity.
    + change (("{" ++ name ++ "}") ++ pathOf ps)
        with (String "{" ((name ++ "}") ++ pathOf ps)).
      cbn [Str.replace String.prefix].
      destruct (ascii_dec "{" "{") as [_|F]; [|contradiction].
      rewrite JSONFacts.append_assoc. cbn [String.append].
      destruct (String.prefix (k ++ "}") (name ++ String "}" (pathOf ps)))
        eqn:Hp.
      * apply prefix_name in Hp; [|assumption..]. congruence.
      * change (pathOf (Hole name :: fillFirst k rep ps))
          with (String "{" ((name ++ "}") ++ pathOf (fillFirst k rep ps))).
        f_equal.
        change (String "}" (pathOf ps)) with ("}" ++ pathOf ps).
        rewrite <- JSONFacts.append_assoc.
        rewrite (replace_skip _ rep (name ++ "}") _ "{" (k ++ "}") eq_refl).
        -- rewrite (IH Hps). reflexivity.
        -- rewrite hasChar_append, Hopen. reflexivity.
Qed.

Lemma encode_no_open (s : string) :
  hasChar "{" (encodeURIComponent s) = false.
Proof.
  induction s as [|c s IH]; [reflexivity|].
  cbn [encodeURIComponent].
  destruct (uriUnreserved c) eqn:Hu.
  - cbn [hasChar]. rewrite IH, orb_false_r.
    destruct c as [[] [] [] [] [] [] [] []]; try reflexivity; discriminate Hu.
  - cbn [hasChar]. rewrite hasChar_append, IH, orb_false_r.
    destruct c as [[] [] [] [] [] [] [] []]; reflexivity.
Qed.

Lemma fillOne_absent (k v : string) (ps : list Piece) :
  ~ In k (holes ps) -> map (fillOne k v) ps = ps.
Proof.
  induction ps as [|[text|name] ps IH]; intros Hk; simpl.
  - reflexivity.
  - rewrite IH by exact Hk. reflexivity.
  - destruct (String.eqb_spec name k) as [->|].
    + exfalso. apply Hk. left. reflexivity.
    + rewrite IH by (intros H; apply Hk; right; exact H). reflexivity.
Qed.

Lemma fillFirst_all (k v : string) (ps : list Piece) :
  NoDup (holes ps) -> fillFirst k v ps = map (fillOne k v) ps.
Proof.
  induction ps as [|[text|name] ps IH]; intros Hnd; simpl.
  - reflexivity.
  - rewrite IH by exact Hnd. reflexivity.
  - simpl in Hnd. inversion Hnd as [|x l Hx Hnd']; subst.
    destruct (String.eqb_spec name k) as [->|].
    + rewrite fillOne_absent by exact Hx. reflexivity.
    + rewrite IH by exact Hnd'. reflexivity.
Qed.

Lemma holes_fillOne (k v : string) (ps : list Piece) :
  holes (map (fillOne k v) ps)
  = filter (fun n => negb (String.eqb n k)) (holes ps).
Proof.
  induction ps as [|[text|name] ps IH]; simpl.
  - reflexivity.
  - exact IH.
  - destruct (String.eqb name k); simpl; rewrite IH; reflexivity.
Qed.

Lemma wellFormed_fillOne (k v : string) (ps : list Piece) :
  hasChar "{" v = false ->
  forallb wellFormedPiece ps = true ->
  forallb wellFormedPiece (map (fillOne k v) ps) = true.
Proof.
  intros Hv. induction ps as [|[text|name] ps IH]; intros H; simpl in *.
  - reflexivity.
  - apply andb_true_iff in H as [H1 H2]. rewrite H1, (IH H2). reflexivity.
  - apply andb_true_iff in H as [H1 H2].
    destruct (String.eqb name k); simpl.
    + rewrite Hv, (IH H2). reflexivity.
    + rewrite H1, (IH H2). reflexivity.
Qed.

Lemma fill_fillOne (k v : string) (es : list (string * string)) (p : Piece) :
  fill es (fillOne k (encodeURIComponent v) p) = fill ((k, v) :: es) p.
Proof.
  destruct p as [text|name]; simpl; [reflexivity|].
  destruct (String.eqb name k); reflexivity.
Qed.

Lemma fill_nil (ps : list Piece) : map (fill []) ps = ps.
Proof.
  induction ps as [|[text|name] ps IH]; simpl; rewrite ?IH; reflexivity.
Qed.

Lemma substitute_all (entries : list (string * string)) :
  forall ps,
    (forall k v, In (k, v) entries -> hasChar "}" k = false) ->
    forallb wellFormedPiece ps = true ->
    NoDup (holes ps) ->
    fold_left
      (fun url entry =>
         Str.replace ("{" ++ fst entry ++ "}")
           (encodeURIComponent (snd entry)) url)
      entries (pathOf ps)
    = pathOf (map (fill entries) ps).
Proof.
  induction entries as [|[k v] entries IH]; intros ps Hkeys Hwf Hnd.
  - simpl. rewrite fill_nil. reflexivity.
  - cbn [fold_left fst snd].
    rewrite replace_render;
      [| apply (Hkeys k v); left; reflexivity | exact Hwf].
    rewrite fillFirst_all by exact Hnd.
    rewrite IH.
    + rewrite map_map. f_equal. apply map_ext. intros p. apply fill_fillOne.
    + intros k' v' H. apply (Hkeys k' v'). right. exact H.
    + apply wellFormed_fillOne; [apply encode_no_open | exact Hwf].
    + rewrite holes_fillOne. apply NoDup_filter. exact Hnd.
Qed.

Lemma invocation_path (w : World) (past : list Event) (domain key : string)
  (endpoint : ApiEndpointDefinition) (params : ClientParams)
  (args : IAMRequestArgs) :
  In args (iamRequestCalls
             (fst (run w past (buildClientFunction domain endpoint key params)))) ->
  args_path args
  = fold_left
      (fun url entry =>
         Str.replace ("{" ++ fst entry ++ "}")
           (encodeURIComponent (snd entry)) url)
      (match p_pathParameters params with Some o => o | None => [] end)
      (if Str.startsWith "/" (ep_path endpoint) then ep_path endpoint
       else "/" ++ ep_path endpoint).
Proof.
  unfold buildClientFunction.
  destruct (ep_requestSchema endpoint) as [schema|];
    [destruct (truthy (p_body params));
     [destruct (safeParse schema (p_body params)) as [data|error]|]|].
  2: { simpl. intros []. }
  all: destruct (ep_responseSchema endpoint) as [rs|]; step_run.
  all: try (destruct (safeParse rs a); simpl).
  all: intros [<- | []]; reflexivity.
Qed.

Lemma untilClose_name (n r : string) :
  hasChar "}" n = false ->
  ParamRegex.untilClose (n ++ String "}" r) = Some (n, r).
Proof.
  induction n as [|c n IH]; intros H; [reflexivity|].
  cbn [hasChar] in H. apply orb_false_iff in H as [Hc Hn].
  cbn [String.append ParamRegex.untilClose].
  rewrite Ascii.eqb_sym in Hc. rewrite Hc, (IH Hn). reflexivity.
Qed.

Lemma execAll_skip (t r : string) :
  hasChar "{" t = false ->
  forall fuel, String.length (t ++ r) < fuel ->
    ParamRegex.execAll fuel (t ++ r)
    = ParamRegex.execAll (fuel - String.length t) r.
Proof.
  intros Ht. induction t as [|c t IH]; intros fuel Hf.
  - simpl. rewrite Nat.sub_0_r. reflexivity.
  - cbn [hasChar] in Ht. apply orb_false_iff in Ht as [Hc Ht].
    destruct fuel as [|f]; [simpl in Hf; lia|].
    cbn [String.append ParamRegex.execAll ParamRegex.matchHere].
    rewrite Ascii.eqb_sym in Hc. rewrite Hc.
    rewrite (IH Ht f) by (simpl in Hf; lia). reflexivity.
Qed.

Lemma execAll_render (ps : list Piece) :
  forallb wellFormedPiece ps = true ->
  forall fuel, String.length (pathOf ps) < fuel ->
    ParamRegex.execAll fuel (pathOf ps) = holes ps.
Proof.
  induction ps as [|[text|name] ps IH]; intros Hwf fuel Hf.
  - destruct fuel; [simpl in Hf; lia | reflexivity].
  - cbn [forallb wellFormedPiece] in Hwf.
    apply andb_true_iff in Hwf as [Ht Hps]. apply negb_true_iff in Ht.
    cbn [pathOf pieceText holes] in *.
    rewrite execAll_skip by assumption.
    apply IH; [exact Hps|]. rewrite JSONFacts.length_append in Hf. lia.
  - cbn [forallb wellFormedPiece] in Hwf.
    apply andb_true_iff in Hwf as [Hn Hps].
    apply andb_true_iff in Hn as [Hn Hclose].
    apply andb_true_iff in Hn as [Hne _].
    apply negb_true_iff in Hclose, Hne.
    cbn [pathOf pieceText holes] in *.
    destruct fuel as [|f]; [lia|].
    change (("{" ++ name ++ "}") ++ pathOf ps)
      with (String "{" ((name ++ "}") ++ pathOf ps)) in *.
    rewrite JSONFacts.append_assoc in *. cbn [String.append] in *.
    cbn [ParamRegex.execAll ParamRegex.matchHere].
    change (Ascii.eqb "{" "{") with true. cbv iota.
    rewrite untilClose_name by exact Hclose.
    destruct name as [|c name]; [discriminate Hne|].
    f_equal. apply IH; [exact Hps|].
    cbn [String.length] in Hf. rewrite JSONFacts.length_append in Hf.
    cbn [String.length] in Hf. lia.
Qed.

End TemplateFacts.



(** X14. The names that the regular expression of
    [zodPathParametersSchema] captures in a well-formed template are its
    placeholder names, all of them and in order. *)
Theorem captures_of_template :
  forall ps : list Template.Piece,
    forallb Template.wellFormedPiece ps = true ->
    ParamRegex.captures (Template.pathOf ps) = Template.holes ps.
Proof.
  intros ps Hwf. unfold ParamRegex.captures.
  apply TemplateFacts.execAll_render; [exact Hwf | lia].
Qed.

Lemma captures_of_template_witness :
  ParamRegex.captures "/heroes/{hero}/rescues" = ["hero"].
Proof. exact (captures_of_template Examples.rescuesTemplate eq_refl). Defined.

Module CaptureFacts.
Import ParamRegex.

Lemma untilClose_sound (s n r : string) :
  untilClose s = Some (n, r) ->
  s = n ++ String "}" r /\ hasChar "}" n = false.
Proof.
  revert n r. induction s as [|c s IH]; intros n r H; [discriminate H|].
  cbn [untilClose] in H.
  destruct (Ascii.eqb_spec c "}") as [->|Hc].
  - injection H as <- <-. split; reflexivity.
  - destruct (untilClose s) as [[n' r']|]; [|discriminate H].
    injection H as <- <-. destruct (IH n' r' eq_refl) as [-> Hn].
    split; [reflexivity|]. cbn [hasChar]. rewrite Hn, orb_false_r.
    apply Ascii.eqb_neq. congruence.
Qed.

Lemma matchHere_sound (s n r : string) :
  matchHere s = Some (n, r) ->
  s = "{" ++ n ++ "}" ++ r /\ n <> EmptyString /\ hasChar "}" n = false.
Proof.
  destruct s as [|c s]; [discriminate|]. cbn [matchHere].
  destruct (Ascii.eqb_spec c "{") as [->|]; [|discriminate].
  destruct (untilClose s) as [[[|c1 n'] r']|] eqn:Hu; try discriminate.
  intros H. injection H as <- <-.
  destruct (untilClose_sound _ _ _ Hu) as [-> Hn].
  repeat split; [discriminate | exact Hn].
Qed.

Lemma execAll_sound (fuel : nat) :
  forall s name,
    In name (execAll fuel s) ->
    name <> EmptyString /\ hasChar "}" name = false
    /\ exists pre post, s = pre ++ "{" ++ name ++ "}" ++ post.
Proof.
  induction fuel as [|f IH]; intros s name Hin; [contradiction|].
  cbn [execAll] in Hin.
  destruct (matchHere s) as [[n r]|] eqn:Hm.
  - destruct (matchHere_sound _ _ _ Hm) as (Hs & Hne & Hn).
    destruct Hin as [<- | Hin].
    + repeat split; try assumption. exists EmptyString, r. exact Hs.
    + destruct (IH r name Hin) as (H1 & H2 & pre & post & Hr).
      repeat split; try assumption.
      exists ("{" ++ n ++ "}" ++ pre), post. rewrite Hs, Hr.
      cbn [String.append]. f_equal. rewrite !JSONFacts.append_assoc.
      reflexivity.
  - destruct s as [|c s]; [contradiction|].
    destruct (IH s name Hin) as (H1 & H2 & pre & post & Hr).
    repeat split; try assumption.
    exists (String c pre), post. rewrite Hr. reflexivity.
Qed.

End CaptureFacts.

(** X15. In any path at all, a captured name is not empty, has no closing
    brace, and stands in the path between braces. *)
Theorem captured_names_are_placeholders :
  forall (path name : string),
    In name (ParamRegex.captures path) ->
    name <> EmptyString /\ hasChar "}" name = false
    /\ exists pre post, path = pre ++ "{" ++ name ++ "}" ++ post.
Proof. intros path name. apply CaptureFacts.execAll_sound. Qed.

Lemma captured_names_are_placeholders_witness :
  hasChar "}" "hero" = false
  /\ exists pre post,
      "/heroes/{hero}/rescues" = pre ++ "{" ++ "hero" ++ "}" ++ post.
Proof.
  exact (proj2 (captured_names_are_placeholders "/heroes/{hero}/rescues"
                  "hero" (or_introl eq_refl))).
Defined.

(** X16. After the call to [iamRequest]: when it throws, the client
    function throws the same error and does nothing more (no log); when it
    answers, at most one validation error is logged, and then the time is
    read and one entry is logged with the duration (end minus start), the
    method, and the URL, which is the domain followed by the requested
    path. *)
Theorem invocation_after_transport :
  forall (w : World) (past : list Event) (domain key : string)
         (endpoint : ApiEndpointDefinition) (params : ClientParams)
         (now : Z) (args : IAMRequestArgs) (answer : Completion JSValue)
         (rest : list Event),
    fst (run w past (buildClientFunction domain endpoint key params))
    = EvDateGetTime now :: EvIamRequest args answer :: rest ->
    match answer with
    | Thrown e =>
        rest = []
        /\ snd (run w past (buildClientFunction domain endpoint key params))
           = Thrown e
    | Normal response =>
        exists validation end_,
          rest = (validation ++
                  [EvDateGetTime end_;
                   EvConsoleInfo
                     (mkLog ("apiClient." ++ key)
                        (LogInvocation (end_ - now)%Z (ep_method endpoint)
                           (domain ++ args_path args)))])%list
          /\ (validation = [] \/ exists entry, validation = [EvConsoleError entry])
    end.
Proof.
  intros w past domain key endpoint params now args answer rest.
  unfold buildClientFunction.
  destruct (ep_requestSchema endpoint) as [schema|];
    [destruct (truthy (p_body params));
     [destruct (safeParse schema (p_body params)) as [data|error]|]|].
  2: { simpl. discriminate. }
  all: destruct (ep_responseSchema endpoint) as [rs|]; step_run.
  all: try (destruct (safeParse rs a); simpl).
  all: intros H; injection H as <- <- <- <-.
  all: try (split; reflexivity).
  all: try (eexists [], _; split; [reflexivity | left; reflexivity]).
  all: eexists [_], _; split; [reflexivity | right; eauto].
Qed.

Lemma invocation_after_transport_witness :
  exists validation end_,
    skipn 2
      (fst (run Examples.world []
              (buildClientFunction Sample.domain Registry.addHero "addHero"
                 (Sample.params Sample.superman []))))
    = (validation ++
       [EvDateGetTime end_;
        EvConsoleInfo
          (mkLog "apiClient.addHero"
             (LogInvocation (end_ - 1700000000000)%Z POST
                (Sample.domain ++ "/heroes")))])%list
    /\ (validation = [] \/ exists entry, validation = [EvConsoleError entry]).
Proof.
  exact (invocation_after_transport Examples.world [] Sample.domain
           "addHero" Registry.addHero (Sample.params Sample.superman [])
           1700000000000%Z
           (Examples.sent Registry.addHero "addHero"
              (Sample.params Sample.superman []))
           (Normal Sample.noHeroes)
           (skipn 2
              (fst (run Examples.world []
                      (buildClientFunction Sample.domain Registry.addHero
                         "addHero" (Sample.params Sample.superman [])))))
           eq_refl).
Defined.

Module ClientFacts.
Import JSObject.

Lemma get_set {V : Type} (k k' : string) (v : V) (o : list (string * V)) :
  get k' (set k v o)
  = if String.eqb k "__proto__" then get k' o
    else if String.eqb k' k then Some v else get k' o.
Proof.
  unfold set. destruct (String.eqb k "__proto__"); [reflexivity|].
  apply JSObjectFacts.get_define.
Qed.

Lemma get_fold_set_absent {A V : Type} (f : string * A -> V) (k : string)
  (es : list (string * A)) (o : list (string * V)) :
  ~ In k (map fst es) ->
  get k (fold_left (fun c e => set (fst e) (f e) c) es o) = get k o.
Proof.
  revert o. induction es as [|[k0 a] es IH]; intros o Hk; simpl.
  - reflexivity.
  - rewrite IH by (intros H; apply Hk; right; exact H).
    rewrite get_set. destruct (String.eqb k0 "__proto__"); [reflexivity|].
    destruct (String.eqb_spec k k0) as [->|]; [|reflexivity].
    exfalso. apply Hk. left. reflexivity.
Qed.

Lemma get_fold_set_present {A V : Type} (f : string * A -> V) (k : string)
  (a : A) (es : list (string * A)) (o : list (string * V)) :
  NoDup (map fst es) -> In (k, a) es -> k <> "__proto__" ->
  get k (fold_left (fun c e => set (fst e) (f e) c) es o) = Some (f (k, a)).
Proof.
  revert o. induction es as [|[k0 a0] es IH]; intros o Hnd Hin Hk.
  - contradiction.
  - simpl in Hnd. inversion Hnd as [|x l Hk0 Hnd']; subst.
    destruct Hin as [E | Hin].
    + injection E as -> ->. simpl.
      rewrite get_fold_set_absent by exact Hk0.
      rewrite get_set. apply String.eqb_neq in Hk. rewrite Hk.
      rewrite String.eqb_refl. reflexivity.
    + simpl. apply IH; assumption.
Qed.

End ClientFacts.

(** X17. [createApiClient] gives every endpoint key (other than
    "__proto__") a function of its own, built for that endpoint and the
    base URL, with the endpoint's description, name, schemas and the
    path-parameter schema of its path; a key that names no endpoint has no
    function. *)
Theorem createApiClient_lookup :
  forall (endpoints : JSObject.t ApiEndpointDefinition) (baseUrl : string),
    NoDup (map fst endpoints) ->
    (forall key endpoint,
        In (key, endpoint) endpoints -> key <> "__proto__" ->
        JSObject.get key (createApiClient endpoints baseUrl)
        = Some {| fn_call := buildClientFunction baseUrl endpoint key;
                  fn_description := ep_description endpoint;
                  fn_endpointName := key;
                  fn_requestSchema := ep_requestSchema endpoint;
                  fn_responseSchema := ep_responseSchema endpoint;
                  fn_pathParametersSchema :=
                    zodPathParametersSchema (ep_path endpoint) |})
    /\ (forall key,
           ~ In key (map fst endpoints) ->
           JSObject.get key (createApiClient endpoints baseUrl) = None).
Proof.
  intros endpoints baseUrl Hnd. unfold createApiClient. split.
  - intros key endpoint Hin Hkey.
    rewrite (ClientFacts.get_fold_set_present
               (fun entry =>
                  {| fn_call := buildClientFunction baseUrl (snd entry) (fst entry);
                     fn_description := ep_description (snd entry);
                     fn_endpointName := fst entry;
                     fn_requestSchema := ep_requestSchema (snd entry);
                     fn_responseSchema := ep_responseSchema (snd entry);
                     fn_pathParametersSchema :=
                       zodPathParametersSchema (ep_path (snd entry)) |})
               key endpoint endpoints [] Hnd Hin Hkey).
    reflexivity.
  - intros key Hkey.
    rewrite (ClientFacts.get_fold_set_absent
               (fun entry =>
                  {| fn_call := buildClientFunction baseUrl (snd entry) (fst entry);
                     fn_description := ep_description (snd entry);
                     fn_endpointName := fst entry;
                     fn_requestSchema := ep_requestSchema (snd entry);
                     fn_responseSchema := ep_responseSchema (snd entry);
                     fn_pathParametersSchema :=
                       zodPathParametersSchema (ep_path (snd entry)) |})
               key endpoints [] Hkey).
    reflexivity.
Qed.

Lemma createApiClient_lookup_witness :
  option_map fn_endpointName
    (JSObject.get "addHero" (createApiClient Examples.endpoints Sample.domain))
  = Some "addHero"
  /\ JSObject.get "searchHeroes"
       (createApiClient Examples.endpoints Sample.domain)
     = None.
Proof.
  destruct (createApiClient_lookup Examples.endpoints Sample.domain)
    as [Hp Ha].
  - repeat constructor; simpl; intuition discriminate.
  - split.
    + rewrite (Hp "addHero" Registry.addHero);
        [reflexivity | left; reflexivity | discriminate].
    + apply Ha. simpl. intuition discriminate.
Defined.

(* ================================================================== *)
(** * The handlers: the document client and the search query *)
(* ================================================================== *)

Module DynamoFacts.
Import Dynamo.

Lemma calls_cached (n : nat) (st : ModuleState) (c : DynamoDBDocumentClient) :
  cachedDynamoClient st = Some c ->
  calls n st = (st, repeat c n).
Proof.
  intros H. induction n as [|n IH]; simpl.
  - reflexivity.
  - unfold getDynamoClient. rewrite H, IH. reflexivity.
Qed.

End DynamoFacts.

(** X18. [getDynamoClient] constructs at most one client: however many
    calls follow one another, they all return the client of the first
    call, and the number of clients constructed grows by one when none was
    cached and not at all otherwise. *)
Theorem getDynamoClient_constructs_once :
  forall (n : nat) (st : Dynamo.ModuleState),
    let first := snd (Dynamo.getDynamoClient st) in
    Dynamo.calls (S n) st
    = (fst (Dynamo.getDynamoClient st), repeat first (S n))
    /\ Dynamo.constructed (fst (Dynamo.calls (S n) st))
       = match Dynamo.cachedDynamoClient st with
         | Some _ => Dynamo.constructed st
         | None => S (Dynamo.constructed st)
         end.
Proof.
  intros n st. cbn zeta. cbn [Dynamo.calls].
  unfold Dynamo.getDynamoClient.
  destruct (Dynamo.cachedDynamoClient st) as [c|] eqn:Hc.
  - rewrite (DynamoFacts.calls_cached n st c Hc). split; reflexivity.
  - erewrite DynamoFacts.calls_cached by reflexivity. split; reflexivity.
Qed.

Module SearchFacts.
Import OwnProperties SearchHeroes JSObject.

Lemma fold_addFilter (es : list (string * JSValue)) :
  forall fs ns vs,
    fold_left addFilter es (fs, ns, vs)
    = ((fs ++ map filterOf (map fst es))%list,
       fold_left (fun c e => set (fst e) (snd e) c)
         (map (fun e => ("#" ++ fst e, fst e)) es) ns,
       fold_left (fun c e => set (fst e) (snd e) c)
         (map (fun e => (":" ++ fst e, snd e)) es) vs).
Proof.
  induction es as [|[k v] es IH]; intros fs ns vs; simpl.
  - rewrite List.app_nil_r. reflexivity.
  - rewrite IH. rewrite <- List.app_assoc. reflexivity.
Qed.

Lemma prefixed_NoDup {A B : Type} (c : ascii) (f : string * A -> B)
  (es : list (string * A)) :
  NoDup (map fst es) ->
  NoDup (map fst (map (fun e => (String c (fst e), f e)) es)).
Proof.
  induction es as [|[k a] es IH]; simpl; intros H.
  - constructor.
  - inversion H as [|x l Hk Hnd]; subst. constructor; [|exact (IH Hnd)].
    intros Hin. apply Hk. rewrite map_map in Hin. cbn [fst] in Hin.
    apply in_map_iff in Hin. destruct Hin as ([k' a'] & E & Hin).
    injection E as ->. apply (in_map fst _ _ Hin).
Qed.

Lemma join_filters (k : string) (ks : list string) :
  exists c rest,
    Str.join " AND " (map filterOf (k :: ks)) = String c rest.
Proof.
  destruct ks as [|k' ks]; unfold filterOf; cbn; eexists; eexists;
    reflexivity.
Qed.

End SearchFacts.

(** X19. The query that searchHeroes builds: the key condition is always
    "pk = :pk"; every entry of a truthy body becomes a filter "#key = :key"
    (joined by " AND " in the order of the entries), with the name under
    "#key" and the value under ":key"; the value of ":pk" is "HERO" unless
    the body has a key "pk", whose value then takes its place. *)
Theorem query_filters_follow_body :
  forall (codeUnits : string -> list string) (env : ProcessEnv)
         (body : JSValue) (key : string) (value : JSValue),
    truthy body = true ->
    NoDup (JSObject.keys (OwnProperties.entries codeUnits body)) ->
    In (key, value) (OwnProperties.entries codeUnits body) ->
    let q := SearchHeroes.queryInput codeUnits env body in
    SearchHeroes.KeyConditionExpression q = "pk = :pk"
    /\ SearchHeroes.FilterExpression q
       = Some (Str.join " AND "
                 (map SearchHeroes.filterOf
                    (JSObject.keys (OwnProperties.entries codeUnits body))))
    /\ JSObject.get (":" ++ key) (SearchHeroes.ExpressionAttributeValues q)
       = Some value
    /\ (exists names,
           SearchHeroes.ExpressionAttributeNames q = Some names
           /\ JSObject.get ("#" ++ key) names = Some key)
    /\ (~ In "pk" (JSObject.keys (OwnProperties.entries codeUnits body)) ->
        JSObject.get ":pk" (SearchHeroes.ExpressionAttributeValues q)
        = Some (VStr "HERO")).
Proof.
  intros codeUnits env body key value Hbody Hnd Hin.
  unfold SearchHeroes.queryInput. rewrite Hbody.
  destruct (OwnProperties.entries codeUnits body) as [|e es] eqn:He;
    [contradiction|].
  unfold JSObject.keys in *. rewrite List.length_map.
  cbn [andb length Nat.ltb Nat.leb].
  rewrite SearchFacts.fold_addFilter. cbn [app].
  destruct (SearchFacts.join_filters (fst e) (map fst es)) as (c & rest & Hj).
  change (fst e :: map fst es) with (map fst (e :: es)) in Hj.
  rewrite Hj. cbn [truthyStr String.eqb negb].
  cbn zeta.
  cbn [SearchHeroes.KeyConditionExpression SearchHeroes.FilterExpression
       SearchHeroes.ExpressionAttributeValues
       SearchHeroes.ExpressionAttributeNames].
  split; [reflexivity|]. split; [reflexivity|]. split; [|split].
  - apply (ClientFacts.get_fold_set_present snd (":" ++ key) value).
    + apply (SearchFacts.prefixed_NoDup ":" snd). exact Hnd.
    + apply (in_map (fun e => (":" ++ fst e, snd e)) _ _ Hin).
    + discriminate.
  - eexists. split; [reflexivity|].
    apply (ClientFacts.get_fold_set_present snd ("#" ++ key) key).
    + apply (SearchFacts.prefixed_NoDup "#" fst). exact Hnd.
    + apply (in_map (fun e => ("#" ++ fst e, fst e)) _ _ Hin).
    + discriminate.
  - intros Hpk. rewrite ClientFacts.get_fold_set_absent; [reflexivity|].
    intros H. apply Hpk. rewrite map_map in H. cbn [fst] in H.
    apply in_map_iff in H. destruct H as ([k' v'] & E & H).
    injection E as ->. apply (in_map fst _ _ H).
Qed.

Lemma query_filters_follow_body_witness :
  SearchHeroes.FilterExpression
    (SearchHeroes.queryInput (fun _ => []) (fun _ => None)
       (VObj [("city", VStr "Gotham"); ("pk", VStr "RESCUE")]))
  = Some "#city = :city AND #pk = :pk"
  /\ JSObject.get ":pk"
       (SearchHeroes.ExpressionAttributeValues
          (SearchHeroes.queryInput (fun _ => []) (fun _ => None)
             (VObj [("city", VStr "Gotham"); ("pk", VStr "RESCUE")])))
     = Some (VStr "RESCUE").
Proof.
  pose proof (query_filters_follow_body (fun _ => []) (fun _ => None)
                (VObj [("city", VStr "Gotham"); ("pk", VStr "RESCUE")])
                "pk" (VStr "RESCUE") eq_refl) as H.
  cbn [OwnProperties.entries JSObject.keys map fst] in H.
  destruct H as (_ & Hf & Hv & _).
  - repeat constructor; simpl; intuition discriminate.
  - right. left. reflexivity.
  - split; [exact Hf | exact Hv].
Defined.

(** X20. The item that addHero writes: it cannot be built for a body that is
    [null]; otherwise "rescues" is 0 and "createdAt" is the time stamp
    whatever the body says, every other entry of the body is in the item
    with the body's value, the keys "pk" and "sk" included, and "pk" is
    "HERO" when the body has no such key. *)
Theorem hero_item_attributes :
  forall (codeUnits : string -> list string) (body : JSValue)
         (createdAt : string),
    NoDup (JSObject.keys (OwnProperties.entries codeUnits body)) ->
    match AddHero.item codeUnits body createdAt with
    | Thrown _ => body = VNull \/ body = VUndefined
    | Normal item =>
        JSObject.get "rescues" item = Some (VNum 0)
        /\ JSObject.get "createdAt" item = Some (VStr createdAt)
        /\ (forall key value,
               In (key, value) (OwnProperties.entries codeUnits body) ->
               key <> "rescues" -> key <> "createdAt" ->
               JSObject.get key item = Some value)
        /\ (~ In "pk" (JSObject.keys (OwnProperties.entries codeUnits body)) ->
            JSObject.get "pk" item = Some (VStr "HERO"))
    end.
Proof.
  intros codeUnits body createdAt Hnd. unfold AddHero.item.
  destruct (AddHero.nameOf body) as [name|e] eqn:Hname.
  - split; [|split; [|split]].
    + rewrite JSObjectFacts.get_define. cbn [String.eqb Ascii.eqb Bool.eqb].
      rewrite JSObjectFacts.get_define. reflexivity.
    + rewrite JSObjectFacts.get_define. reflexivity.
    + intros key value Hin Hr Hc.
      apply String.eqb_neq in Hr, Hc.
      rewrite !JSObjectFacts.get_define, Hc, Hr.
      apply JSObjectFacts.get_spread_present; assumption.
    + intros Hpk. rewrite !JSObjectFacts.get_define.
      cbn [String.eqb Ascii.eqb Bool.eqb].
      rewrite JSObjectFacts.get_spread_absent by exact Hpk. reflexivity.
  - destruct body; try discriminate Hname; auto.
Qed.

Lemma hero_item_attributes_witness :
  match AddHero.item (fun _ => []) Examples.intruder "2025-01-01T00:00:00.000Z"
  with
  | Thrown _ => False
  | Normal item =>
      JSObject.get "rescues" item = Some (VNum 0)
      /\ JSObject.get "pk" item = Some (VStr "VILLAIN")
  end.
Proof.
  pose proof (hero_item_attributes (fun _ => []) Examples.intruder
                "2025-01-01T00:00:00.000Z") as H.
  cbn [AddHero.item AddHero.nameOf Examples.intruder JSObject.get
       String.eqb Ascii.eqb Bool.eqb] in H |- *.
  destruct H as (Hr & _ & Hk & _).
  - repeat constructor; simpl; intuition discriminate.
  - split; [exact Hr|]. apply Hk.
    + right. left. reflexivity.
    + discriminate.
    + discriminate.
Defined.

(* ================================================================== *)
(** * The REST API: one resource for every prefix of a path *)
(* ================================================================== *)

Module InternalApiFacts.
Import InternalApi.

Lemma split_slash_free (s : string) :
  Forall (fun p => hasChar "/" p = false) (split s).
Proof.
  induction s as [|c s IH]; simpl.
  - repeat constructor.
  - destruct (Ascii.eqb c "/") eqn:Hc.
    + constructor; [reflexivity | exact IH].
    + destruct (split s) as [|p ps].
      * constructor; [|constructor]. cbn [hasChar].
        rewrite Ascii.eqb_sym, Hc. reflexivity.
      * inversion IH as [|x l Hp Hps]; subst. constructor; [|exact Hps].
        cbn [hasChar]. rewrite Ascii.eqb_sym, Hc. exact Hp.
Qed.

Lemma pathParts_plain (path : string) : Forall plain (pathParts path).
Proof.
  unfold pathParts. pose proof (split_slash_free path) as H.
  induction H as [|p ps Hp Hps IH]; simpl; [constructor|].
  destruct (String.eqb_spec p ""); simpl; [exact IH|].
  constructor; [split; assumption | exact IH].
Qed.

Lemma split_plain_cons (p rest : string) :
  hasChar "/" p = false ->
  split (p ++ String "/" rest) = p :: split rest.
Proof.
  induction p as [|c p IH]; intros H.
  - reflexivity.
  - cbn [hasChar] in H. apply orb_false_iff in H as [Hc Hp].
    cbn [String.append split]. rewrite Ascii.eqb_sym, Hc, (IH Hp).
    reflexivity.
Qed.

Lemma split_plain (p : string) : hasChar "/" p = false -> split p = [p].
Proof.
  induction p as [|c p IH]; intros H.
  - reflexivity.
  - cbn [hasChar] in H. apply orb_false_iff in H as [Hc Hp].
    cbn [split]. rewrite Ascii.eqb_sym, Hc, (IH Hp). reflexivity.
Qed.

Lemma split_join (ps : list string) :
  ps <> [] -> Forall plain ps -> split (Str.join "/" ps) = ps.
Proof.
  induction ps as [|p ps IH]; intros Hne H; [contradiction|].
  inversion H as [|x l [_ Hp] Hps]; subst.
  destruct ps as [|q ps].
  - simpl. apply split_plain. exact Hp.
  - change (Str.join "/" (p :: q :: ps))
      with (p ++ String "/" (Str.join "/" (q :: ps))).
    rewrite (split_plain_cons _ _ Hp), IH; [reflexivity | discriminate | exact Hps].
Qed.

Lemma filter_plain (ps : list string) :
  Forall plain ps ->
  filter (fun pathPart => negb (String.eqb pathPart "")) ps = ps.
Proof.
  induction 1 as [|p ps [Hp _] _ IH]; simpl; [reflexivity|].
  apply String.eqb_neq in Hp. rewrite Hp, IH. reflexivity.
Qed.

Lemma pathParts_join (ps : list string) :
  ps <> [] -> Forall plain ps -> pathParts (Str.join "/" ps) = ps.
Proof.
  intros Hne H. unfold pathParts. rewrite (split_join ps Hne H).
  apply filter_plain. exact H.
Qed.

Lemma join_snoc (ps : list string) (p : string) :
  ps <> [] ->
  Str.join "/" (ps ++ [p]) = Str.join "/" ps ++ String "/" p.
Proof.
  induction ps as [|q ps IH]; intros Hne; [contradiction|].
  destruct ps as [|r ps].
  - reflexivity.
  - change (Str.join "/" ((q :: r :: ps) ++ [p]))
      with (q ++ String "/" (Str.join "/" ((r :: ps) ++ [p]))).
    rewrite IH by discriminate.
    change (Str.join "/" (q :: r :: ps))
      with (q ++ String "/" (Str.join "/" (r :: ps))).
    rewrite !JSONFacts.append_assoc. reflexivity.
Qed.

Lemma lastIndexOf_plain (p : string) :
  hasChar "/" p = false -> lastIndexOf p = (-1)%Z.
Proof.
  induction p as [|c p IH]; intros H; [reflexivity|].
  cbn [hasChar] in H. apply orb_false_iff in H as [Hc Hp].
  cbn [lastIndexOf]. rewrite (IH Hp). cbn.
  rewrite Ascii.eqb_sym, Hc. reflexivity.
Qed.

Lemma lastIndexOf_append (prev p : string) :
  hasChar "/" p = false ->
  lastIndexOf (prev ++ String "/" p) = Z.of_nat (String.length prev).
Proof.
  intros Hp. induction prev as [|c prev IH].
  - cbn [String.append lastIndexOf]. rewrite (lastIndexOf_plain p Hp).
    reflexivity.
  - cbn [String.append lastIndexOf String.length]. rewrite IH.
    destruct (0 <=? Z.of_nat (String.length prev))%Z eqn:E; [lia | lia].
Qed.

Lemma take_append (a b : string) : take (String.length a) (a ++ b) = a.
Proof.
  induction a as [|c a IH]; simpl.
  - destruct b; reflexivity.
  - rewrite IH. reflexivity.
Qed.

Lemma parent_key (prev p : string) :
  hasChar "/" p = false ->
  substring0 (lastIndexOf (prev ++ String "/" p)) (prev ++ String "/" p)
  = prev.
Proof.
  intros Hp. unfold substring0. rewrite (lastIndexOf_append prev p Hp).
  rewrite Nat2Z.id. apply take_append.
Qed.

Lemma prototype_slash_free (k : string) :
  existsb (String.eqb k) objectPrototype = true -> hasChar "/" k = false.
Proof.
  intros H. apply existsb_exists in H as (name & Hin & E).
  apply String.eqb_eq in E. subst name.
  repeat (destruct Hin as [<- | Hin]; [reflexivity|]). contradiction.
Qed.

Lemma prototype_joined (k : string) :
  existsb (String.eqb k) objectPrototype = true ->
  k = Str.join "/" (pathParts k).
Proof.
  intros H. apply existsb_exists in H as (name & Hin & E).
  apply String.eqb_eq in E. subst name.
  repeat (destruct Hin as [<- | Hin]; [reflexivity|]). contradiction.
Qed.

Section Resources.
Variable Resource : Type.
Variable root : Resource.
Variable addResource : Resource -> string -> Resource.

Local Abbreviation chain := (chain Resource root addResource).
Local Abbreviation consistent := (consistent Resource root addResource).
Local Abbreviation visit := (visit Resource root addResource).
Local Abbreviation forEach := (forEach Resource root addResource).
Local Abbreviation kept := (kept Resource).

Lemma chain_snoc (ps : list string) (p : string) :
  chain (ps ++ [p]) = addResource (chain ps) p.
Proof. unfold InternalApi.chain. rewrite fold_left_app. reflexivity. Qed.

Lemma register (ps : list string) (resources : list (string * Resource)) :
  ps <> [] -> Forall plain ps ->
  consistent resources ->
  JSObject.get (Str.join "/" ps) resources = None ->
  Str.join "/" ps <> "__proto__" ->
  let resources' :=
    JSObject.set (Str.join "/" ps) (chain ps) resources in
  consistent resources'
  /\ kept resources resources'
  /\ JSObject.get (Str.join "/" ps) resources' = Some (chain ps).
Proof.
  intros Hne Hps Hc Hnone Hproto resources'. subst resources'.
  apply String.eqb_neq in Hproto.
  split; [|split].
  - intros key resource. rewrite ClientFacts.get_set, Hproto.
    destruct (String.eqb_spec key (Str.join "/" ps)) as [->|Hk].
    + intros H. injection H as <-.
      rewrite (pathParts_join ps Hne Hps). split; reflexivity.
    + apply Hc.
  - intros key resource H. rewrite ClientFacts.get_set, Hproto.
    destruct (String.eqb_spec key (Str.join "/" ps)) as [->|Hk].
    + rewrite Hnone in H. discriminate H.
    + exact H.
  - rewrite ClientFacts.get_set, Hproto, String.eqb_refl. reflexivity.
Qed.

Lemma visit_spec (pre : list string) (part : string)
  (resources : list (string * Resource)) :
  Forall plain pre -> plain part ->
  consistent resources ->
  (pre = [] -> existsb (String.eqb part) objectPrototype = false) ->
  (pre <> [] ->
   JSObject.get (Str.join "/" pre) resources = Some (chain pre)) ->
  exists resources',
    visit (Str.join "/" pre) resources part (List.length pre)
    = Normal (Str.join "/" (pre ++ [part]), resources')
    /\ consistent resources'
    /\ kept resources resources'
    /\ JSObject.get (Str.join "/" (pre ++ [part])) resources'
       = Some (chain (pre ++ [part])).
Proof.
  intros Hpre [Hne Hslash] Hc Hfirst Hparent.
  assert (Hps : Forall plain (pre ++ [part])).
  { apply Forall_app. split; [exact Hpre|]. repeat constructor; assumption. }
  assert (Hnn : (pre ++ [part])%list <> []) by (destruct pre; discriminate).
  unfold InternalApi.visit.
  apply String.eqb_neq in Hne. rewrite Hne. cbn [negb].
  destruct pre as [|p0 pre0].
  - cbn [List.length Nat.eqb app]. cbn [Str.join]. unfold lookup.
    destruct (JSObject.get part resources) as [r|] eqn:Hget.
    + exists resources. split; [reflexivity|]. split; [exact Hc|].
      split; [intros k r' H; exact H|].
      destruct (Hc part r Hget) as [_ ->].
      pose proof (pathParts_join [part] Hnn Hps) as Hpp.
      cbn [Str.join] in Hpp. rewrite Hget, Hpp. reflexivity.
    + rewrite (Hfirst eq_refl).
      destruct (register [part] resources Hnn Hps Hc Hget) as (H1 & H2 & H3).
      { cbn [Str.join]. intros E. subst part. discriminate (Hfirst eq_refl). }
      eexists. split; [reflexivity|]. split; [exact H1|].
      split; [exact H2 | exact H3].
  - set (pre := p0 :: pre0) in *.
    assert (Hpn : pre <> []) by discriminate.
    replace (Nat.eqb (List.length pre) 0) with false by reflexivity.
    cbn [negb]. change ("/" ++ part) with (String "/" part).
    rewrite <- (join_snoc pre part Hpn).
    assert (Hs : hasChar "/" (Str.join "/" (pre ++ [part])) = true).
    { rewrite (join_snoc pre part Hpn), hasChar_append. cbn [hasChar].
      rewrite Ascii.eqb_refl. apply orb_true_r. }
    unfold lookup at 1.
    destruct (JSObject.get (Str.join "/" (pre ++ [part])) resources)
      as [r|] eqn:Hget.
    + exists resources. split; [reflexivity|]. split; [exact Hc|].
      split; [intros k r' H; exact H|].
      destruct (Hc _ r Hget) as [_ ->].
      rewrite Hget, (pathParts_join _ Hnn Hps). reflexivity.
    + destruct (existsb (String.eqb (Str.join "/" (pre ++ [part])))
                  objectPrototype) eqn:Hp.
      { apply prototype_slash_free in Hp. rewrite Hs in Hp. discriminate Hp. }
      assert (Hpk : substring0 (lastIndexOf (Str.join "/" (pre ++ [part])))
                      (Str.join "/" (pre ++ [part]))
                    = Str.join "/" pre).
      { rewrite (join_snoc pre part Hpn). apply parent_key. exact Hslash. }
      rewrite Hpk.
      unfold lookup. rewrite (Hparent Hpn).
      rewrite <- chain_snoc.
      destruct (register (pre ++ [part]) resources Hnn Hps Hc Hget)
        as (H1 & H2 & H3).
      { intros E. rewrite E in Hs. discriminate Hs. }
      eexists. split; [reflexivity|]. split; [exact H1|].
      split; [exact H2 | exact H3].
Qed.

Lemma forEach_spec (rest : list string) :
  forall (pre : list string) (resources : list (string * Resource)),
    Forall plain pre -> Forall plain rest ->
    consistent resources ->
    (pre = [] -> forall first rest',
        rest = first :: rest' ->
        existsb (String.eqb first) objectPrototype = false) ->
    (pre <> [] ->
     JSObject.get (Str.join "/" pre) resources = Some (chain pre)) ->
    exists resources',
      forEach rest (List.length pre) (Str.join "/" pre) resources
      = Normal resources'
      /\ consistent resources'
      /\ kept resources resources'
      /\ forall n,
          (0 < n <= List.length rest)%nat ->
          JSObject.get (Str.join "/" (pre ++ firstn n rest)) resources'
          = Some (chain (pre ++ firstn n rest)).
Proof.
  induction rest as [|part rest IH];
    intros pre resources Hpre Hrest Hc Hfirst Hparent.
  - exists resources. split; [reflexivity|]. split; [exact Hc|].
    split; [intros k r H; exact H|]. intros n Hn. simpl in Hn. lia.
  - inversion Hrest as [|x l Hpart Hrest']; subst.
    destruct (visit_spec pre part resources Hpre Hpart Hc)
      as (resources1 & Hv & Hc1 & Hk1 & Hg1).
    { intros E. exact (Hfirst E part rest eq_refl). }
    { exact Hparent. }
    cbn [InternalApi.forEach]. rewrite Hv.
    destruct (IH (pre ++ [part])%list resources1) as (resources2 & Hf & Hc2 & Hk2 & Hg2).
    { apply Forall_app. split; [exact Hpre|].
      constructor; [exact Hpart | constructor]. }
    { exact Hrest'. }
    { exact Hc1. }
    { intros E. destruct pre; discriminate E. }
    { intros _. exact Hg1. }
    rewrite List.length_app, Nat.add_comm in Hf. cbn [List.length Nat.add] in Hf.
    exists resources2. split; [exact Hf|]. split; [exact Hc2|].
    split; [intros k r H; exact (Hk2 k r (Hk1 k r H))|].
    intros [|n] Hn; [lia|]. cbn [firstn].
    change (pre ++ part :: firstn n rest)%list
      with (pre ++ [part] ++ firstn n rest)%list.
    rewrite List.app_assoc.
    destruct n as [|n].
    + cbn [firstn]. rewrite List.app_nil_r. apply Hk2. exact Hg1.
    + apply Hg2. cbn [List.length] in Hn. lia.
Qed.

End Resources.

End InternalApiFacts.

(** X21. [createEndpointPath] registers one resource for every prefix of
    the path: unless the first part is the name of a member of
    [Object.prototype], the call does not throw, keeps what was registered,
    and leaves under "p1/.../pn" the resource made by adding p1, ..., pn
    in turn from the root, for every prefix of the parts. *)
Theorem createEndpointPath_registers_every_prefix :
  forall (Resource : Type) (root : Resource)
         (addResource : Resource -> string -> Resource)
         (resources : JSObject.t Resource) (path : string),
    InternalApi.consistent Resource root addResource resources ->
    (forall first rest,
        InternalApi.pathParts path = first :: rest ->
        ~ In first InternalApi.objectPrototype) ->
    exists resources',
      InternalApi.createEndpointPath Resource root addResource path resources
      = Normal resources'
      /\ InternalApi.consistent Resource root addResource resources'
      /\ (forall key resource,
             JSObject.get key resources = Some resource ->
             JSObject.get key resources' = Some resource)
      /\ (forall n,
             (0 < n <= List.length (InternalApi.pathParts path))%nat ->
             JSObject.get
               (Str.join "/" (firstn n (InternalApi.pathParts path)))
               resources'
             = Some (InternalApi.chain Resource root addResource
                       (firstn n (InternalApi.pathParts path)))).
Proof.
  intros Resource root addResource resources path Hc Hfirst.
  unfold InternalApi.createEndpointPath.
  apply (InternalApiFacts.forEach_spec Resource root addResource
           (InternalApi.pathParts path) [] resources).
  - constructor.
  - apply InternalApiFacts.pathParts_plain.
  - exact Hc.
  - intros _ first rest' E.
    destruct (existsb (String.eqb first) InternalApi.objectPrototype) eqn:Hp;
      [|reflexivity].
    exfalso. apply (Hfirst first rest' E).
    apply existsb_exists in Hp as (name & Hin & Heq).
    apply String.eqb_eq in Heq. subst name. exact Hin.
  - intros H. contradiction.
Qed.

Lemma createEndpointPath_registers_every_prefix_witness :
  exists resources',
    InternalApi.createEndpointPath (list string) [] Examples.addPart
      "heroes/{heroId}/rescues" []
    = Normal resources'
    /\ JSObject.get "heroes/{heroId}" resources'
       = Some ["heroes"; "{heroId}"].
Proof.
  destruct (createEndpointPath_registers_every_prefix (list string) []
              Examples.addPart [] "heroes/{heroId}/rescues")
    as (resources' & Hrun & _ & _ & Hget).
  - intros key resource H. discriminate H.
  - intros first rest E. injection E as <- _.
    cbv. intuition discriminate.
  - exists resources'. split; [exact Hrun|].
    apply (Hget 2%nat). cbv. lia.
Defined.


